(** * PhishGuard: a shallow embedding of the risk-scoring pipeline

    The development follows the two library modules of the repository,
    [detector.py] (class [PhishingDetector]) and [utils.py], and the
    Python library functions they call ([str] methods, [re], [urllib.parse],
    [json]).

    Conventions of the model.
    - A Python [str] is a [list ascii]; a character is a code point below 256.
      On this alphabet [str.lower], [str.isspace], [\s], [\d] and the
      case-insensitive comparison of [re.IGNORECASE] are the ones written out
      in [PyStr]; code points above U+00FF are outside the model.
    - A Python [int] is a [Z]; [int] of a run of digits is the number it
      writes when the run has at most 4300 digits, the limit the
      interpreter starts with, and raises [ValueError] on a longer run.
      The float literals 0.6, 0.8, 0.3 are the rationals they denote.
    - A call that may raise returns a [result]; [try ... except Exception]
      is a match on it.
    - What the platform decides (the HTTP exchange, the JSON decoder, the
      MIME parser, the validation of bracketed hosts, the HTML entity table)
      is a [Variable] of the section that uses it; what the [email] package
      guarantees of the messages it builds is a law of [MessageAPI]. *)

From Stdlib Require Import Ascii String ZArith QArith Bool Lia Arith.
From Stdlib Require Import Numbers.DecimalString.
From Stdlib Require Import List.
Import ListNotations.

Set Implicit Arguments.

(* ================================================================== *)
(** * Part I: definitions *)
(* ================================================================== *)

(** ** Python strings *)

Definition str := list ascii.

(** A string literal of the source. *)
Definition lit (s : string) : str := list_ascii_of_string s.

Module PyStr.

Definition code (c : ascii) : N := N_of_ascii c.

Definition in_range (lo hi : N) (c : ascii) : bool :=
  (N.leb lo (code c) && N.leb (code c) hi)%bool.

(** [c.isspace()], which is also the class [\s] of a [str] pattern:
    TAB LF VT FF CR, FS GS RS US, SPACE, NEL, NBSP. *)
Definition isspace (c : ascii) : bool :=
  (in_range 9 13 c || in_range 28 32 c
   || N.eqb (code c) 133 || N.eqb (code c) 160)%bool.

(** The class [\d]. *)
Definition isdigit (c : ascii) : bool := in_range 48 57 c.

(** [c.lower()]: A-Z, and the Latin-1 capitals U+00C0..U+00DE but the
    multiplication sign U+00D7. *)
Definition lower_char (c : ascii) : ascii :=
  if (in_range 65 90 c
      || (in_range 192 222 c && negb (N.eqb (code c) 215)))%bool
  then ascii_of_N (code c + 32)
  else c.

(** [s.lower()] *)
Definition lower (s : str) : str := map lower_char s.

Definition eqb_char (a b : ascii) : bool := Ascii.eqb a b.

(** [s.startswith(p)] *)
Fixpoint startswith (p s : str) : bool :=
  match p, s with
  | [], _ => true
  | _ :: _, [] => false
  | a :: p', b :: s' => (eqb_char a b && startswith p' s')%bool
  end.

(** [s.endswith(p)] *)
Definition endswith (p s : str) : bool := startswith (rev p) (rev s).

(** [sub in s] *)
Fixpoint contains (sub s : str) : bool :=
  (startswith sub s
   || match s with
      | [] => false
      | _ :: s' => contains sub s'
      end)%bool.

(** [c in s] for a single character. *)
Definition has_char (c : ascii) (s : str) : bool := existsb (eqb_char c) s.

(** [s[:n]] *)
Definition slice_to (n : nat) (s : str) : str := firstn n s.

(** [s[n:]] *)
Definition slice_from (n : nat) (s : str) : str := skipn n s.

(** [s.lstrip()], [s.rstrip()], [s.strip()] *)
Fixpoint lstrip (s : str) : str :=
  match s with
  | c :: s' => if isspace c then lstrip s' else s
  | [] => []
  end.

Definition rstrip (s : str) : str := rev (lstrip (rev s)).

Definition strip (s : str) : str := rstrip (lstrip s).

(** [s.find(c)] for a single character: the index of the first
    occurrence, [None] for Python's -1. *)
Fixpoint find_char (c : ascii) (s : str) : option nat :=
  match s with
  | [] => None
  | x :: s' => if eqb_char c x then Some 0%nat
               else option_map S (find_char c s')
  end.

(** The number a run of ASCII digits writes. *)
Definition digit_value (c : ascii) : Z := Z.of_N (code c) - 48.

Definition int_of_digits (s : str) : Z :=
  fold_left (fun acc c => 10 * acc + digit_value c)%Z s 0%Z.

(** [str(n)] for an [int]. *)
Definition str_of_int (n : Z) : str :=
  lit (NilZero.string_of_int (Z.to_int n)).

End PyStr.

(** ** Exceptions *)

(** The exception classes the modelled calls raise.  All of them derive from
    [Exception], so [except Exception] catches each. *)
Inductive exn : Type :=
| ValueError (msg : string)
| UnicodeError (msg : string)
| AttributeError (msg : string)
| TypeError (msg : string)
| KeyError (msg : string)
| IndexError (msg : string)
| JSONDecodeError (msg : string)
| RequestException (msg : string)
| HTTPError (status : Z)
| OtherError (msg : string).

Inductive result (A : Type) : Type :=
| Ok (a : A)
| Raise (e : exn).

Arguments Ok {A} a.
Arguments Raise {A} e.

Definition bind {A B : Type} (m : result A) (f : A -> result B) : result B :=
  match m with
  | Ok a => f a
  | Raise e => Raise e
  end.

Declare Scope result_scope.
Delimit Scope result_scope with result.
Notation "x <- m ;; k" := (bind m (fun x => k))
  (at level 61, m at next level, right associativity) : result_scope.
Open Scope result_scope.

(** [for x in xs: ...] with a body that may raise, collecting one value per
    element. *)
Fixpoint mapM {A B : Type} (f : A -> result B) (xs : list A)
  : result (list B) :=
  match xs with
  | [] => Ok []
  | x :: xs' =>
      y <- f x ;;
      ys <- mapM f xs' ;;
      Ok (y :: ys)
  end.

(** [try: body  except Exception: handler] *)
Definition try_except {A : Type} (body : result A) (handler : exn -> result A)
  : result A :=
  match body with
  | Ok a => Ok a
  | Raise e => handler e
  end.

(** ** [int] of a string *)

Module Builtins.

(** [sys.get_int_max_str_digits()] as the interpreter starts. *)
Definition int_max_str_digits : nat := 4300.

(** [int(s)] on a run of ASCII digits, as [\d+] captures it: a run longer
    than the limit is refused, leading zeros included. *)
Definition int (s : str) : result Z :=
  if Nat.leb (length s) int_max_str_digits
  then Ok (PyStr.int_of_digits s)
  else Raise (ValueError "Exceeds the limit (4300 digits) for integer string conversion").

End Builtins.

(** ** Regular expressions: the fragment of [re] the program uses

    Patterns are written as syntax trees; every repetition of the program's
    patterns is over a single character class, which makes the backtracking
    matcher structural in the subject string.  Alternation tries its left
    branch first, a greedy repetition the longest run first, a lazy one the
    shortest, as [re] does. *)

Module Re.

(** One item of a bracket expression, or a one-character pattern. *)
Inductive atom : Type :=
| AChr (c : ascii)      (* a literal character *)
| ADigit                (* \d *)
| ASpace.               (* \s *)

Inductive cset : Type :=
| Single (a : atom)
| Dot                       (* .  *)
| OneOf (l : list atom)     (* [...]  *)
| NoneOf (l : list atom).   (* [^...] *)

Inductive regex : Type :=
| Eps
| Chars (cs : cset)
| Cat (r1 r2 : regex)
| Alt (r1 r2 : regex)               (* r1|r2 *)
| Star (greedy : bool) (cs : cset)  (* cs*  and  cs*? *)
| Group (n : nat) (r : regex).      (* ( r ), numbered from 1 *)

(** [cs+] and [r?] *)
Definition Plus (cs : cset) : regex := Cat (Chars cs) (Star true cs).
Definition Opt (r : regex) : regex := Alt r Eps.

Definition chr (c : ascii) : regex := Chars (Single (AChr c)).

(** A literal run of characters. *)
Fixpoint Lit (s : str) : regex :=
  match s with
  | [] => Eps
  | c :: s' => Cat (chr c) (Lit s')
  end.

(** The literal text of a pattern, and a sequence of patterns. *)
Definition Text (s : string) : regex := Lit (lit s).

Definition Seq (rs : list regex) : regex := fold_right Cat Eps rs.

Record flags : Type := { IGNORECASE : bool; DOTALL : bool }.

Definition no_flags : flags := {| IGNORECASE := false; DOTALL := false |}.
Definition I : flags := {| IGNORECASE := true; DOTALL := false |}.
Definition S_ : flags := {| IGNORECASE := false; DOTALL := true |}.

Definition newline : ascii := ascii_of_N 10.

Definition atom_accepts (fl : flags) (a : atom) (c : ascii) : bool :=
  match a with
  | AChr p =>
      if IGNORECASE fl
      then PyStr.eqb_char (PyStr.lower_char p) (PyStr.lower_char c)
      else PyStr.eqb_char p c
  | ADigit => PyStr.isdigit c
  | ASpace => PyStr.isspace c
  end.

Definition accepts (fl : flags) (cs : cset) (c : ascii) : bool :=
  match cs with
  | Single a => atom_accepts fl a c
  | Dot => (DOTALL fl || negb (PyStr.eqb_char c newline))%bool
  | OneOf l => existsb (fun a => atom_accepts fl a c) l
  | NoneOf l => negb (existsb (fun a => atom_accepts fl a c) l)
  end.

(** Captured groups, most recent binding first. *)
Definition groups := list (nat * str).

Fixpoint group (n : nat) (g : groups) : option str :=
  match g with
  | [] => None
  | (m, s) :: g' => if Nat.eqb n m then Some s else group n g'
  end.

Section Matcher.
Variable fl : flags.
Variable X : Type.

(** A continuation receives what is left of the subject. *)
Definition cont := str -> groups -> option X.

Definition orelse (a : option X) (b : unit -> option X) : option X :=
  match a with
  | Some x => Some x
  | None => b tt
  end.

Fixpoint star (greedy : bool) (cs : cset) (s : str) (g : groups)
         (k : cont) : option X :=
  match s with
  | c :: s' =>
      if accepts fl cs c then
        if greedy
        then orelse (star greedy cs s' g k) (fun _ => k s g)
        else orelse (k s g) (fun _ => star greedy cs s' g k)
      else k s g
  | [] => k s g
  end.

Fixpoint run (r : regex) (s : str) (g : groups) (k : cont) : option X :=
  match r with
  | Eps => k s g
  | Chars cs =>
      match s with
      | c :: s' => if accepts fl cs c then k s' g else None
      | [] => None
      end
  | Cat r1 r2 => run r1 s g (fun s1 g1 => run r2 s1 g1 k)
  | Alt r1 r2 => orelse (run r1 s g k) (fun _ => run r2 s g k)
  | Star greedy cs => star greedy cs s g k
  | Group n r1 =>
      run r1 s g
          (fun s1 g1 =>
             k s1 ((n, firstn (length s - length s1) s) :: g1))
  end.
End Matcher.

(** A match object: where it starts, the text of group 0, the groups. *)
Record match_ : Type :=
  { m_start : nat; m_text : str; m_groups : groups }.

(** [re.match]: a match anchored at the beginning of [s]; the result is
    the matched text, what follows it, and the groups. *)
Definition match_at (fl : flags) (r : regex) (s : str)
  : option (str * str * groups) :=
  run fl r s []
      (fun rest g => Some (firstn (length s - length rest) s, rest, g)).

(** [re.search]: the leftmost position at which a match starts. *)
Fixpoint search_from (fl : flags) (r : regex) (pos : nat) (s : str)
  : option match_ :=
  match match_at fl r s with
  | Some (text, _, g) =>
      Some {| m_start := pos; m_text := text; m_groups := g |}
  | None =>
      match s with
      | [] => None
      | _ :: s' => search_from fl r (S pos) s'
      end
  end.

Definition search (fl : flags) (r : regex) (s : str) : option match_ :=
  search_from fl r 0 s.

(** [m.group(n)] for a group that took part in the match. *)
Definition group_of (n : nat) (m : match_) : str :=
  match n with
  | O => m_text m
  | _ => match group n (m_groups m) with
         | Some s => s
         | None => []
         end
  end.

(** [re.findall] for a pattern without groups: the non-overlapping matches,
    left to right.  [skip] counts the characters of the last match still to
    be passed over.  An empty match yields the empty string and the scan
    moves on by one character. *)
Fixpoint findall_from (fl : flags) (r : regex) (skip : nat) (s : str)
  : list str :=
  match skip with
  | S n =>
      match s with
      | [] => []
      | _ :: s' => findall_from fl r n s'
      end
  | O =>
      match match_at fl r s with
      | Some (text, _, _) =>
          text :: match s with
                  | [] => []
                  | _ :: s' => findall_from fl r (length text - 1) s'
                  end
      | None =>
          match s with
          | [] => []
          | _ :: s' => findall_from fl r 0 s'
          end
      end
  end.

Definition findall (fl : flags) (r : regex) (s : str) : list str :=
  findall_from fl r 0 s.

(** [re.sub(r, repl, s)] for a pattern that matches no empty string and a
    replacement without back-references. *)
Fixpoint sub_from (fl : flags) (r : regex) (repl : str) (skip : nat)
         (s : str) : str :=
  match skip with
  | S n =>
      match s with
      | [] => []
      | _ :: s' => sub_from fl r repl n s'
      end
  | O =>
      match s with
      | [] => []
      | c :: s' =>
          match match_at fl r s with
          | Some (text, _, _) =>
              match length text with
              | O => c :: sub_from fl r repl 0 s'
              | S n => repl ++ sub_from fl r repl n s'
              end
          | None => c :: sub_from fl r repl 0 s'
          end
      end
  end.

Definition sub (fl : flags) (r : regex) (repl s : str) : str :=
  sub_from fl r repl 0 s.

(** *** The language of a pattern

    [matches fl r s]: the whole of [s] is a match of [r].  The matcher is
    compared with this relation in Part II. *)
Inductive matches (fl : flags) : regex -> str -> Prop :=
| M_Eps : matches fl Eps []
| M_Chars cs c :
    accepts fl cs c = true -> matches fl (Chars cs) [c]
| M_Cat r1 r2 s1 s2 :
    matches fl r1 s1 -> matches fl r2 s2 -> matches fl (Cat r1 r2) (s1 ++ s2)
| M_AltL r1 r2 s : matches fl r1 s -> matches fl (Alt r1 r2) s
| M_AltR r1 r2 s : matches fl r2 s -> matches fl (Alt r1 r2) s
| M_Star greedy cs s :
    forallb (accepts fl cs) s = true -> matches fl (Star greedy cs) s
| M_Group n r s : matches fl r s -> matches fl (Group n r) s.

(** [s] holds a match of [r]: some substring of [s] is in the language. *)
Definition occurs (fl : flags) (r : regex) (s : str) : Prop :=
  exists pre m post, s = pre ++ m ++ post /\ matches fl r m.

End Re.

(** ** [urllib.parse]: the network location of a URL

    [urlparse(url).netloc] as [urlsplit] computes it.  On the model's
    alphabet [_checknetloc] never raises (no Latin-1 character normalises
    to one of the delimiters), so it is left out; on code points above
    U+00FF, which are outside the model, it may raise [ValueError]. *)

Module UrlParse.

Definition is_ascii_alpha (c : ascii) : bool :=
  (PyStr.in_range 65 90 c || PyStr.in_range 97 122 c)%bool.

(** [c in scheme_chars]: the letters, the digits and [+-.] *)
Definition scheme_char (c : ascii) : bool :=
  (is_ascii_alpha c || PyStr.isdigit c
   || PyStr.eqb_char c "+" || PyStr.eqb_char c "-"
   || PyStr.eqb_char c ".")%bool.

(** [url.lstrip(_WHATWG_C0_CONTROL_OR_SPACE)] *)
Fixpoint lstrip_c0 (url : str) : str :=
  match url with
  | c :: url' => if N.leb (PyStr.code c) 32 then lstrip_c0 url' else url
  | [] => []
  end.

(** Removal of [_UNSAFE_URL_BYTES_TO_REMOVE]: TAB, CR, LF. *)
Definition remove_unsafe (url : str) : str :=
  filter (fun c => negb (N.eqb (PyStr.code c) 9 || N.eqb (PyStr.code c) 13
                         || N.eqb (PyStr.code c) 10)%bool) url.

(** The scheme split: what is left of [url] once a scheme is taken off. *)
Definition after_scheme (url : str) : str :=
  match PyStr.find_char ":" url, url with
  | Some (S i), c0 :: _ =>
      if (is_ascii_alpha c0 && forallb scheme_char (firstn (S i) url))%bool
      then skipn (S (S i)) url
      else url
  | _, _ => url
  end.

(** [_splitnetloc(url, 2)[0]]: from index 2 up to the first of [/?#]. *)
Fixpoint upto_delim (s : str) : str :=
  match s with
  | [] => []
  | c :: s' =>
      if (PyStr.eqb_char c "/" || PyStr.eqb_char c "?"
          || PyStr.eqb_char c "#")%bool
      then []
      else c :: upto_delim s'
  end.

Section Netloc.
(** [_check_bracketed_netloc] of recent CPython versions, on a netloc
    that holds both brackets: the message of the [ValueError] it raises
    (Invalid IPv6 URL, or what [ipaddress] says of a host that is no IP
    address), [None] when it accepts the netloc.  Older versions accept
    every such netloc. *)
Variable bracketed_netloc_error : str -> option string.

Definition netloc (url0 : str) : result str :=
  let url := after_scheme (remove_unsafe (lstrip_c0 url0)) in
  if PyStr.startswith (lit "//") url then
    let n := upto_delim (skipn 2 url) in
    let lb := PyStr.has_char "[" n in
    let rb := PyStr.has_char "]" n in
    if ((lb && negb rb) || (rb && negb lb))%bool
    then Raise (ValueError "Invalid IPv6 URL")
    else if (lb && rb)%bool
         then match bracketed_netloc_error n with
              | None => Ok n
              | Some msg => Raise (ValueError msg)
              end
         else Ok n
  else Ok [].
End Netloc.

End UrlParse.

(** ** JSON values

    The values [json.loads] produces and [json.dumps] accepts; a Python
    [dict] literal of the program is a [JObj] with its keys in insertion
    order. *)

#[warnings="-register-all"]
Inductive json : Type :=
| JNull
| JBool (b : bool)
| JInt (n : Z)
| JFloat (q : Q)
| JNaN
| JInfinity (negative : bool)
| JStr (s : str)
| JArr (items : list json)
| JObj (members : list (str * json)).

Module Json.

Definition str_eqb (a b : str) : bool :=
  (Nat.eqb (length a) (length b) && PyStr.startswith a b)%bool.

(** [d.get(k)] *)
Fixpoint lookup (k : str) (d : list (str * json)) : option json :=
  match d with
  | [] => None
  | (k', v) :: d' => if str_eqb k k' then Some v else lookup k d'
  end.

Definition get (k : string) (v : json) : option json :=
  match v with
  | JObj d => lookup (lit k) d
  | _ => None
  end.

(** [d[k] = v]: an existing key keeps its place. *)
Fixpoint set (k : str) (v : json) (d : list (str * json))
  : list (str * json) :=
  match d with
  | [] => [(k, v)]
  | (k', v') :: d' =>
      if str_eqb k k' then (k', v) :: d' else (k', v') :: set k v d'
  end.

(** [v[k]] for a string key. *)
Definition subscript_key (k : string) (v : json) : result json :=
  match v with
  | JObj d =>
      match lookup (lit k) d with
      | Some x => Ok x
      | None => Raise (KeyError k)
      end
  | JArr _ => Raise (TypeError "list indices must be integers or slices")
  | JStr _ => Raise (TypeError "string indices must be integers")
  | _ => Raise (TypeError "object is not subscriptable")
  end.

(** [v[0]] *)
Definition subscript_0 (v : json) : result json :=
  match v with
  | JArr (x :: _) => Ok x
  | JArr [] => Raise (IndexError "list index out of range")
  | JStr (c :: _) => Ok (JStr [c])
  | JStr [] => Raise (IndexError "string index out of range")
  | JObj _ => Raise (KeyError "0")
  | _ => Raise (TypeError "object is not subscriptable")
  end.

(** *** A reference decoder

    [loads] follows [json.loads] on texts whose strings stay inside the
    alphabet: a [\uXXXX] escape above U+00FF is answered with
    [OtherError].  A number with a fraction or an exponent becomes the
    rational its digits denote: the rounding to a double and the overflow
    to infinity are not modelled.  An integer is converted by [int],
    which refuses a run of more than 4300 digits. *)

(** The whitespace [json] skips: space, TAB, LF, CR. *)
Definition is_ws (c : ascii) : bool :=
  (N.eqb (PyStr.code c) 32 || N.eqb (PyStr.code c) 9
   || N.eqb (PyStr.code c) 10 || N.eqb (PyStr.code c) 13)%bool.

Fixpoint skip_ws (s : str) : str :=
  match s with
  | c :: s' => if is_ws c then skip_ws s' else s
  | [] => []
  end.

Fixpoint span_digits (s : str) : str * str :=
  match s with
  | c :: s' =>
      if PyStr.isdigit c
      then let (d, r) := span_digits s' in (c :: d, r)
      else ([], s)
  | [] => ([], [])
  end.

Definition hex_value (c : ascii) : option N :=
  if PyStr.isdigit c then Some (PyStr.code c - 48)%N
  else if PyStr.in_range 97 102 c then Some (PyStr.code c - 87)%N
  else if PyStr.in_range 65 70 c then Some (PyStr.code c - 55)%N
  else None.

Definition hex4 (a b c d : ascii) : option N :=
  match hex_value a, hex_value b, hex_value c, hex_value d with
  | Some x, Some y, Some z, Some w => Some (((x * 16 + y) * 16 + z) * 16 + w)%N
  | _, _, _, _ => None
  end.

(** The body of a string, after its opening quote. *)
Fixpoint scanstring (s : str) : result (str * str) :=
  match s with
  | [] => Raise (JSONDecodeError "Unterminated string starting at")
  | "034"%char :: r => Ok ([], r)
  | "\"%char :: e :: r =>
      let keep (c : ascii) (r' : str) :=
        bind (scanstring r') (fun p => Ok (c :: fst p, snd p)) in
      match e with
      | "034"%char => keep e r
      | "\"%char => keep e r
      | "/"%char => keep e r
      | "b"%char => keep (ascii_of_N 8) r
      | "f"%char => keep (ascii_of_N 12) r
      | "n"%char => keep (ascii_of_N 10) r
      | "r"%char => keep (ascii_of_N 13) r
      | "t"%char => keep (ascii_of_N 9) r
      | "u"%char =>
          match r with
          | h1 :: h2 :: h3 :: h4 :: r' =>
              match hex4 h1 h2 h3 h4 with
              | Some n =>
                  if N.ltb n 256 then keep (ascii_of_N n) r'
                  else Raise (OtherError "code point above U+00FF")
              | None => Raise (JSONDecodeError "Invalid \uXXXX escape")
              end
          | _ => Raise (JSONDecodeError "Invalid \uXXXX escape")
          end
      | _ => Raise (JSONDecodeError "Invalid \escape")
      end
  | "\"%char :: [] =>
      Raise (JSONDecodeError "Unterminated string starting at")
  | c :: r =>
      if N.ltb (PyStr.code c) 32
      then Raise (JSONDecodeError "Invalid control character at")
      else bind (scanstring r) (fun p => Ok (c :: fst p, snd p))
  end.

(** [NUMBER_RE]: an optional minus sign, then 0 or a run of digits that
    does not start with 0; a fraction (a dot and digits) and an exponent
    (e or E, an optional sign, digits) are both optional. *)
Definition scan_int (s : str) : option (str * str) :=
  match s with
  | "0"%char :: r => Some (["0"%char], r)
  | c :: _ =>
      if PyStr.isdigit c then Some (span_digits s) else None
  | [] => None
  end.

Definition scan_frac (s : str) : str * str :=
  match s with
  | "."%char :: r =>
      match span_digits r with
      | ([], _) => ([], s)
      | (d, r') => (d, r')
      end
  | _ => ([], s)
  end.

(** The exponent, when one is written: its sign and digits. *)
Definition scan_exp (s : str) : option (bool * str) * str :=
  match s with
  | e :: r =>
      if (PyStr.eqb_char e "e" || PyStr.eqb_char e "E")%bool then
        let (neg, r1) :=
          match r with
          | "-"%char :: r1 => (true, r1)
          | "+"%char :: r1 => (false, r1)
          | _ => (false, r)
          end in
        match span_digits r1 with
        | ([], _) => (None, s)
        | (d, r2) => (Some (neg, d), r2)
        end
      else (None, s)
  | [] => (None, s)
  end.

Definition pow10 (n : Z) : positive := Z.to_pos (10 ^ n).

Definition decimal (neg : bool) (i f : str) (e : option (bool * str)) : Q :=
  let k := Z.of_nat (length f) in
  let m := (PyStr.int_of_digits i * 10 ^ k + PyStr.int_of_digits f)%Z in
  let m := if neg then (- m)%Z else m in
  match e with
  | None => Qmake m (pow10 k)
  | Some (false, d) =>
      Qmake (m * 10 ^ PyStr.int_of_digits d) (pow10 k)
  | Some (true, d) =>
      Qmake m (pow10 k * pow10 (PyStr.int_of_digits d))
  end.

Definition scan_number (s : str) : option (result (json * str)) :=
  let (neg, s0) :=
    match s with
    | "-"%char :: r => (true, r)
    | _ => (false, s)
    end in
  match scan_int s0 with
  | None => None
  | Some (i, r1) =>
      let (f, r2) := scan_frac r1 in
      let (e, r3) := scan_exp r2 in
      match f, e with
      | [], None =>
          Some (bind (Builtins.int i)
                     (fun n => Ok (JInt (if neg then - n else n)%Z, r3)))
      | _, _ => Some (Ok (JFloat (decimal neg i f e), r3))
      end
  end.

(** [s] starts with the keyword [w]: what follows it. *)
Definition keyword (w : string) (s : str) : option str :=
  if PyStr.startswith (lit w) s
  then Some (skipn (length (lit w)) s)
  else None.

Definition expecting_value : exn := JSONDecodeError "Expecting value".

Definition scan_literal (s : str) : result (json * str) :=
  match keyword "null" s with
  | Some r => Ok (JNull, r)
  | None =>
  match keyword "true" s with
  | Some r => Ok (JBool true, r)
  | None =>
  match keyword "false" s with
  | Some r => Ok (JBool false, r)
  | None =>
  match scan_number s with
  | Some p => p
  | None =>
  match keyword "NaN" s with
  | Some r => Ok (JNaN, r)
  | None =>
  match keyword "Infinity" s with
  | Some r => Ok (JInfinity false, r)
  | None =>
  match keyword "-Infinity" s with
  | Some r => Ok (JInfinity true, r)
  | None => Raise expecting_value
  end end end end end end end.

(** [scan_once], with the array and object loops; [fuel] bounds the
    nesting and the number of items, [loads] passes enough of it. *)
Fixpoint scan_once (fuel : nat) (s : str) : result (json * str) :=
  match fuel with
  | O => Raise (OtherError "recursion limit")
  | S f =>
      match s with
      | "034"%char :: r =>
          bind (scanstring r) (fun p => Ok (JStr (fst p), snd p))
      | "{"%char :: r =>
          match skip_ws r with
          | "}"%char :: r' => Ok (JObj [], r')
          | r' => bind (members f r' [])
                       (fun p => Ok (JObj (fst p), snd p))
          end
      | "["%char :: r =>
          match skip_ws r with
          | "]"%char :: r' => Ok (JArr [], r')
          | r' => bind (items f r')
                       (fun p => Ok (JArr (fst p), snd p))
          end
      | _ => scan_literal s
      end
  end
with items (fuel : nat) (s : str) : result (list json * str) :=
  match fuel with
  | O => Raise (OtherError "recursion limit")
  | S f =>
      bind (scan_once f s) (fun p =>
        match skip_ws (snd p) with
        | ","%char :: r =>
            bind (items f (skip_ws r))
                 (fun q => Ok (fst p :: fst q, snd q))
        | "]"%char :: r => Ok ([fst p], r)
        | _ => Raise (JSONDecodeError "Expecting ',' delimiter")
        end)
  end
with members (fuel : nat) (s : str) (acc : list (str * json))
  : result (list (str * json) * str) :=
  match fuel with
  | O => Raise (OtherError "recursion limit")
  | S f =>
      match s with
      | "034"%char :: r =>
          bind (scanstring r) (fun kr =>
            match skip_ws (snd kr) with
            | ":"%char :: r1 =>
                bind (scan_once f (skip_ws r1)) (fun p =>
                  let acc' := set (fst kr) (fst p) acc in
                  match skip_ws (snd p) with
                  | ","%char :: r2 => members f (skip_ws r2) acc'
                  | "}"%char :: r2 => Ok (acc', r2)
                  | _ => Raise (JSONDecodeError "Expecting ',' delimiter")
                  end)
            | _ => Raise (JSONDecodeError "Expecting ':' delimiter")
            end)
      | _ =>
          Raise (JSONDecodeError
                   "Expecting property name enclosed in double quotes")
      end
  end.

(** [json.loads(s)] *)
Definition loads (s : str) : result json :=
  bind (scan_once (2 * length s + 2) (skip_ws s)) (fun p =>
    match skip_ws (snd p) with
    | [] => Ok (fst p)
    | _ => Raise (JSONDecodeError "Extra data")
    end).

End Json.

(** ** The data model *)

(** [EmailMetadata]: the dict [extract_metadata] builds.  [analyze_with_ai]
    reads its first four keys with [metadata.get]; every dict the
    application passes has them. *)
Record EmailMetadata : Type :=
  { md_from : str;
    md_subject : str;
    md_has_links : bool;
    md_has_attachments : bool;
    md_date : option str }.

(** [UrlFinding]: one dict of the list [extract_urls] returns. *)
Record UrlFinding : Type :=
  { url : str;
    is_shortened : bool;
    suspicious_tld : bool;
    has_ip_address : bool;
    redirect_depth : Z }.

(** An [AnalysisResult] is a dict: the literal of the text-scrape parser,
    the literal of the heuristic scorer, or whatever object the provider's
    JSON denotes.  Its fields are read with [Json.get]. *)
Definition AnalysisResult := json.

(** What [requests.post] sends and what it answers. *)
Record Request : Type :=
  { req_url : str;
    req_headers : list (str * str);
    req_json : json }.

Record Response : Type :=
  { status_code : Z;
    text : str }.

(** [sum(1 for x in xs if p(x))] *)
Definition count_if {A : Type} (p : A -> bool) (xs : list A) : Z :=
  fold_left Z.add (map (fun _ => 1%Z) (filter p xs)) 0%Z.

Definition dq : ascii := "034"%char.
Definition LF : ascii := "010"%char.

(** A pattern or prompt fragment in double quotes. *)
Definition quoted (s : string) : str := dq :: lit s ++ [dq].

(** [str(b)] for a [bool]. *)
Definition str_of_bool (b : bool) : str :=
  if b then lit "True" else lit "False".

(** The dict [analyze_headers] returns. *)
Record HeaderAnalysis : Type :=
  { spf_pass : bool;
    dkim_pass : bool;
    dmarc_pass : bool;
    sender_ip : option str;
    mail_server : option str }.

(** The dict [calculate_risk_score] reads: each of its three keys may be
    missing. *)
Record Indicators : Type :=
  { ind_content : option str;
    ind_urls : option (list str);
    ind_sender_analysis : option str }.

(** [d.get(k, default)] on a key that may be missing. *)
Definition get_or {A : Type} (o : option A) (default : A) : A :=
  match o with
  | Some v => v
  | None => default
  end.

(** ** detector.py: class [PhishingDetector] *)

Module Detector.

Definition base_url : str := lit "https://api.deepseek.com/v1/chat/completions".

Definition phishing_keywords : list str :=
  map lit
      [ "urgent"; "immediately"; "verify"; "account suspended";
        "password expired"; "security alert"; "click here";
        "confirm your identity"; "unauthorized login attempt" ]%string.

Definition suspicious_tlds : list str :=
  map lit [ ".tk"; ".ml"; ".ga"; ".cf"; ".xyz"; ".top" ]%string.

Definition shorteners : list str :=
  map lit [ "bit.ly"; "tinyurl.com"; "goo.gl"; "ow.ly"; "is.gd" ]%string.

Definition redirect_keywords : list str :=
  map lit [ "redirect"; "login"; "verify"; "confirm"; "secure" ]%string.

(** The class of the URL body: anything but whitespace, the angle
    brackets and the double quote. *)
Definition url_chars : Re.cset :=
  Re.NoneOf [Re.ASpace; Re.AChr "<"; Re.AChr ">"; Re.AChr dq].

Definition http_alternative : Re.regex :=
  Re.Seq [Re.Text "http"; Re.Opt (Re.chr "s"); Re.Text "://";
          Re.Plus url_chars].

Definition www_alternative : Re.regex :=
  Re.Seq [Re.Text "www"; Re.chr "."; Re.Plus url_chars].

(** The pattern of [extract_urls]: the http(s) form, or the www form. *)
Definition url_pattern : Re.regex := Re.Alt http_alternative www_alternative.

(** Four runs of digits separated by dots. *)
Definition ip_pattern : Re.regex :=
  let d := Re.Plus (Re.Single Re.ADigit) in
  Re.Seq [d; Re.chr "."; d; Re.chr "."; d; Re.chr "."; d].

(** An opening brace, anything, a closing brace (greedy, DOTALL). *)
Definition json_pattern : Re.regex :=
  Re.Seq [Re.chr "{"; Re.Star true Re.Dot; Re.chr "}"].

(** risk, an underscore or a whitespace, score, colons and whitespace,
    then the captured digits. *)
Definition risk_pattern : Re.regex :=
  Re.Seq [Re.Text "risk"; Re.Chars (Re.OneOf [Re.AChr "_"; Re.ASpace]);
          Re.Text "score"; Re.Star true (Re.OneOf [Re.AChr ":"; Re.ASpace]);
          Re.Group 1 (Re.Plus (Re.Single Re.ADigit))].

(** The conditional expression both result literals use for
    [risk_level]. *)
Definition level_of (risk_score : Z) : str :=
  if (risk_score >? 70)%Z then lit "HIGH"
  else if (risk_score >? 30)%Z then lit "MEDIUM"
  else lit "LOW".

Definition _is_shortened_url (url : str) : bool :=
  existsb (fun shortener => PyStr.contains shortener (PyStr.lower url))
          shorteners.

Definition _check_redirect_possibility (url : str) : Z :=
  count_if (fun keyword => PyStr.contains keyword (PyStr.lower url))
           redirect_keywords.

Definition _parse_text_response (text : str) : result AnalysisResult :=
  let risk_match := Re.search Re.I risk_pattern text in
  risk_score <- match risk_match with
                | Some m => Builtins.int (Re.group_of 1 m)
                | None => Ok 50%Z
                end ;;
  Ok (JObj
        [ (lit "risk_score", JInt risk_score);
          (lit "risk_level", JStr (level_of risk_score));
          (lit "indicators_found",
            JArr [JStr (lit "AI Analysis Available")]);
          (lit "technical_analysis", JStr (PyStr.slice_to 500 text));
          (lit "recommendations",
            JArr [JStr (lit "Review full analysis above")]);
          (lit "confidence", JFloat (8 # 10)) ]).

(** The f-string of [analyze_with_ai]. *)
Definition prompt (email_content : str) (metadata : EmailMetadata) : str :=
  let ind := lit "        " in
  let ind2 := lit "            " in
  let row (parts : list str) : str := concat parts ++ [LF] in
  [LF]
  ++ row [ind; lit "Analyze this email for phishing indicators. Be specific and technical."]
  ++ row [ind]
  ++ row [ind; lit "EMAIL METADATA:"]
  ++ row [ind; lit "- From: "; md_from metadata]
  ++ row [ind; lit "- Subject: "; md_subject metadata]
  ++ row [ind; lit "- Has Links: "; str_of_bool (md_has_links metadata)]
  ++ row [ind; lit "- Has Attachments: ";
          str_of_bool (md_has_attachments metadata)]
  ++ row [ind]
  ++ row [ind; lit "EMAIL CONTENT (truncated):"]
  ++ row [ind; PyStr.slice_to 2000 email_content]
  ++ row [ind]
  ++ row [ind; lit "Analyze:"]
  ++ row [ind; lit "1. Linguistic Analysis: Urgency, authority, emotional manipulation"]
  ++ row [ind; lit "2. Technical Indicators: Suspicious links, sender mismatch, spoofing signs"]
  ++ row [ind; lit "3. Social Engineering Tactics: Pretexting, baiting, scare tactics"]
  ++ row [ind; lit "4. Overall Risk Score: 0-100 (with justification)"]
  ++ row [ind; lit "5. Recommendations: What to check/do"]
  ++ row [ind]
  ++ row [ind; lit "Return JSON format:"]
  ++ row [ind; lit "{"]
  ++ row [ind2; quoted "risk_score"; lit ": 85,"]
  ++ row [ind2; quoted "risk_level"; lit ": "; quoted "HIGH"; lit ","]
  ++ row [ind2; quoted "indicators_found"; lit ": [";
          quoted "urgent language"; lit ", "; quoted "suspicious link";
          lit "],"]
  ++ row [ind2; quoted "technical_analysis"; lit ": ";
          quoted "Detailed explanation..."; lit ","]
  ++ row [ind2; quoted "social_engineering_analysis"; lit ": ";
          quoted "How attacker manipulates..."; lit ","]
  ++ row [ind2; quoted "recommendations"; lit ": [";
          quoted "Don't click links"; lit ", "; quoted "Verify sender";
          lit "],"]
  ++ row [ind2; quoted "confidence"; lit ": 0.95"]
  ++ row [ind; lit "}"]
  ++ ind.

Definition system_persona : str :=
  lit "You are a cybersecurity expert specializing in phishing detection. Be concise and technical.".

(** [response.raise_for_status()] *)
Definition raise_for_status (response : Response) : result unit :=
  if ((400 <=? status_code response) && (status_code response <? 600))%Z
  then Raise (HTTPError (status_code response))
  else Ok tt.

(** [re.search] on a value that is not a [str] raises [TypeError]. *)
Definition as_str (v : json) : result str :=
  match v with
  | JStr s => Ok s
  | _ => Raise (TypeError "expected string or bytes-like object")
  end.

Definition analyze_headers (headers : str) : HeaderAnalysis :=
  let analysis :=
    {| spf_pass := false; dkim_pass := false; dmarc_pass := false;
       sender_ip := None; mail_server := None |} in
  let analysis :=
    if PyStr.contains (lit "spf=pass") (PyStr.lower headers)
    then {| spf_pass := true; dkim_pass := dkim_pass analysis;
            dmarc_pass := dmarc_pass analysis;
            sender_ip := sender_ip analysis;
            mail_server := mail_server analysis |}
    else analysis in
  let analysis :=
    if PyStr.contains (lit "dkim=pass") (PyStr.lower headers)
    then {| spf_pass := spf_pass analysis; dkim_pass := true;
            dmarc_pass := dmarc_pass analysis;
            sender_ip := sender_ip analysis;
            mail_server := mail_server analysis |}
    else analysis in
  analysis.

Section Instance.
(** The instance's key, and what the platform decides. *)
Variable api_key : str.
Variable bracketed_netloc_error : str -> option string.
Variable json_loads : str -> result json.
Variable requests_post : Request -> result Response.

Definition _has_suspicious_tld (url : str) : result bool :=
  domain <- UrlParse.netloc bracketed_netloc_error url ;;
  Ok (existsb (fun tld => PyStr.endswith tld domain) suspicious_tlds).

(** The dict appended for one URL; its values are evaluated in the
    order of the literal. *)
Definition analyze_url (url : str) : result UrlFinding :=
  let shortened := _is_shortened_url url in
  tld <- _has_suspicious_tld url ;;
  Ok {| url := url;
        is_shortened := shortened;
        suspicious_tld := tld;
        has_ip_address :=
          match Re.search Re.no_flags ip_pattern url with
          | Some _ => true
          | None => false
          end;
        redirect_depth := _check_redirect_possibility url |}.

Definition extract_urls (text : str) : result (list UrlFinding) :=
  let urls := Re.findall Re.no_flags url_pattern text in
  mapM analyze_url urls.

Definition _fallback_analysis (email_content : str)
           (metadata : EmailMetadata) : result AnalysisResult :=
  let risk_score := 0%Z in
  let content_lower := PyStr.lower email_content in
  let keyword_matches :=
    count_if (fun keyword => PyStr.contains keyword content_lower)
             phishing_keywords in
  let risk_score := (risk_score + Z.min (keyword_matches * 15) 60)%Z in
  urls <- extract_urls email_content ;;
  let suspicious_urls :=
    count_if (fun url => (suspicious_tld url || has_ip_address url)%bool)
             urls in
  let risk_score := (risk_score + Z.min (suspicious_urls * 20) 40)%Z in
  Ok (JObj
        [ (lit "risk_score", JInt (Z.min risk_score 100));
          (lit "risk_level", JStr (level_of risk_score));
          (lit "indicators_found",
            JArr [ JStr (PyStr.str_of_int keyword_matches
                         ++ lit " phishing keywords");
                   JStr (PyStr.str_of_int suspicious_urls
                         ++ lit " suspicious URLs") ]);
          (lit "technical_analysis",
            JStr (lit "Basic analysis (AI unavailable)"));
          (lit "recommendations",
            JArr [ JStr (lit "Exercise caution");
                   JStr (lit "Verify sender independently") ]);
          (lit "confidence", JFloat (6 # 10)) ]).

Definition request (email_content : str) (metadata : EmailMetadata)
  : Request :=
  {| req_url := base_url;
     req_headers :=
       [ (lit "Authorization", lit "Bearer " ++ api_key);
         (lit "Content-Type", lit "application/json") ];
     req_json :=
       JObj
         [ (lit "model", JStr (lit "deepseek-chat"));
           (lit "messages",
             JArr [ JObj [ (lit "role", JStr (lit "system"));
                           (lit "content", JStr system_persona) ];
                    JObj [ (lit "role", JStr (lit "user"));
                           (lit "content",
                             JStr (prompt email_content metadata)) ] ]);
           (lit "temperature", JFloat (3 # 10));
           (lit "max_tokens", JInt 1000) ] |}.

(** The first statements of the [try]: the exchange, up to
    [response.json()['choices'][0]['message']['content']]. *)
Definition ai_call (email_content : str) (metadata : EmailMetadata)
  : result json :=
  response <- requests_post (request email_content metadata) ;;
  checked <- raise_for_status response ;;
  body <- json_loads (text response) ;;
  choices <- Json.subscript_key "choices" body ;;
  choice <- Json.subscript_0 choices ;;
  message <- Json.subscript_key "message" choice ;;
  Json.subscript_key "content" message.

(** The rest of the [try]: the JSON object of the answer, or the
    text-scrape parser. *)
Definition read_ai_response (content : json) : result AnalysisResult :=
  ai_response <- as_str content ;;
  match Re.search Re.S_ json_pattern ai_response with
  | Some json_match => json_loads (Re.group_of 0 json_match)
  | None => _parse_text_response ai_response
  end.

(** The body of the [try]. *)
Definition ai_attempt (email_content : str) (metadata : EmailMetadata)
  : result AnalysisResult :=
  content <- ai_call email_content metadata ;;
  read_ai_response content.

(** [print] in the handler writes to the console only. *)
Definition analyze_with_ai (email_content : str)
           (metadata : EmailMetadata) : result AnalysisResult :=
  try_except
    (ai_attempt email_content metadata)
    (fun e => _fallback_analysis email_content metadata).
End Instance.

End Detector.

(** ** The [email] package, as [parse_email] uses it *)

(** What [utils.py] asks of a parsed message.  [get_filename] decodes
    the filename parameter of the part and raises when the parameter
    names a charset that cannot decode it.  [payload_text] is
    [part.get_payload(decode=True).decode(errors='ignore')]: on a
    container [get_payload(decode=True)] is [None] and the call raises.

    The two laws are what the parser guarantees of the messages it
    builds: a container has a multipart or message type, never a text
    type, and the payload of a part that is no container decodes. *)
Definition is_text_type (content_type : str) : bool :=
  (Json.str_eqb content_type (lit "text/plain")
   || Json.str_eqb content_type (lit "text/html"))%bool.

Class MessageAPI (Message : Type) : Type :=
  { get_header : Message -> str -> option str;   (* name in msg, msg[name] *)
    is_multipart : Message -> bool;
    walk : Message -> list Message;
    get_content_type : Message -> str;
    get_filename : Message -> result (option str);
    payload_text : Message -> result str;
    container_type :
      forall m : Message,
        is_multipart m = true -> is_text_type (get_content_type m) = false;
    leaf_payload :
      forall m : Message,
        is_multipart m = false -> exists t : str, payload_text m = Ok t }.

(** A message as a tree of MIME parts: a leaf with its content type and
    its decoded payload, or a multipart container with the subtype of its
    [multipart/...] type; both with the outcome of reading the filename. *)
#[warnings="-register-all"]
Inductive Mime : Type :=
| Leaf (headers : list (str * str)) (content_type : str)
       (filename : result (option str)) (decoded : str)
| Multipart (headers : list (str * str)) (subtype : str)
            (filename : result (option str)) (parts : list Mime).

Module MimeTree.

Definition part_headers (m : Mime) : list (str * str) :=
  match m with
  | Leaf h _ _ _ => h
  | Multipart h _ _ _ => h
  end.

(** Header names compare without regard to case; the first field wins. *)
Fixpoint find_header (name : str) (h : list (str * str)) : option str :=
  match h with
  | [] => None
  | (k, v) :: h' =>
      if Json.str_eqb (PyStr.lower k) (PyStr.lower name) then Some v
      else find_header name h'
  end.

(** [msg.walk()]: the message, then its parts, depth first. *)
Fixpoint walk_tree (m : Mime) : list Mime :=
  m :: match m with
       | Leaf _ _ _ _ => []
       | Multipart _ _ _ ps => flat_map walk_tree ps
       end.

Definition is_container (m : Mime) : bool :=
  match m with Leaf _ _ _ _ => false | Multipart _ _ _ _ => true end.

Definition content_type_of (m : Mime) : str :=
  match m with
  | Leaf _ c _ _ => c
  | Multipart _ subtype _ _ => lit "multipart/" ++ subtype
  end.

Definition filename_of (m : Mime) : result (option str) :=
  match m with
  | Leaf _ _ f _ => f
  | Multipart _ _ f _ => f
  end.

Definition payload_of (m : Mime) : result str :=
  match m with
  | Leaf _ _ _ t => Ok t
  | Multipart _ _ _ _ =>
      Raise (AttributeError "'NoneType' object has no attribute 'decode'")
  end.

(** The two laws, on trees. *)
Definition container_is_no_text (m : Mime)
  : is_container m = true -> is_text_type (content_type_of m) = false :=
  match m with
  | Leaf _ _ _ _ => fun H => False_ind _ (Bool.diff_false_true H)
  | Multipart _ subtype _ _ =>
      fun _ => f_equal2 orb (Bool.andb_false_r _) (Bool.andb_false_r _)
  end.

Definition leaf_decodes (m : Mime)
  : is_container m = false -> exists t : str, payload_of m = Ok t :=
  match m with
  | Leaf _ _ _ t => fun _ => ex_intro _ t eq_refl
  | Multipart _ _ _ _ => fun H => False_ind _ (Bool.diff_true_false H)
  end.

End MimeTree.

#[global] Instance mime_api : MessageAPI Mime :=
  {| get_header := fun m name =>
       MimeTree.find_header name (MimeTree.part_headers m);
     is_multipart := MimeTree.is_container;
     walk := MimeTree.walk_tree;
     get_content_type := MimeTree.content_type_of;
     get_filename := MimeTree.filename_of;
     payload_text := MimeTree.payload_of;
     container_type := MimeTree.container_is_no_text;
     leaf_payload := MimeTree.leaf_decodes |}.


(** ** utils.py *)

(** [ParsedEmail]: the dict [parse_email] returns. *)
Record ParsedEmail : Type :=
  { headers : list (str * str);
    body : str;
    attachments : list str;
    links : list str }.

Module Utils.

(** The shape of the two header patterns, [name\s*(.+)]. *)
Definition header_pattern (name : string) : Re.regex :=
  Re.Seq [Re.Text name; Re.Star true (Re.Single Re.ASpace);
          Re.Group 1 (Re.Plus Re.Dot)].

Definition from_pattern : Re.regex :=
  Re.Seq [Re.Text "From:"; Re.Star true (Re.Single Re.ASpace);
          Re.Group 1 (Re.Plus Re.Dot)].

Definition subject_pattern : Re.regex :=
  Re.Seq [Re.Text "Subject:"; Re.Star true (Re.Single Re.ASpace);
          Re.Group 1 (Re.Plus Re.Dot)].

(** The same pattern as in [PhishingDetector.extract_urls]. *)
Definition url_pattern : Re.regex := Detector.url_pattern.

Definition extract_metadata (raw_email : str) : EmailMetadata :=
  let from_match := Re.search Re.I from_pattern raw_email in
  let subject_match := Re.search Re.I subject_pattern raw_email in
  {| md_from :=
       match from_match with
       | Some m => PyStr.strip (Re.group_of 1 m)
       | None => lit "Unknown"
       end;
     md_subject :=
       match subject_match with
       | Some m => PyStr.strip (Re.group_of 1 m)
       | None => lit "No Subject"
       end;
     md_has_links :=
       match Re.search Re.no_flags url_pattern raw_email with
       | Some _ => true
       | None => false
       end;
     md_has_attachments :=
       PyStr.contains (lit "Content-Disposition: attachment") raw_email;
     md_date := None |}.

Definition extract_links (text : str) : list str :=
  Re.findall Re.no_flags url_pattern text.

(** An opening tag with its attributes, the shortest content, the
    closing tag. *)
Definition block_pattern (tag : string) : Re.regex :=
  Re.Seq [Re.chr "<"; Re.Text tag; Re.Star true (Re.NoneOf [Re.AChr ">"]);
          Re.chr ">"; Re.Star false Re.Dot;
          Re.Text "</"; Re.Text tag; Re.chr ">"].

Definition tag_pattern : Re.regex :=
  Re.Seq [Re.chr "<"; Re.Plus (Re.NoneOf [Re.AChr ">"]); Re.chr ">"].

Definition spaces_pattern : Re.regex := Re.Plus (Re.Single Re.ASpace).

Definition header_names : list str :=
  map lit [ "From"; "To"; "Subject"; "Date"; "Return-Path";
            "Received"; "Message-ID"; "Content-Type" ]%string.

(** The two lists local to [calculate_risk_score]. *)
Definition content_keywords : list str :=
  map lit [ "urgent"; "verify"; "suspended"; "click"; "password" ]%string.

Definition suspicious_domains : list str :=
  map lit [ ".xyz"; ".top"; ".tk"; ".ml" ]%string.

(** The three steps of [calculate_risk_score], each on the running
    score. *)
Definition calculate_risk_score (indicators : Indicators) : Z :=
  let score := 0%Z in
  let score :=
    fold_left
      (fun score keyword =>
         if PyStr.contains keyword
                           (PyStr.lower (get_or (ind_content indicators) []))
         then (score + 10)%Z else score)
      content_keywords score in
  let score :=
    fold_left
      (fun score url =>
         if existsb (fun domain => PyStr.contains domain url)
                    suspicious_domains
         then (score + 20)%Z else score)
      (get_or (ind_urls indicators) []) score in
  let score :=
    if PyStr.contains (lit "mismatch")
                      (get_or (ind_sender_analysis indicators) [])
    then (score + 30)%Z else score in
  Z.min score 100.

Section Platform.
(** [html.unescape], the entity table of the standard library. *)
Variable html_unescape : str -> str.

(** No call of the body raises in the model, so the bare [except] of
    the source is never entered. *)
Definition html_to_text (html_content : str) : str :=
  let html_content := Re.sub Re.S_ (block_pattern "script") [] html_content in
  let html_content := Re.sub Re.S_ (block_pattern "style") [] html_content in
  let text := html_unescape html_content in
  let text := Re.sub Re.no_flags tag_pattern (lit " ") text in
  let text := Re.sub Re.no_flags spaces_pattern (lit " ") text in
  PyStr.strip text.

Context {Message : Type} {API : MessageAPI Message}.
(** [email.message_from_string] *)
Variable message_from_string : str -> result Message.

(** The dict [parsed['headers']] after the loop over the allow-list. *)
Definition collect_headers (msg : Message) : list (str * str) :=
  flat_map (fun header =>
              match get_header msg header with
              | Some v => [(header, v)]
              | None => []
              end)
           header_names.

(** [part.get_filename()] as a condition: [None] and the empty string
    are both false. *)
Definition truthy_filename (part : Message) : result (option str) :=
  filename <- get_filename part ;;
  Ok match filename with
     | Some (c :: f) => Some (c :: f)
     | _ => None
     end.

(** One turn of the loop over [msg.walk()], on the pair of
    [parsed['body']] and [parsed['attachments']]. *)
Definition visit_part (st : str * list str) (part : Message)
  : result (str * list str) :=
  let (body, attachments) := st in
  let content_type := get_content_type part in
  if Json.str_eqb content_type (lit "text/plain") then
    t <- payload_text part ;;
    Ok (body ++ t, attachments)
  else if Json.str_eqb content_type (lit "text/html") then
    html_content <- payload_text part ;;
    Ok (body ++ html_to_text html_content, attachments)
  else
    filename <- truthy_filename part ;;
    match filename with
    | Some f => Ok (body, attachments ++ [f])
    | None => Ok (body, attachments)
    end.

Fixpoint visit_parts (st : str * list str) (ps : list Message)
  : result (str * list str) :=
  match ps with
  | [] => Ok st
  | p :: ps' => st' <- visit_part st p ;; visit_parts st' ps'
  end.

(** The statements of the [try] after the message is parsed. *)
Definition parse_message (msg : Message) : result ParsedEmail :=
  let hdrs := collect_headers msg in
  st <- (if is_multipart msg
         then visit_parts ([], []) (walk msg)
         else t <- payload_text msg ;; Ok (t, [])) ;;
  Ok {| headers := hdrs;
        body := fst st;
        attachments := snd st;
        links := extract_links (fst st) |}.

(** The body of the [try]. *)
Definition parse_attempt (raw_email : str) : result ParsedEmail :=
  msg <- message_from_string raw_email ;;
  parse_message msg.

(** [print] in the handler writes to the console only. *)
Definition parse_email (raw_email : str) : ParsedEmail :=
  match parse_attempt raw_email with
  | Ok parsed => parsed
  | Raise e =>
      {| body := raw_email; headers := []; attachments := [];
         links := [] |}
  end.
End Platform.

End Utils.


(** ** The statements of the specification

    Definitions that follow the words of the specification; Part II compares
    the program with them. *)

Module Spec.

(** The threshold table: HIGH above 70, MEDIUM above 30 and up to 70, LOW
    up to 30. *)
Definition level_matches (score : Z) (level : str) : Prop :=
  (level = lit "HIGH" <-> score > 70)%Z
  /\ (level = lit "MEDIUM" <-> 30 < score <= 70)%Z
  /\ (level = lit "LOW" <-> score <= 30)%Z.

(** A result whose two risk fields agree with the table. *)
Definition consistent (r : AnalysisResult) : Prop :=
  exists score level,
    Json.get "risk_score" r = Some (JInt score)
    /\ Json.get "risk_level" r = Some (JStr level)
    /\ level_matches score level.

(** The number of the nine keywords that occur in [content] when case is
    disregarded. *)
Definition keyword_matches (content : str) : Z :=
  Z.of_nat
    (length
       (filter (fun keyword =>
                  PyStr.contains (PyStr.lower keyword) (PyStr.lower content))
               Detector.phishing_keywords)).

(** The number of findings flagged for their TLD or for an IP address. *)
Definition suspicious_urls (findings : list UrlFinding) : Z :=
  Z.of_nat
    (length
       (filter (fun f => (suspicious_tld f || has_ip_address f)%bool)
               findings)).

Definition content_score_component (keyword_matches : Z) : Z :=
  Z.min (keyword_matches * 15) 60.

Definition url_score_component (suspicious_urls : Z) : Z :=
  Z.min (suspicious_urls * 20) 40.

Definition risk_score (keyword_matches suspicious_urls : Z) : Z :=
  Z.min (content_score_component keyword_matches
         + url_score_component suspicious_urls) 100.

(** The two fixed-format strings of [indicators_found]. *)
Definition indicators (keyword_matches suspicious_urls : Z) : json :=
  JArr [ JStr (PyStr.str_of_int keyword_matches ++ lit " phishing keywords");
         JStr (PyStr.str_of_int suspicious_urls ++ lit " suspicious URLs") ].

(** A risk-score phrase: the word risk in any case, an underscore or a
    whitespace, the word score in any case, then colons and whitespace. *)
Definition risk_phrase (p : str) : Prop :=
  exists (w1 : str) (sep : ascii) (w2 seps : str),
    p = w1 ++ [sep] ++ w2 ++ seps
    /\ PyStr.lower w1 = lit "risk"
    /\ (sep = "_"%char \/ PyStr.isspace sep = true)
    /\ PyStr.lower w2 = lit "score"
    /\ forallb (fun c => (PyStr.eqb_char c ":" || PyStr.isspace c)%bool) seps
       = true.

(** [s] does not begin with a digit. *)
Definition no_digit_ahead (s : str) : Prop :=
  match s with
  | c :: _ => PyStr.isdigit c = false
  | [] => True
  end.

(** [text] states a risk score: it holds a risk-score phrase with a digit
    after it. *)
Definition states_risk_score (text : str) : Prop :=
  exists (pre phrase : str) (d : ascii) (post : str),
    text = pre ++ phrase ++ d :: post
    /\ risk_phrase phrase
    /\ PyStr.isdigit d = true.

(** [s] begins with a risk-score phrase and a digit. *)
Definition states_risk_score_at (s : str) : Prop :=
  exists (phrase : str) (d : ascii) (post : str),
    s = phrase ++ d :: post
    /\ risk_phrase phrase
    /\ PyStr.isdigit d = true.

(** No risk-score phrase with a digit after it begins inside [pre], when
    [pre] is followed by [rest]. *)
Definition no_risk_score_begins_in (pre rest : str) : Prop :=
  forall (pre1 : str) (c : ascii) (pre2 : str),
    pre = pre1 ++ c :: pre2 ->
    ~ states_risk_score_at ((c :: pre2) ++ rest).

(** [digits] is the number of the first risk score [text] states: the
    whole run of digits after the first risk-score phrase that a digit
    follows. *)
Definition first_risk_score (text digits : str) : Prop :=
  exists pre phrase post : str,
    text = pre ++ phrase ++ digits ++ post
    /\ risk_phrase phrase
    /\ digits <> []
    /\ forallb PyStr.isdigit digits = true
    /\ no_digit_ahead post
    /\ no_risk_score_begins_in pre (phrase ++ digits ++ post).

(** No match of [r] begins inside [pre], when [pre] is followed by
    [rest]. *)
Definition none_begins_in (fl : Re.flags) (r : Re.regex) (pre rest : str)
  : Prop :=
  forall (pre1 : str) (c : ascii) (pre2 m post : str),
    pre = pre1 ++ c :: pre2 ->
    (c :: pre2) ++ rest = m ++ post ->
    ~ Re.matches fl r m.

(** [s] holds an opening brace with a closing brace somewhere after it. *)
Definition has_brace_pair (s : str) : Prop :=
  exists a b c : str, s = a ++ "{"%char :: b ++ "}"%char :: c.

(** [s] is at the end of a line: nothing follows, or a line feed does. *)
Definition at_line_end (s : str) : Prop :=
  match s with
  | c :: _ => c = LF
  | [] => True
  end.

(** [value] is the trimmed capture of the first match of a header pattern
    [name\s*(.+)] in [raw], case disregarded: the name, a run of
    whitespace, then a non-empty capture that runs to the end of its line;
    no match of [pattern] begins before it. *)
Definition header_capture (name : string) (pattern : Re.regex)
           (raw value : str) : Prop :=
  exists pre head ws capture post : str,
    raw = pre ++ head ++ ws ++ capture ++ post
    /\ PyStr.lower head = PyStr.lower (lit name)
    /\ forallb PyStr.isspace ws = true
    /\ capture <> []
    /\ forallb (fun c => negb (PyStr.eqb_char c LF)) capture = true
    /\ at_line_end post
    /\ none_begins_in Re.I pattern pre (head ++ ws ++ capture ++ post)
    /\ value = PyStr.strip capture.

(** The filenames [parse_email] collects from the parts of a multipart
    message: those of the parts that are neither text/plain nor text/html
    and have a non-empty filename, in the order of the walk. *)
Definition collected_filenames {Message : Type} {API : MessageAPI Message}
           (parts : list Message) : list str :=
  flat_map
    (fun part =>
       if (Json.str_eqb (get_content_type part) (lit "text/plain")
           || Json.str_eqb (get_content_type part) (lit "text/html"))%bool
       then []
       else match get_filename part with
            | Ok (Some (c :: f)) => [c :: f]
            | _ => []
            end)
    parts.

(** The result of the recovery: the raw input as body, nothing else. *)
Definition raw_only (raw_email : str) : ParsedEmail :=
  {| headers := []; body := raw_email; attachments := []; links := [] |}.

(** [k] occurs in [s] when case is disregarded: a piece of [s] lowers to
    [k]. *)
Definition occurs_ci (k s : str) : Prop :=
  exists pre m post : str, s = pre ++ m ++ post /\ PyStr.lower m = k.

(** The text a part of a multipart message adds to the body: its decoded
    payload when it is text/plain, the conversion of its payload when it is
    text/html, nothing otherwise. *)
Definition part_text (html_unescape : str -> str) {Message : Type}
           {API : MessageAPI Message} (part : Message) : str :=
  let decoded :=
    match payload_text part with
    | Ok t => t
    | Raise _ => []
    end in
  if Json.str_eqb (get_content_type part) (lit "text/plain") then decoded
  else if Json.str_eqb (get_content_type part) (lit "text/html")
       then Utils.html_to_text html_unescape decoded
       else [].

(** A non-empty run of digits, and four of them separated by dots: no
    bound is put on the numbers they write. *)
Definition digit_run (a : str) : Prop :=
  a <> [] /\ forallb PyStr.isdigit a = true.

Definition dotted_quad (m : str) : Prop :=
  exists a b c d : str,
    m = a ++ lit "." ++ b ++ lit "." ++ c ++ lit "." ++ d
    /\ digit_run a /\ digit_run b /\ digit_run c /\ digit_run d.


(** The only whitespace of [out] is the space, and no two whitespace
    characters are adjacent. *)
Definition single_spaced (out : str) : Prop :=
  (forall c : ascii, In c out -> PyStr.isspace c = true -> c = " "%char)
  /\ (forall (a : str) (c1 c2 : ascii) (b : str),
         out = a ++ c1 :: c2 :: b ->
         PyStr.isspace c1 = true -> PyStr.isspace c2 = false).

(** No whitespace character is at the head of [s]. *)
Definition no_space_ahead (s : str) : Prop :=
  match s with
  | c :: _ => PyStr.isspace c = false
  | [] => True
  end.



(** No whitespace character is at the end of [s]. *)
Definition no_space_at_end (s : str) : Prop :=
  forall (init : str) (c : ascii), s = init ++ [c] -> PyStr.isspace c = false.

(** [value] is [s] trimmed: [s] without the whitespace at its two ends. *)
Definition trimmed (s value : str) : Prop :=
  exists l r : str,
    s = l ++ value ++ r
    /\ forallb PyStr.isspace l = true
    /\ forallb PyStr.isspace r = true
    /\ no_space_ahead value
    /\ no_space_at_end value.

(** The first place where [name] occurs in [raw], case disregarded:
    [raw] is [pre], the occurrence [head], and [after]; no occurrence
    begins before [head]. *)
Definition first_occurrence_ci (name raw pre head after : str) : Prop :=
  raw = pre ++ head ++ after
  /\ PyStr.lower head = name
  /\ forall a h b : str,
       raw = a ++ h ++ b -> PyStr.lower h = name ->
       (length pre <= length a)%nat.

(** [after], the text that follows a header name, holds line feeds
    only: the header pattern finds nothing to capture. *)
Definition only_line_feeds (after : str) : Prop :=
  forall c : ascii, In c after -> c = LF.

(** The value the header pattern reads in [after], the text that follows
    a header name: it skips all the whitespace there is, line feeds
    included, takes what is left of that line, and trims it.  When only
    whitespace follows the name, the value is empty. *)
Definition header_value (after value : str) : Prop :=
  exists ws line rest : str,
    after = ws ++ line ++ rest
    /\ forallb PyStr.isspace ws = true
    /\ no_space_ahead (line ++ rest)
    /\ ~ In LF line
    /\ at_line_end rest
    /\ trimmed line value.

(** [raw] holds a URL: one of the three prefixes and a URL character
    after it. *)
Definition holds_url (raw : str) : Prop :=
  exists (pre prefix : str) (c : ascii) (post : str),
    raw = pre ++ prefix ++ c :: post
    /\ In prefix (map lit ["http://"; "https://"; "www."]%string)
    /\ PyStr.isspace c = false
    /\ c <> "<"%char /\ c <> ">"%char /\ c <> dq.

(** The characters of a URL scheme. *)
Definition scheme_chars : str :=
  lit "abcdefghijklmnopqrstuvwxyzABCDEFGHIJKLMNOPQRSTUVWXYZ0123456789+-.".

(** [url] reads [s://t] with [s] made of scheme characters only. *)
Definition has_scheme_prefix (url : str) : Prop :=
  exists s t : str,
    url = s ++ lit "://" ++ t
    /\ forall c : ascii, In c s -> In c scheme_chars.

End Spec.

(** ** Sample inputs *)

Definition sample_text : str :=
  lit "Visit http://secure-login-bank.xyz/verify now or http://192.168.1.1/login".

Definition unmatched_bracket : str := lit "http://[".

(** A URL whose bracketed host is no IP address, and a platform that
    says so, as recent versions of [urllib.parse] do. *)
Definition bracketed_word : str := lit "http://[abc]/".

Definition strict_hosts (netloc : str) : option string :=
  if Json.str_eqb netloc (lit "[abc]")
  then Some "'abc' does not appear to be an IPv4 or IPv6 address"%string
  else None.

Definition sample_metadata : EmailMetadata :=
  {| md_from := lit "Unknown"; md_subject := lit "No Subject";
     md_has_links := true; md_has_attachments := false; md_date := None |}.

Definition one_keyword : str := lit "urgent".
Definition two_keywords_one_ip : str :=
  lit "urgent: verify at http://1.2.3.4/ now".

(** A JSON string literal for [s]: the quote and the backslash escaped. *)
Definition json_string (s : str) : str :=
  dq :: flat_map (fun c =>
                    if (Ascii.eqb c dq || Ascii.eqb c "\")%bool
                    then ["\"%char; c] else [c]) s
     ++ [dq].

(** The body of a chat completion whose message content is [content]. *)
Definition chat_body (content : str) : str :=
  lit "{" ++ quoted "choices" ++ lit ": [{" ++ quoted "message" ++ lit ": {"
  ++ quoted "content" ++ lit ": " ++ json_string content ++ lit "}}]}".

(** A provider that answers every request with [content]. *)
Definition answering (content : str) : Request -> result Response :=
  fun _ => Ok {| status_code := 200; text := chat_body content |}.

(** A provider that cannot be reached. *)
Definition unreachable : Request -> result Response :=
  fun _ => Raise (RequestException "Connection refused").

Definition sample_key : str := lit "sk-test".

(** An answer whose two risk fields disagree: a score of 10, level HIGH. *)
Definition inconsistent_answer : str :=
  lit "{" ++ quoted "risk_score" ++ lit ": 10, " ++ quoted "risk_level"
  ++ lit ": " ++ quoted "HIGH" ++ lit "}".

Definition inconsistent_result : AnalysisResult :=
  JObj [ (lit "risk_score", JInt 10); (lit "risk_level", JStr (lit "HIGH")) ].

(** Prose without a JSON object that states a risk score. *)
Definition prose_answer : str := lit "Overall risk score: 82 (high).".

(** Prose that states a risk score of 4301 digits. *)
Definition long_score_answer : str :=
  lit "risk score: " ++ repeat "1"%char 4301.

(** A URL of the www form with a scheme-like prefix before [://]. *)
Definition www_with_authority : str := lit "www.a://b.xyz".

Definition www_plain : str := lit "www.example.xyz".

(** A URL of the www form whose query holds a second URL. *)
Definition www_with_query : str := lit "www.x.com/?u=http://evil.xyz".

(** The message of the specification's metadata example. *)
Definition plain_message : str :=
  lit "From: a@b.com" ++ [LF] ++ lit "Subject: Test" ++ [LF; LF]
  ++ lit "No links here".

(** A message whose From: value stands two lines below the name, with
    spaces around it, and whose Subject: is followed by a line feed and
    nothing else. *)
Definition folded_message : str :=
  lit "FROM: " ++ [LF; LF] ++ lit " foo  " ++ [LF] ++ lit "subject:" ++ [LF].

(** The message the parser builds for a multipart/mixed mail with a text
    body and two attachments, [notes.txt] of type text/plain and
    [invoice.pdf] of type application/pdf:
<<
    Content-Type: multipart/mixed; boundary=B

    --B
    Content-Type: text/plain

    hello
    --B
    Content-Type: text/plain
    Content-Disposition: attachment; filename=notes.txt

    attached
    --B
    Content-Type: application/pdf
    Content-Disposition: attachment; filename=invoice.pdf

    pdf
    --B--
>> *)
Definition notes_part : Mime :=
  Leaf [ (lit "Content-Type", lit "text/plain");
         (lit "Content-Disposition", lit "attachment; filename=notes.txt") ]
       (lit "text/plain") (Ok (Some (lit "notes.txt"))) (lit "attached").

Definition mail_with_attachments : Mime :=
  Multipart
    [ (lit "Content-Type", lit "multipart/mixed; boundary=B") ]
    (lit "mixed") (Ok None)
    [ Leaf [ (lit "Content-Type", lit "text/plain") ]
           (lit "text/plain") (Ok None) (lit "hello");
      notes_part;
      Leaf [ (lit "Content-Type", lit "application/pdf");
             (lit "Content-Disposition",
               lit "attachment; filename=invoice.pdf") ]
           (lit "application/pdf") (Ok (Some (lit "invoice.pdf")))
           (lit "pdf") ].

(** A mail that is a single attachment, not multipart: the two header
    lines of the last part above, an empty line, and the line [pdf]. *)
Definition single_attachment : Mime :=
  Leaf [ (lit "Content-Type", lit "application/pdf");
         (lit "Content-Disposition", lit "attachment; filename=invoice.pdf") ]
       (lit "application/pdf") (Ok (Some (lit "invoice.pdf")))
       (lit "pdf" ++ [LF]).

(** The message the parser builds for a multipart/mixed mail with a text
    body and one attachment whose filename parameter names the charset
    [undefined], a codec that refuses every input:
<<
    Content-Type: multipart/mixed; boundary=B

    --B
    Content-Type: text/plain

    hello
    --B
    Content-Type: application/pdf
    Content-Disposition: attachment; filename*=undefined''a.pdf

    pdf
    --B--
>> *)
Definition undecodable_filename : exn :=
  UnicodeError "decoding with 'undefined' codec failed (UnicodeError: undefined encoding)".

Definition unreadable_part : Mime :=
  Leaf [ (lit "Content-Type", lit "application/pdf");
         (lit "Content-Disposition",
           lit "attachment; filename*=undefined''a.pdf") ]
       (lit "application/pdf") (Raise undecodable_filename) (lit "pdf").

Definition mail_with_unreadable_filename : Mime :=
  Multipart
    [ (lit "Content-Type", lit "multipart/mixed; boundary=B") ]
    (lit "mixed") (Ok None)
    [ Leaf [ (lit "Content-Type", lit "text/plain") ]
           (lit "text/plain") (Ok None) (lit "hello");
      unreadable_part ].

Definition raw_sample : str := lit "raw text of the mail".

(** An answer with two JSON objects and prose between them. *)
Definition two_objects_answer : str :=
  lit "First {" ++ quoted "risk_score" ++ lit ": 90} then {"
  ++ quoted "risk_score" ++ lit ": 10}. Overall risk score: 90".

(** A long content, and the same content with a different tail after its
    first 2000 characters. *)
Definition long_content : str := repeat "a"%char 2000 ++ lit " urgent".

Definition long_content' : str := repeat "a"%char 2000 ++ lit " verify now".

(** A mail that is a single HTML document, not multipart. *)
Definition html_mail : Mime :=
  Leaf [ (lit "Content-Type", lit "text/html");
         (lit "Subject", lit "Offer") ]
       (lit "text/html") (Ok None)
       (lit "<p>Visit <b>www.example.com</b></p>").

(** A suspicious host with an explicit port. *)
Definition host_with_port : str := lit "evil.xyz:8080".

(* ================================================================== *)
(** * Part II: theorems *)
(* ================================================================== *)

(** ** Python strings *)

Section PyStrFacts.

Lemma eqb_char_eq (a b : ascii) : PyStr.eqb_char a b = true <-> a = b.
Proof. unfold PyStr.eqb_char. apply Ascii.eqb_eq. Qed.

Lemma eqb_char_refl (a : ascii) : PyStr.eqb_char a a = true.
Proof. apply eqb_char_eq. reflexivity. Qed.

Lemma startswith_app (p t : str) : PyStr.startswith p (p ++ t) = true.
Proof.
  induction p as [|a p IH]; simpl; [reflexivity|].
  rewrite eqb_char_refl. exact IH.
Qed.

Lemma startswith_inv (p s : str) :
  PyStr.startswith p s = true -> exists t, s = p ++ t.
Proof.
  revert s. induction p as [|a p IH]; intros s H.
  - exists s. reflexivity.
  - destruct s as [|b s]; simpl in H; [discriminate|].
    apply andb_true_iff in H. destruct H as [Hab Hps].
    apply eqb_char_eq in Hab. subst b.
    destruct (IH _ Hps) as [t ->]. exists t. reflexivity.
Qed.

Lemma startswith_iff (p s : str) :
  PyStr.startswith p s = true <-> exists t, s = p ++ t.
Proof.
  split; [apply startswith_inv|].
  intros [t ->]. apply startswith_app.
Qed.

Lemma contains_cons (sub s : str) (c : ascii) :
  PyStr.contains sub (c :: s)
  = (PyStr.startswith sub (c :: s) || PyStr.contains sub s)%bool.
Proof. reflexivity. Qed.

Lemma contains_iff (sub s : str) :
  PyStr.contains sub s = true <-> exists pre post, s = pre ++ sub ++ post.
Proof.
  split.
  - induction s as [|c s IH]; simpl; intros H.
    + rewrite orb_false_r in H. apply startswith_inv in H.
      destruct H as [t Ht]. exists [], t. exact Ht.
    + apply orb_true_iff in H. destruct H as [H|H].
      * apply startswith_inv in H. destruct H as [t Ht].
        exists [], t. exact Ht.
      * destruct (IH H) as (pre & post & ->).
        exists (c :: pre), post. reflexivity.
  - intros (pre & post & ->).
    induction pre as [|c pre IH].
    + simpl. destruct (sub ++ post) eqn:E.
      * simpl. rewrite <- E, startswith_app. reflexivity.
      * rewrite contains_cons, <- E, startswith_app. reflexivity.
    + change ((c :: pre) ++ sub ++ post) with (c :: (pre ++ sub ++ post)).
      rewrite contains_cons, IH. apply orb_true_r.
Qed.

Lemma str_eqb_eq (a b : str) : Json.str_eqb a b = true <-> a = b.
Proof.
  unfold Json.str_eqb. split.
  - intros H. apply andb_true_iff in H. destruct H as [Hl Hs].
    apply Nat.eqb_eq in Hl. apply startswith_inv in Hs.
    destruct Hs as [t ->]. rewrite length_app in Hl.
    destruct t; [symmetry; apply app_nil_r|simpl in Hl; lia].
  - intros ->. rewrite Nat.eqb_refl. simpl.
    rewrite <- (app_nil_r b) at 2. apply startswith_app.
Qed.

End PyStrFacts.

(** ** The matcher and the language of a pattern *)

Section ReFacts.

Variable fl : Re.flags.

Lemma orelse_some (X : Type) (a : option X) (b : unit -> option X) (x : X) :
  Re.orelse a b = Some x -> a = Some x \/ (a = None /\ b tt = Some x).
Proof. destruct a; simpl; intros H; [left|right]; auto. Qed.

Lemma orelse_not_none_l (X : Type) (a : option X) (b : unit -> option X) :
  a <> None -> Re.orelse a b <> None.
Proof. destruct a; simpl; congruence. Qed.

Lemma orelse_not_none_r (X : Type) (a : option X) (b : unit -> option X) :
  b tt <> None -> Re.orelse a b <> None.
Proof. destruct a; simpl; congruence. Qed.

(** A repetition hands its continuation a suffix, after a run of accepted
    characters. *)
Lemma star_sound (X : Type) (greedy : bool) (cs : Re.cset) (s : str)
      (g : Re.groups) (k : Re.cont X) (x : X) :
  Re.star fl greedy cs s g k = Some x ->
  exists s1 s2,
    s = s1 ++ s2 /\ forallb (Re.accepts fl cs) s1 = true /\ k s2 g = Some x.
Proof.
  induction s as [|c s IH]; simpl; intros H.
  - exists [], []. auto.
  - destruct (Re.accepts fl cs c) eqn:Hc.
    + assert (Hcases :
                Re.star fl greedy cs s g k = Some x \/ k (c :: s) g = Some x).
      { destruct greedy; apply orelse_some in H; tauto. }
      destruct Hcases as [Hs|Hk].
      * destruct (IH Hs) as (s1 & s2 & -> & Hall & Hk).
        exists (c :: s1), s2. simpl. rewrite Hc, Hall. auto.
      * exists [], (c :: s). auto.
    + exists [], (c :: s). auto.
Qed.

Lemma star_complete (X : Type) (greedy : bool) (cs : Re.cset) (s1 s2 : str)
      (g : Re.groups) (k : Re.cont X) :
  forallb (Re.accepts fl cs) s1 = true ->
  k s2 g <> None ->
  Re.star fl greedy cs (s1 ++ s2) g k <> None.
Proof.
  intros Hall Hk. induction s1 as [|c s1 IH]; simpl in *.
  - destruct s2 as [|c s2]; simpl; [exact Hk|].
    destruct (Re.accepts fl cs c); [|exact Hk].
    destruct greedy;
      [apply orelse_not_none_r|apply orelse_not_none_l]; exact Hk.
  - apply andb_true_iff in Hall. destruct Hall as [Hc Hall].
    rewrite Hc.
    destruct greedy;
      [apply orelse_not_none_l|apply orelse_not_none_r]; exact (IH Hall).
Qed.

(** Soundness: whatever the matcher hands on has a match before it. *)
Lemma run_sound (X : Type) (r : Re.regex) :
  forall (s : str) (g : Re.groups) (k : Re.cont X) (x : X),
    Re.run fl r s g k = Some x ->
    exists s1 s2 g',
      s = s1 ++ s2 /\ Re.matches fl r s1 /\ k s2 g' = Some x.
Proof.
  induction r as [|cs|r1 IH1 r2 IH2|r1 IH1 r2 IH2|greedy cs|n r1 IH1];
    intros s g k x H; simpl in H.
  - exists [], s, g. split; [reflexivity|]. split; [constructor|exact H].
  - destruct s as [|c s]; [discriminate|].
    destruct (Re.accepts fl cs c) eqn:Hc; [|discriminate].
    exists [c], s, g. split; [reflexivity|].
    split; [constructor; exact Hc|exact H].
  - apply IH1 in H. destruct H as (a & b & g1 & -> & Ha & H).
    apply IH2 in H. destruct H as (c & d & g2 & -> & Hc & H).
    exists (a ++ c), d, g2. rewrite app_assoc.
    split; [reflexivity|]. split; [constructor; assumption|exact H].
  - apply orelse_some in H. destruct H as [H|[_ H]].
    + apply IH1 in H. destruct H as (a & b & g1 & -> & Ha & H).
      exists a, b, g1. split; [reflexivity|].
      split; [apply Re.M_AltL; exact Ha|exact H].
    + apply IH2 in H. destruct H as (a & b & g1 & -> & Ha & H).
      exists a, b, g1. split; [reflexivity|].
      split; [apply Re.M_AltR; exact Ha|exact H].
  - apply star_sound in H. destruct H as (a & b & -> & Ha & H).
    exists a, b, g. split; [reflexivity|].
    split; [constructor; exact Ha|exact H].
  - apply IH1 in H. destruct H as (a & b & g1 & -> & Ha & H).
    eexists a, b, _. split; [reflexivity|].
    split; [constructor; exact Ha|exact H].
Qed.

(** Completeness: a match followed by text the continuation accepts is
    found. *)
Lemma run_complete (X : Type) (r : Re.regex) (s1 : str) :
  Re.matches fl r s1 ->
  forall (s2 : str) (g : Re.groups) (k : Re.cont X),
    (forall g', k s2 g' <> None) ->
    Re.run fl r (s1 ++ s2) g k <> None.
Proof.
  induction 1 as [|cs c Hc|r1 r2 a b Ha IHa Hb IHb|r1 r2 a Ha IHa
                  |r1 r2 a Ha IHa|greedy cs a Ha|n r1 a Ha IHa];
    intros s2 g k Hk; simpl.
  - apply Hk.
  - rewrite Hc. apply Hk.
  - rewrite <- app_assoc. apply IHa. intros g'. apply IHb. exact Hk.
  - apply orelse_not_none_l. apply IHa. exact Hk.
  - apply orelse_not_none_r. apply IHa. exact Hk.
  - apply star_complete; [exact Ha|apply Hk].
  - apply IHa. intros g'. apply Hk.
Qed.

Lemma firstn_length_app (a b : str) :
  firstn (length (a ++ b) - length b) (a ++ b) = a.
Proof.
  rewrite length_app.
  replace (length a + length b - length b)%nat with (length a) by lia.
  rewrite firstn_app, Nat.sub_diag, firstn_all. simpl. apply app_nil_r.
Qed.

Lemma match_at_sound (r : Re.regex) (s t rest : str) (g : Re.groups) :
  Re.match_at fl r s = Some (t, rest, g) ->
  s = t ++ rest /\ Re.matches fl r t.
Proof.
  unfold Re.match_at. intros H. apply run_sound in H.
  destruct H as (a & b & g' & -> & Ha & H).
  rewrite firstn_length_app in H. inversion H; subst. auto.
Qed.

Lemma match_at_complete (r : Re.regex) (t rest : str) :
  Re.matches fl r t -> Re.match_at fl r (t ++ rest) <> None.
Proof.
  intros H. unfold Re.match_at. apply run_complete; [exact H|].
  intros g'. discriminate.
Qed.

Lemma search_from_sound (r : Re.regex) (s : str) :
  forall (pos : nat) (m : Re.match_),
    Re.search_from fl r pos s = Some m ->
    exists pre post,
      s = pre ++ Re.m_text m ++ post
      /\ Re.matches fl r (Re.m_text m)
      /\ Re.m_start m = (pos + length pre)%nat.
Proof.
  induction s as [|c s IH]; intros pos m H; simpl in H.
  - destruct (Re.match_at fl r []) as [[[t rest] g]|] eqn:E; [|discriminate].
    inversion H; subst; clear H. apply match_at_sound in E.
    destruct E as [E Hm]. exists [], rest. simpl. auto.
  - destruct (Re.match_at fl r (c :: s)) as [[[t rest] g]|] eqn:E.
    + inversion H; subst; clear H. apply match_at_sound in E.
      destruct E as [E Hm]. exists [], rest. simpl. auto.
    + apply IH in H. destruct H as (pre & post & -> & Hm & Hs).
      exists (c :: pre), post. simpl. split; [reflexivity|].
      split; [exact Hm|lia].
Qed.

Lemma search_from_none (r : Re.regex) (s : str) :
  forall pos : nat,
    Re.search_from fl r pos s = None -> ~ Re.occurs fl r s.
Proof.
  induction s as [|c s IH]; intros pos H (pre & m & post & E & Hm);
    simpl in H.
  - destruct pre; [|discriminate]. simpl in E.
    destruct (Re.match_at fl r []) as [[[t rest] g]|] eqn:E1; [discriminate|].
    rewrite E in E1. revert E1. apply match_at_complete. exact Hm.
  - destruct (Re.match_at fl r (c :: s)) as [[[t rest] g]|] eqn:E1;
      [discriminate|].
    destruct pre as [|c' pre].
    + simpl in E. rewrite E in E1. revert E1. apply match_at_complete. exact Hm.
    + inversion E; subst. apply (IH _ H). exists pre, m, post. auto.
Qed.

(** [re.search] answers [None] exactly when no substring is a match. *)
Lemma search_none_iff (r : Re.regex) (s : str) :
  Re.search fl r s = None <-> ~ Re.occurs fl r s.
Proof.
  split; [apply search_from_none|].
  intros Hn. destruct (Re.search fl r s) as [m|] eqn:E; [|reflexivity].
  exfalso. apply Hn. apply search_from_sound in E.
  destruct E as (pre & post & E & Hm & _). exists pre, (Re.m_text m), post.
  auto.
Qed.

Lemma search_some_occurs (r : Re.regex) (s : str) (m : Re.match_) :
  Re.search fl r s = Some m -> Re.occurs fl r s.
Proof.
  intros E. apply search_from_sound in E.
  destruct E as (pre & post & E & Hm & _).
  exists pre, (Re.m_text m), post. auto.
Qed.

(** Every string of [re.findall] is a match of the pattern. *)
Lemma findall_from_sound (r : Re.regex) (u : str) (s : str) :
  forall skip : nat,
    In u (Re.findall_from fl r skip s) -> Re.matches fl r u.
Proof.
  induction s as [|c s IH]; intros skip H.
  - destruct skip; simpl in H; [|contradiction].
    destruct (Re.match_at fl r []) as [[[t rest] g]|] eqn:E;
      [|contradiction].
    destruct H as [<-|[]]. apply match_at_sound in E. tauto.
  - destruct skip; simpl in H; [|exact (IH _ H)].
    destruct (Re.match_at fl r (c :: s)) as [[[t rest] g]|] eqn:E;
      [|exact (IH _ H)].
    destruct H as [<-|H]; [|exact (IH _ H)].
    apply match_at_sound in E. tauto.
Qed.

Lemma findall_sound (r : Re.regex) (u s : str) :
  In u (Re.findall fl r s) -> Re.matches fl r u.
Proof. apply findall_from_sound. Qed.

End ReFacts.

(** ** The result monad *)

Lemma bind_ok (A B : Type) (m : result A) (f : A -> result B) (b : B) :
  bind m f = Ok b -> exists a, m = Ok a /\ f a = Ok b.
Proof. destruct m as [a|e]; simpl; intros H; [eauto|discriminate]. Qed.

Lemma bind_raise (A B : Type) (m : result A) (f : A -> result B) (e : exn) :
  m = Raise e -> bind m f = Raise e.
Proof. intros ->. reflexivity. Qed.

(** ** Counting *)

Lemma sum_ones (A : Type) (l : list A) (acc : Z) :
  fold_left Z.add (map (fun _ => 1%Z) l) acc = (acc + Z.of_nat (length l))%Z.
Proof.
  revert acc. induction l as [|x l IH]; intros acc; simpl length.
  - simpl. lia.
  - simpl fold_left. rewrite IH. lia.
Qed.

Lemma count_if_length (A : Type) (p : A -> bool) (xs : list A) :
  count_if p xs = Z.of_nat (length (filter p xs)).
Proof. unfold count_if. rewrite sum_ones. lia. Qed.

Lemma count_if_nonneg (A : Type) (p : A -> bool) (xs : list A) :
  (0 <= count_if p xs)%Z.
Proof. rewrite count_if_length. lia. Qed.

(** ** The threshold table *)

Lemma level_of_matches (score : Z) :
  Spec.level_matches score (Detector.level_of score).
Proof.
  unfold Spec.level_matches, Detector.level_of.
  destruct (score >? 70)%Z eqn:H70; [|destruct (score >? 30)%Z eqn:H30].
  - apply Z.gtb_lt in H70.
    (split; [|split]); (split; intros E); try reflexivity; try lia;
      discriminate.
  - apply Z.gtb_lt in H30. rewrite Z.gtb_ltb in H70.
    apply Z.ltb_ge in H70.
    (split; [|split]); (split; intros E); try reflexivity; try lia;
      discriminate.
  - rewrite Z.gtb_ltb in H70, H30.
    apply Z.ltb_ge in H70. apply Z.ltb_ge in H30.
    (split; [|split]); (split; intros E); try reflexivity; try lia;
      discriminate.
Qed.

(** ** The heuristic scorer against the formula of the specification *)

Lemma keywords_lowercase (keyword : str) :
  In keyword Detector.phishing_keywords -> PyStr.lower keyword = keyword.
Proof.
  intros H. repeat (destruct H as [<-|H]; [reflexivity|]). contradiction.
Qed.

Lemma keyword_count (content : str) :
  count_if (fun keyword => PyStr.contains keyword (PyStr.lower content))
           Detector.phishing_keywords
  = Spec.keyword_matches content.
Proof.
  rewrite count_if_length. unfold Spec.keyword_matches.
  erewrite filter_ext_in; [reflexivity|].
  intros k Hk. cbv beta. rewrite (keywords_lowercase Hk). reflexivity.
Qed.

Lemma score_below_cap (km su : Z) :
  (Z.min (km * 15) 60 + Z.min (su * 20) 40 <= 100)%Z.
Proof. lia. Qed.

(** Whenever the URL analysis returns, the scorer returns the dict of the
    specification. *)
Lemma fallback_analysis_spec (chk : str -> option string) (content : str)
      (md : EmailMetadata) (findings : list UrlFinding) :
  Detector.extract_urls chk content = Ok findings ->
  let km := Spec.keyword_matches content in
  let su := Spec.suspicious_urls findings in
  Detector._fallback_analysis chk content md
  = Ok (JObj
          [ (lit "risk_score", JInt (Spec.risk_score km su));
            (lit "risk_level",
              JStr (Detector.level_of (Spec.risk_score km su)));
            (lit "indicators_found", Spec.indicators km su);
            (lit "technical_analysis",
              JStr (lit "Basic analysis (AI unavailable)"));
            (lit "recommendations",
              JArr [ JStr (lit "Exercise caution");
                     JStr (lit "Verify sender independently") ]);
            (lit "confidence", JFloat (6 # 10)) ]).
Proof.
  intros Hu km su. unfold Detector._fallback_analysis.
  rewrite Hu. simpl bind. rewrite keyword_count.
  rewrite count_if_length. fold km. fold (Spec.suspicious_urls findings).
  fold su. unfold Spec.risk_score, Spec.content_score_component,
    Spec.url_score_component, Spec.indicators.
  rewrite (Z.min_l _ 100 (score_below_cap km su)).
  reflexivity.
Qed.

Lemma fallback_analysis_raises (chk : str -> option string) (content : str)
      (md : EmailMetadata) (e : exn) :
  Detector.extract_urls chk content = Raise e ->
  Detector._fallback_analysis chk content md = Raise e.
Proof.
  intros H. unfold Detector._fallback_analysis. rewrite H. reflexivity.
Qed.

(** ** The URL analyzer on the text of the specification *)

(** C8.  On the sample text [extract_urls] returns exactly two findings, in
    the order of appearance: the first has [suspicious_tld] true,
    [has_ip_address] false and a [redirect_depth] of 3 (login, verify and
    secure all occur), hence at least 1; the second has [has_ip_address]
    true and [suspicious_tld] false.  This holds whatever the platform's
    validation of bracketed hosts is. *)
Theorem extract_urls_sample :
  forall chk : str -> option string,
  exists first second : UrlFinding,
    Detector.extract_urls chk sample_text = Ok [first; second]
    /\ url first = lit "http://secure-login-bank.xyz/verify"
    /\ suspicious_tld first = true
    /\ has_ip_address first = false
    /\ redirect_depth first = 3%Z
    /\ (redirect_depth first >= 1)%Z
    /\ url second = lit "http://192.168.1.1/login"
    /\ has_ip_address second = true
    /\ suspicious_tld second = false.
Proof.
  intros chk. eexists. eexists.
  split; [vm_compute; reflexivity|].
  repeat split; try reflexivity. simpl. lia.
Qed.

(** ** The heuristic scorer *)

(** C2.  On the content [unmatched_bracket], an http URL whose host opens
    a bracket that is never closed, the URL is extracted and [urlparse]
    raises on it: the heuristic scorer raises [ValueError] where the claim
    has it return a risk score, whatever the platform. *)
Theorem fallback_raises_on_unmatched_bracket :
  forall (chk : str -> option string) (md : EmailMetadata),
    Detector._fallback_analysis chk unmatched_bracket md
    = Raise (ValueError "Invalid IPv6 URL").
Proof. intros chk md. vm_compute. reflexivity. Qed.

Lemma score_monotone (km km' su su' : Z) :
  (km <= km')%Z -> (su <= su')%Z ->
  (Spec.risk_score km su <= Spec.risk_score km' su')%Z.
Proof.
  unfold Spec.risk_score, Spec.content_score_component,
    Spec.url_score_component. lia.
Qed.

Lemma get_risk_score (a b c d e f : json) :
  Json.get "risk_score"
    (JObj [ (lit "risk_score", a); (lit "risk_level", b);
            (lit "indicators_found", c); (lit "technical_analysis", d);
            (lit "recommendations", e); (lit "confidence", f) ]) = Some a.
Proof. reflexivity. Qed.

Lemma get_risk_level (a b c d e f : json) :
  Json.get "risk_level"
    (JObj [ (lit "risk_score", a); (lit "risk_level", b);
            (lit "indicators_found", c); (lit "technical_analysis", d);
            (lit "recommendations", e); (lit "confidence", f) ]) = Some b.
Proof. reflexivity. Qed.

Lemma get_indicators (a b c d e f : json) :
  Json.get "indicators_found"
    (JObj [ (lit "risk_score", a); (lit "risk_level", b);
            (lit "indicators_found", c); (lit "technical_analysis", d);
            (lit "recommendations", e); (lit "confidence", f) ]) = Some c.
Proof. reflexivity. Qed.

Lemma get_confidence (a b c d e f : json) :
  Json.get "confidence"
    (JObj [ (lit "risk_score", a); (lit "risk_level", b);
            (lit "indicators_found", c); (lit "technical_analysis", d);
            (lit "recommendations", e); (lit "confidence", f) ]) = Some f.
Proof. reflexivity. Qed.

(** C9.  Two runs of the heuristic scorer that return carry integer
    scores [s1] and [s2], and with [km] the number of keywords a content
    holds and [su] the number of its suspicious URLs: the scores lie between
    0 and 100 and are ordered as the counts are, so a score never decreases
    when one count grows and the other is fixed.  The keyword share
    saturates at 60: without suspicious URLs the score is 15 a keyword up to
    60, and from four keywords on the score no longer depends on the
    keyword count.  The URL share saturates at 40: without keywords the
    score is 20 a URL up to 40, and from two URLs on the score no longer
    depends on the URL count.  With both shares saturated the score is 100.
    Below the caps one more keyword adds 15 and one more URL adds 20. *)
Theorem fallback_score_monotone :
  forall (chk : str -> option string) (c1 c2 : str) (md1 md2 : EmailMetadata)
         (u1 u2 : list UrlFinding),
    Detector.extract_urls chk c1 = Ok u1 ->
    Detector.extract_urls chk c2 = Ok u2 ->
    exists (r1 r2 : AnalysisResult) (s1 s2 : Z),
      Detector._fallback_analysis chk c1 md1 = Ok r1
      /\ Detector._fallback_analysis chk c2 md2 = Ok r2
      /\ Json.get "risk_score" r1 = Some (JInt s1)
      /\ Json.get "risk_score" r2 = Some (JInt s2)
      /\ (let km1 := Spec.keyword_matches c1 in
          let km2 := Spec.keyword_matches c2 in
          let su1 := Spec.suspicious_urls u1 in
          let su2 := Spec.suspicious_urls u2 in
          (0 <= s1 <= 100)%Z
          /\ ((km1 <= km2)%Z -> (su1 <= su2)%Z -> (s1 <= s2)%Z)
          /\ (su1 = 0%Z -> s1 = Z.min (15 * km1) 60)
          /\ ((4 <= km1)%Z -> (4 <= km2)%Z -> su1 = su2 -> s1 = s2)
          /\ (km1 = 0%Z -> s1 = Z.min (20 * su1) 40)
          /\ ((2 <= su1)%Z -> (2 <= su2)%Z -> km1 = km2 -> s1 = s2)
          /\ ((4 <= km1)%Z -> (2 <= su1)%Z -> s1 = 100%Z)
          /\ ((km1 < 4)%Z -> km2 = (km1 + 1)%Z -> su1 = su2 ->
              s2 = (s1 + 15)%Z)
          /\ ((su1 < 2)%Z -> su2 = (su1 + 1)%Z -> km1 = km2 ->
              s2 = (s1 + 20)%Z)).
Proof.
  intros chk c1 c2 md1 md2 u1 u2 H1 H2.
  eexists. eexists. eexists. eexists.
  split; [apply (fallback_analysis_spec chk c1 md1 H1)|].
  split; [apply (fallback_analysis_spec chk c2 md2 H2)|].
  split; [apply get_risk_score|].
  split; [apply get_risk_score|].
  intros km1 km2 su1 su2.
  assert (Hk1 : (0 <= km1)%Z) by (unfold km1, Spec.keyword_matches; lia).
  assert (Hk2 : (0 <= km2)%Z) by (unfold km2, Spec.keyword_matches; lia).
  assert (Hs1 : (0 <= su1)%Z) by (unfold su1, Spec.suspicious_urls; lia).
  assert (Hs2 : (0 <= su2)%Z) by (unfold su2, Spec.suspicious_urls; lia).
  fold km1 km2 su1 su2.
  clearbody km1 km2 su1 su2.
  unfold Spec.risk_score, Spec.content_score_component,
    Spec.url_score_component.
  repeat split; intros; subst; lia.
Qed.

(** C9 at a text with one keyword and a text with two keywords and a URL
    on an IP address. *)
Lemma fallback_score_monotone_witness :
  exists u1 u2 : list UrlFinding,
    Detector.extract_urls (fun _ => None) one_keyword = Ok u1
    /\ Detector.extract_urls (fun _ => None) two_keywords_one_ip = Ok u2
    /\ exists (r1 r2 : AnalysisResult) (s1 s2 : Z),
         Detector._fallback_analysis (fun _ => None) one_keyword
                                     sample_metadata = Ok r1
         /\ Detector._fallback_analysis (fun _ => None) two_keywords_one_ip
                                        sample_metadata = Ok r2
         /\ Json.get "risk_score" r1 = Some (JInt s1)
         /\ Json.get "risk_score" r2 = Some (JInt s2)
         /\ (let km1 := Spec.keyword_matches one_keyword in
             let km2 := Spec.keyword_matches two_keywords_one_ip in
             let su1 := Spec.suspicious_urls u1 in
             let su2 := Spec.suspicious_urls u2 in
             (0 <= s1 <= 100)%Z
             /\ ((km1 <= km2)%Z -> (su1 <= su2)%Z -> (s1 <= s2)%Z)
             /\ (su1 = 0%Z -> s1 = Z.min (15 * km1) 60)
             /\ ((4 <= km1)%Z -> (4 <= km2)%Z -> su1 = su2 -> s1 = s2)
             /\ (km1 = 0%Z -> s1 = Z.min (20 * su1) 40)
             /\ ((2 <= su1)%Z -> (2 <= su2)%Z -> km1 = km2 -> s1 = s2)
             /\ ((4 <= km1)%Z -> (2 <= su1)%Z -> s1 = 100%Z)
             /\ ((km1 < 4)%Z -> km2 = (km1 + 1)%Z -> su1 = su2 ->
                 s2 = (s1 + 15)%Z)
             /\ ((su1 < 2)%Z -> su2 = (su1 + 1)%Z -> km1 = km2 ->
                 s2 = (s1 + 20)%Z)).
Proof.
  assert (H1 : Detector.extract_urls (fun _ => None) one_keyword = Ok [])
    by (vm_compute; reflexivity).
  assert (H2 : exists u2,
             Detector.extract_urls (fun _ => None) two_keywords_one_ip = Ok u2)
    by (eexists; vm_compute; reflexivity).
  destruct H2 as (u2 & H2).
  exists [], u2.
  split; [exact H1|]. split; [exact H2|].
  exact (fallback_score_monotone (fun _ => None) one_keyword
           two_keywords_one_ip sample_metadata sample_metadata H1 H2).
Defined.

(** ** Consistency of the two risk fields *)

(** [int] returns the number the digits write, and only on a run within
    the limit. *)
Lemma int_ok (s : str) (n : Z) :
  Builtins.int s = Ok n <->
  (length s <= Builtins.int_max_str_digits)%nat /\ n = PyStr.int_of_digits s.
Proof.
  unfold Builtins.int.
  destruct (Nat.leb (length s) Builtins.int_max_str_digits) eqn:E.
  - apply Nat.leb_le in E. split.
    + intros H. inversion H. auto.
    + intros [_ ->]. reflexivity.
  - apply Nat.leb_gt in E. split; [discriminate|]. intros [H _]. lia.
Qed.

Lemma int_raises (s : str) :
  (Builtins.int_max_str_digits < length s)%nat ->
  exists e : exn, Builtins.int s = Raise e.
Proof.
  intros H. unfold Builtins.int.
  destruct (Nat.leb (length s) Builtins.int_max_str_digits) eqn:E.
  - apply Nat.leb_le in E. lia.
  - eauto.
Qed.

(** A dict of the text-scrape parser is the literal of the source around
    the score it read. *)
Lemma parse_text_response_ok (text : str) (r : AnalysisResult) :
  Detector._parse_text_response text = Ok r ->
  exists score : Z,
    match Re.search Re.I Detector.risk_pattern text with
    | Some m => Builtins.int (Re.group_of 1 m) = Ok score
    | None => score = 50%Z
    end
    /\ r = JObj
             [ (lit "risk_score", JInt score);
               (lit "risk_level", JStr (Detector.level_of score));
               (lit "indicators_found",
                 JArr [JStr (lit "AI Analysis Available")]);
               (lit "technical_analysis",
                 JStr (PyStr.slice_to 500 text));
               (lit "recommendations",
                 JArr [JStr (lit "Review full analysis above")]);
               (lit "confidence", JFloat (8 # 10)) ].
Proof.
  unfold Detector._parse_text_response. intros H.
  apply bind_ok in H. destruct H as (score & Hs & H).
  exists score. split; [|inversion H; reflexivity].
  destruct (Re.search Re.I Detector.risk_pattern text);
    [exact Hs|inversion Hs; reflexivity].
Qed.

Lemma parse_text_response_consistent (text : str) (r : AnalysisResult) :
  Detector._parse_text_response text = Ok r -> Spec.consistent r.
Proof.
  intros H. apply parse_text_response_ok in H.
  destruct H as (score & _ & ->).
  eexists. eexists.
  split; [apply get_risk_score|].
  split; [apply get_risk_level|].
  apply level_of_matches.
Qed.

Lemma extract_urls_total_or_raises (chk : str -> option string)
      (content : str) :
  (exists findings, Detector.extract_urls chk content = Ok findings)
  \/ (exists e, Detector.extract_urls chk content = Raise e).
Proof.
  destruct (Detector.extract_urls chk content) as [f|e]; eauto.
Qed.

Lemma fallback_analysis_consistent (chk : str -> option string) (content : str)
      (md : EmailMetadata) (r : AnalysisResult) :
  Detector._fallback_analysis chk content md = Ok r -> Spec.consistent r.
Proof.
  intros H.
  destruct (extract_urls_total_or_raises chk content) as [[f Hf]|[e He]].
  - rewrite (fallback_analysis_spec chk content md Hf) in H.
    inversion H; subst; clear H.
    eexists. eexists.
    split; [apply get_risk_score|].
    split; [apply get_risk_level|].
    apply level_of_matches.
  - rewrite (fallback_analysis_raises chk content md He) in H. discriminate.
Qed.

(** A result of [analyze_with_ai] is the provider's decoded object, the
    dict of the text-scrape parser, or the dict of the heuristic scorer. *)
Lemma analyze_with_ai_paths (key : str) (chk : str -> option string)
      (loads : str -> result json) (post : Request -> result Response)
      (content : str) (md : EmailMetadata) (r : AnalysisResult) :
  Detector.analyze_with_ai key chk loads post content md = Ok r ->
  (exists ai_response m,
      Detector.ai_call key loads post content md = Ok (JStr ai_response)
      /\ Re.search Re.S_ Detector.json_pattern ai_response = Some m
      /\ loads (Re.group_of 0 m) = Ok r)
  \/ (exists ai_response,
         Detector.ai_call key loads post content md = Ok (JStr ai_response)
         /\ Re.search Re.S_ Detector.json_pattern ai_response = None
         /\ Detector._parse_text_response ai_response = Ok r)
  \/ (exists e,
         Detector.ai_attempt key loads post content md = Raise e
         /\ Detector._fallback_analysis chk content md = Ok r).
Proof.
  unfold Detector.analyze_with_ai, try_except.
  destruct (Detector.ai_attempt key loads post content md) as [a|e] eqn:E.
  - intros H. inversion H; subst; clear H.
    unfold Detector.ai_attempt in E. apply bind_ok in E.
    destruct E as (c & Hc & E). unfold Detector.read_ai_response in E.
    apply bind_ok in E. destruct E as (t & Ht & E).
    destruct c; try discriminate. simpl in Ht. inversion Ht; subst; clear Ht.
    destruct (Re.search Re.S_ Detector.json_pattern t) as [m|] eqn:Em.
    + left. exists t, m. auto.
    + right. left. exists t. auto.
  - intros H. right. right. exists e. auto.
Qed.

(** ** More on the matcher: the leftmost match, the longest run *)

Section ReSearch.

Variable fl : Re.flags.

(** [re.search] returns the match at the first position that has one. *)
Lemma search_from_first (r : Re.regex) (s : str) :
  forall (pos : nat) (m : Re.match_),
    Re.search_from fl r pos s = Some m ->
    exists pre rest,
      s = pre ++ Re.m_text m ++ rest
      /\ Re.match_at fl r (Re.m_text m ++ rest)
         = Some (Re.m_text m, rest, Re.m_groups m)
      /\ Spec.none_begins_in fl r pre (Re.m_text m ++ rest).
Proof.
  induction s as [|c s IH]; intros pos m H; simpl in H.
  - destruct (Re.match_at fl r []) as [[[t rest] g]|] eqn:E; [|discriminate].
    inversion H; subst; clear H. simpl.
    destruct (match_at_sound _ _ _ E) as [E' _].
    exists [], rest. simpl. rewrite <- E'. split; [reflexivity|].
    split; [exact E|].
    intros pre1 c pre2 m post Hp. destruct pre1; discriminate.
  - destruct (Re.match_at fl r (c :: s)) as [[[t rest] g]|] eqn:E.
    + inversion H; subst; clear H. simpl.
      destruct (match_at_sound _ _ _ E) as [E' _].
      exists [], rest. simpl. rewrite <- E'. split; [reflexivity|].
      split; [exact E|].
      intros pre1 c' pre2 m post Hp. destruct pre1; discriminate.
    + apply IH in H. destruct H as (pre & rest & -> & Hm & Hn).
      exists (c :: pre), rest. split; [reflexivity|]. split; [exact Hm|].
      intros pre1 c' pre2 m' post Hp Hs Hmatch.
      destruct pre1 as [|x pre1]; simpl in Hp; inversion Hp; subst.
      * simpl in Hs. rewrite Hs in E. revert E.
        apply match_at_complete. exact Hmatch.
      * exact (Hn pre1 c' pre2 m' post eq_refl Hs Hmatch).
Qed.

(** A greedy repetition followed by a continuation that cannot fail takes
    the longest run. *)
Lemma star_greedy_longest (X : Type) (cs : Re.cset) (s : str)
      (g : Re.groups) (k : Re.cont X) :
  (forall s' g', k s' g' <> None) ->
  exists s1 s2,
    s = s1 ++ s2
    /\ forallb (Re.accepts fl cs) s1 = true
    /\ match s2 with
       | c :: _ => Re.accepts fl cs c = false
       | [] => True
       end
    /\ Re.star fl true cs s g k = k s2 g.
Proof.
  intros Hk. induction s as [|c s IH].
  - exists [], []. simpl. auto.
  - simpl. destruct (Re.accepts fl cs c) eqn:Hc.
    + destruct IH as (s1 & s2 & -> & Hall & Hnext & Hs).
      exists (c :: s1), s2. simpl. rewrite Hc, Hall.
      split; [reflexivity|]. split; [reflexivity|]. split; [exact Hnext|].
      rewrite Hs. destruct (k s2 g) eqn:E; [reflexivity|].
      exfalso. exact (Hk _ _ E).
    + exists [], (c :: s). simpl. auto.
Qed.

(** Under IGNORECASE a literal matches the strings that equal it once
    lowered. *)
Lemma matches_lit_lower (p a : str) :
  Re.matches Re.I (Re.Lit p) a -> PyStr.lower a = PyStr.lower p.
Proof.
  revert a. induction p as [|c p IH]; intros a H; simpl in H.
  - inversion H; subst. reflexivity.
  - inversion H as [| |r1 r2 s1 s2 H1 H2| | | |]; subst.
    inversion H1 as [|cs x Hx| | | | |]; subst.
    simpl in Hx. apply eqb_char_eq in Hx.
    simpl. rewrite (IH _ H2). f_equal. symmetry. exact Hx.
Qed.

End ReSearch.

(** ** The risk-score pattern *)

Lemma run_cat_sound (fl : Re.flags) (X : Type) (r1 r2 : Re.regex) (s : str)
      (g : Re.groups) (k : Re.cont X) (x : X) :
  Re.run fl (Re.Cat r1 r2) s g k = Some x ->
  exists s1 s2 g',
    s = s1 ++ s2 /\ Re.matches fl r1 s1 /\ Re.run fl r2 s2 g' k = Some x.
Proof. simpl. intros H. apply run_sound in H. exact H. Qed.

(** Case folding leaves the underscore and the colon alone. *)
Lemma accepts_underscore_or_space (c : ascii) :
  Re.accepts Re.I (Re.OneOf [Re.AChr "_"; Re.ASpace]) c
  = (PyStr.eqb_char c "_" || PyStr.isspace c)%bool.
Proof. destruct c as [[] [] [] [] [] [] [] []]; reflexivity. Qed.

Lemma accepts_colon_or_space (c : ascii) :
  Re.accepts Re.I (Re.OneOf [Re.AChr ":"; Re.ASpace]) c
  = (PyStr.eqb_char c ":" || PyStr.isspace c)%bool.
Proof. destruct c as [[] [] [] [] [] [] [] []]; reflexivity. Qed.

Lemma risk_separators (seps : str) :
  forallb (Re.accepts Re.I (Re.OneOf [Re.AChr ":"; Re.ASpace])) seps = true ->
  forallb (fun c => (PyStr.eqb_char c ":" || PyStr.isspace c)%bool) seps
  = true.
Proof.
  induction seps as [|c seps IH]; [reflexivity|].
  cbn [forallb]. rewrite accepts_colon_or_space. intros H.
  apply andb_true_iff in H. destruct H as [Hc H].
  rewrite Hc. exact (IH H).
Qed.

(** A captured [cs+] at the end of a pattern, before a continuation that
    cannot fail: the group is the longest run. *)
Lemma run_group_plus (fl : Re.flags) (X : Type) (n : nat) (cs : Re.cset)
      (s : str) (g : Re.groups) (k : Re.cont X) (x : X) :
  (forall s' g', k s' g' <> None) ->
  Re.run fl (Re.Cat (Re.Group n (Re.Plus cs)) Re.Eps) s g k = Some x ->
  exists run_ rest,
    s = run_ ++ rest
    /\ run_ <> []
    /\ forallb (Re.accepts fl cs) run_ = true
    /\ match rest with
       | c :: _ => Re.accepts fl cs c = false
       | [] => True
       end
    /\ k rest ((n, run_) :: g) = Some x.
Proof.
  intros Hk H. unfold Re.Plus in H. cbn [Re.run] in H.
  destruct s as [|c s]; [discriminate|].
  destruct (Re.accepts fl cs c) eqn:Hc; [|discriminate].
  destruct (star_greedy_longest fl cs s g
              (fun s1 g1 =>
                 k s1 ((n, firstn (length (c :: s) - length s1) (c :: s))
                         :: g1)))
    as (ds & s2 & Eb & Hds & Hnext & Hstar).
  { intros s' g'. apply Hk. }
  rewrite Hstar in H. clear Hstar. subst s.
  change (c :: ds ++ s2) with ((c :: ds) ++ s2) in H.
  rewrite firstn_length_app in H.
  exists (c :: ds), s2. split; [reflexivity|]. split; [discriminate|].
  split; [simpl; rewrite Hc; exact Hds|]. split; [exact Hnext|exact H].
Qed.

(** A match of the risk pattern is a risk-score phrase and the longest run
    of digits after it; group 1 is that run. *)
Lemma risk_match_at (s t rest : str) (g : Re.groups) :
  Re.match_at Re.I Detector.risk_pattern s = Some (t, rest, g) ->
  exists phrase digits,
    t = phrase ++ digits
    /\ Spec.risk_phrase phrase
    /\ digits <> []
    /\ forallb PyStr.isdigit digits = true
    /\ Spec.no_digit_ahead rest
    /\ Re.group 1 g = Some digits.
Proof.
  unfold Re.match_at, Detector.risk_pattern, Re.Seq. simpl fold_right.
  intros H.
  apply run_cat_sound in H. destruct H as (w1 & b1 & g1 & E1 & M1 & H).
  apply run_cat_sound in H. destruct H as (a2 & b2 & g2 & E2 & M2 & H).
  apply run_cat_sound in H. destruct H as (w2 & b3 & g3 & E3 & M3 & H).
  apply run_cat_sound in H. destruct H as (seps & b4 & g4 & E4 & M4 & H).
  apply matches_lit_lower in M1. apply matches_lit_lower in M3.
  inversion M2 as [|cs sep Hsep| | | | |]; subst cs a2.
  inversion M4 as [| | | | |gr cs x Hseps|]; subst gr cs x.
  apply run_group_plus in H; [|intros s' g'; discriminate].
  destruct H as (digits & s2 & E5 & Hne & Hds & Hnext & H).
  inversion H; subst; clear H.
  exists (w1 ++ [sep] ++ w2 ++ seps), digits.
  split.
  { replace (w1 ++ [sep] ++ w2 ++ seps ++ digits ++ rest)
      with ((w1 ++ [sep] ++ w2 ++ seps ++ digits) ++ rest)
      by (repeat rewrite <- app_assoc; reflexivity).
    rewrite firstn_length_app. repeat rewrite <- app_assoc. reflexivity. }
  split.
  { exists w1, sep, w2, seps. split; [reflexivity|].
    split; [exact M1|]. split.
    - rewrite accepts_underscore_or_space in Hsep.
      apply orb_true_iff in Hsep. destruct Hsep as [Hu|Hs]; [left|right; auto].
      apply eqb_char_eq in Hu. exact Hu.
    - split; [exact M3|]. apply risk_separators. exact Hseps. }
  split; [exact Hne|].
  split; [exact Hds|].
  split; [destruct rest; simpl; auto|].
  reflexivity.
Qed.

(** ** The brace pattern *)

Lemma json_pattern_language (m : str) :
  Re.matches Re.S_ Detector.json_pattern m
  <-> exists b : str, m = "{"%char :: b ++ ["}"%char].
Proof.
  unfold Detector.json_pattern, Re.Seq. simpl fold_right. split.
  - intros H.
    inversion H as [| |r1 r2 s1 s2 H1 H2| | | |]; subst.
    inversion H1 as [|cs c Hc| | | | |]; subst.
    inversion H2 as [| |r1 r2 s3 s4 H3 H4| | | |]; subst.
    inversion H4 as [| |r1 r2 s5 s6 H5 H6| | | |]; subst.
    inversion H5 as [|cs c' Hc'| | | | |]; subst.
    inversion H6; subst.
    change (PyStr.eqb_char "{" c = true) in Hc.
    change (PyStr.eqb_char "}" c' = true) in Hc'.
    apply eqb_char_eq in Hc. apply eqb_char_eq in Hc'.
    subst. exists s3. rewrite app_nil_r. reflexivity.
  - intros [b ->].
    change ("{"%char :: b ++ ["}"%char])
      with (["{"%char] ++ b ++ ["}"%char] ++ []).
    repeat constructor.
    induction b as [|c b IH]; [reflexivity|exact IH].
Qed.

(** [re.search] finds no JSON object exactly when the text has no brace
    pair. *)
Lemma json_search_none_iff (text : str) :
  Re.search Re.S_ Detector.json_pattern text = None
  <-> ~ Spec.has_brace_pair text.
Proof.
  rewrite search_none_iff. split; intros Hn H; apply Hn.
  - destruct H as (a & b & c & ->).
    exists a, ("{"%char :: b ++ ["}"%char]), c. split.
    + simpl. rewrite <- app_assoc. reflexivity.
    + apply json_pattern_language. exists b. reflexivity.
  - destruct H as (pre & m & post & -> & Hm).
    apply json_pattern_language in Hm. destruct Hm as [b ->].
    exists pre, b, post. simpl. rewrite <- app_assoc. reflexivity.
Qed.

(** ** The text-scrape path *)

Lemma matches_plus_intro (fl : Re.flags) (cs : Re.cset) (a : str) :
  a <> [] -> forallb (Re.accepts fl cs) a = true ->
  Re.matches fl (Re.Plus cs) a.
Proof.
  intros Hne Hall. destruct a as [|c a]; [contradiction|].
  simpl in Hall. apply andb_true_iff in Hall. destruct Hall as [Hc Hall].
  unfold Re.Plus. change (c :: a) with ([c] ++ a).
  constructor; constructor; assumption.
Qed.

Lemma matches_lit_lower_intro (p a : str) :
  PyStr.lower a = PyStr.lower p -> Re.matches Re.I (Re.Lit p) a.
Proof.
  revert a. induction p as [|c p IH]; intros [|x a] H; try discriminate.
  - apply Re.M_Eps.
  - simpl in H. inversion H as [[Hx Ha]].
    change (x :: a) with ([x] ++ a). cbn [Re.Lit].
    apply Re.M_Cat; [|exact (IH _ Ha)].
    apply Re.M_Chars.
    change (PyStr.eqb_char (PyStr.lower_char c) (PyStr.lower_char x) = true).
    apply eqb_char_eq. symmetry. exact Hx.
Qed.

(** A literal, case disregarded, consumes a prefix that spells it. *)
Lemma run_lit_lower (X : Type) (p : str) :
  forall (a s : str) (g : Re.groups) (k : Re.cont X),
    PyStr.lower a = PyStr.lower p ->
    Re.run Re.I (Re.Lit p) (a ++ s) g k = k s g.
Proof.
  induction p as [|c p IH]; intros [|x a] s g k H; try discriminate.
  - reflexivity.
  - simpl in H. inversion H as [[Hx Ha]].
    cbn [Re.Lit Re.run Re.chr app].
    change (Re.accepts Re.I (Re.Single (Re.AChr c)) x)
      with (PyStr.eqb_char (PyStr.lower_char c) (PyStr.lower_char x)).
    rewrite Hx, eqb_char_refl. exact (IH a s g k Ha).
Qed.

(** A greedy repetition commits to the whole run when what follows the
    run succeeds. *)
Lemma star_greedy_commit (fl : Re.flags) (X : Type) (cs : Re.cset)
      (ws s2 : str) (g : Re.groups) (k : Re.cont X) (x : X) :
  forallb (Re.accepts fl cs) ws = true ->
  match s2 with
  | c :: _ => Re.accepts fl cs c = false
  | [] => True
  end ->
  k s2 g = Some x ->
  Re.star fl true cs (ws ++ s2) g k = Some x.
Proof.
  intros Hws Hnext Hk. induction ws as [|c ws IH].
  - destruct s2 as [|c s2]; cbn [app Re.star]; [exact Hk|].
    rewrite Hnext. exact Hk.
  - cbn [forallb] in Hws. apply andb_true_iff in Hws.
    destruct Hws as [Hc Hws]. cbn [app Re.star]. rewrite Hc.
    rewrite (IH Hws). reflexivity.
Qed.

(** A text is cut in one way only into a run of a class and a rest that
    does not begin in the class. *)
Lemma split_unique (p : ascii -> bool) :
  forall l1 l2 s1 s2 : str,
    forallb p l1 = true -> forallb p l2 = true ->
    match s1 with c :: _ => p c = false | [] => True end ->
    match s2 with c :: _ => p c = false | [] => True end ->
    l1 ++ s1 = l2 ++ s2 ->
    l1 = l2 /\ s1 = s2.
Proof.
  induction l1 as [|x l1 IH]; intros [|y l2] s1 s2 H1 H2 N1 N2 E.
  - split; [reflexivity|exact E].
  - exfalso. simpl in E. subst s1. cbn [forallb] in H2.
    apply andb_true_iff in H2. destruct H2 as [H2 _]. congruence.
  - exfalso. simpl in E. subst s2. cbn [forallb] in H1.
    apply andb_true_iff in H1. destruct H1 as [H1 _]. congruence.
  - simpl in E. inversion E; subst. cbn [forallb] in H1, H2.
    apply andb_true_iff in H1. apply andb_true_iff in H2.
    destruct H1 as [_ H1]. destruct H2 as [_ H2].
    destruct (IH l2 s1 s2 H1 H2 N1 N2 ltac:(assumption)) as [-> ->].
    split; reflexivity.
Qed.

Lemma search_at_head (fl : Re.flags) (r : Re.regex) (s t rest : str)
      (g : Re.groups) :
  Re.match_at fl r s = Some (t, rest, g) ->
  Re.search fl r s
  = Some {| Re.m_start := 0; Re.m_text := t; Re.m_groups := g |}.
Proof.
  intros H. unfold Re.search. destruct s; cbn [Re.search_from];
    rewrite H; reflexivity.
Qed.

Lemma digit_not_separator (c : ascii) :
  PyStr.isdigit c = true ->
  (PyStr.eqb_char c ":" || PyStr.isspace c)%bool = false.
Proof.
  destruct c as [[] [] [] [] [] [] [] []]; vm_compute; congruence.
Qed.

Lemma app_eq_length (a1 a2 s1 s2 : str) :
  length a1 = length a2 -> a1 ++ s1 = a2 ++ s2 -> a1 = a2 /\ s1 = s2.
Proof.
  revert a2. induction a1 as [|x a1 IH]; intros [|y a2] Hl E;
    try discriminate.
  - split; [reflexivity|exact E].
  - simpl in Hl, E. inversion E; subst.
    destruct (IH a2 ltac:(lia) ltac:(assumption)) as [-> ->].
    split; reflexivity.
Qed.

Lemma lower_length (a b : str) :
  PyStr.lower a = b -> length a = length b.
Proof.
  intros <-. unfold PyStr.lower. rewrite length_map. reflexivity.
Qed.

Lemma separators_accepted (seps : str) :
  forallb (fun c => (PyStr.eqb_char c ":" || PyStr.isspace c)%bool) seps
  = true ->
  forallb (Re.accepts Re.I (Re.OneOf [Re.AChr ":"; Re.ASpace])) seps = true.
Proof.
  induction seps as [|c seps IH]; intros H; [reflexivity|].
  cbn [forallb] in *. apply andb_true_iff in H. destruct H as [Hc Hs].
  rewrite accepts_colon_or_space, Hc, (IH Hs). reflexivity.
Qed.


Lemma search_from_at (fl : Re.flags) (r : Re.regex) (s t rest : str)
      (g : Re.groups) (pos : nat) :
  Re.match_at fl r s = Some (t, rest, g) ->
  Re.search_from fl r pos s
  = Some {| Re.m_start := pos; Re.m_text := t; Re.m_groups := g |}.
Proof.
  intros H. destruct s; cbn [Re.search_from]; rewrite H; reflexivity.
Qed.

(** The search passes over a prefix in which no match begins. *)
Lemma search_from_skip (fl : Re.flags) (r : Re.regex) (pre s : str) :
  (forall (pre1 : str) (c : ascii) (pre2 : str),
      pre = pre1 ++ c :: pre2 ->
      Re.match_at fl r ((c :: pre2) ++ s) = None) ->
  forall pos : nat,
    Re.search_from fl r pos (pre ++ s)
    = Re.search_from fl r (pos + length pre) s.
Proof.
  induction pre as [|a pre IH]; intros H pos.
  - simpl. rewrite Nat.add_0_r. reflexivity.
  - pose proof (H [] a pre eq_refl) as H0. cbn [app] in H0.
    cbn [app Re.search_from]. rewrite H0. rewrite IH.
    + f_equal. simpl. lia.
    + intros pre1 c pre2 E. apply (H (a :: pre1)). rewrite E. reflexivity.
Qed.

(** A risk-score phrase and a run of digits are in the language of the
    risk pattern. *)
Lemma risk_pattern_intro (phrase digits : str) :
  Spec.risk_phrase phrase ->
  digits <> [] ->
  forallb PyStr.isdigit digits = true ->
  Re.matches Re.I Detector.risk_pattern (phrase ++ digits).
Proof.
  intros Hp Hne Hd.
  destruct Hp as (w1 & sep & w2 & seps & -> & Hw1 & Hsep & Hw2 & Hseps).
  replace ((w1 ++ [sep] ++ w2 ++ seps) ++ digits)
    with (w1 ++ [sep] ++ w2 ++ seps ++ digits ++ [])
    by (rewrite app_nil_r; repeat rewrite <- app_assoc; reflexivity).
  unfold Detector.risk_pattern, Re.Seq, Re.Text. cbn [fold_right].
  apply Re.M_Cat; [apply matches_lit_lower_intro; exact Hw1|].
  apply Re.M_Cat.
  { apply Re.M_Chars. rewrite accepts_underscore_or_space.
    destruct Hsep as [->|Hs]; [reflexivity|].
    rewrite Hs. apply orb_true_r. }
  apply Re.M_Cat; [apply matches_lit_lower_intro; exact Hw2|].
  apply Re.M_Cat; [apply Re.M_Star; apply separators_accepted; exact Hseps|].
  apply Re.M_Cat; [|apply Re.M_Eps]. apply Re.M_Group.
  apply matches_plus_intro; [exact Hne|exact Hd].
Qed.

(** The risk pattern at a risk-score phrase that digits follow: the
    capture is the whole run of digits. *)
Lemma risk_phrase_at_head (phrase digits rest : str) :
  Spec.risk_phrase phrase ->
  digits <> [] ->
  forallb PyStr.isdigit digits = true ->
  Spec.no_digit_ahead rest ->
  exists (t : str) (g : Re.groups),
    Re.match_at Re.I Detector.risk_pattern (phrase ++ digits ++ rest)
    = Some (t, rest, g)
    /\ Re.group 1 g = Some digits.
Proof.
  intros Hp Hne Hd Hrest.
  pose proof (@risk_pattern_intro _ _ Hp Hne Hd) as Hm.
  apply (@match_at_complete Re.I Detector.risk_pattern _ rest) in Hm.
  rewrite <- app_assoc in Hm.
  destruct (Re.match_at Re.I Detector.risk_pattern (phrase ++ digits ++ rest))
    as [[[t rest'] g]|] eqn:E; [clear Hm|contradiction].
  pose proof E as Et. apply match_at_sound in Et. destruct Et as [Et _].
  destruct (risk_match_at _ E)
    as (phrase' & digits' & -> & Hp' & Hne' & Hd' & Hrest' & Hg).
  assert (Ed : digits = digits' /\ rest = rest').
  { destruct Hp as (w1 & sep & w2 & seps & -> & Hw1 & _ & Hw2 & Hseps).
    destruct Hp' as (v1 & sep' & v2 & seps' & -> & Hv1 & _ & Hv2 & Hseps').
    repeat rewrite <- app_assoc in Et.
    apply app_eq_length in Et;
      [|rewrite (@lower_length _ _ Hw1), (@lower_length _ _ Hv1); reflexivity].
    destruct Et as [_ Et]. cbn [app] in Et. injection Et as _ Et'.
    apply app_eq_length in Et';
      [|rewrite (@lower_length _ _ Hw2), (@lower_length _ _ Hv2); reflexivity].
    destruct Et' as [_ Et'].
    apply (@split_unique
             (fun c => (PyStr.eqb_char c ":" || PyStr.isspace c)%bool))
      in Et'; [|exact Hseps|exact Hseps'| |].
    - destruct Et' as [_ Et'].
      apply (@split_unique PyStr.isdigit) in Et';
        [tauto|exact Hd|exact Hd'|exact Hrest|exact Hrest'].
    - destruct digits as [|d digits]; [contradiction|].
      cbn [forallb] in Hd. apply andb_true_iff in Hd.
      apply digit_not_separator. tauto.
    - destruct digits' as [|d digits']; [contradiction|].
      cbn [forallb] in Hd'. apply andb_true_iff in Hd'.
      apply digit_not_separator. tauto. }
  destruct Ed as [<- <-]. exists (phrase' ++ digits), g. auto.
Qed.

(** Where the risk pattern matches, a risk-score phrase and a digit
    begin. *)
Lemma risk_states_at (s t rest : str) (g : Re.groups) :
  Re.match_at Re.I Detector.risk_pattern s = Some (t, rest, g) ->
  Spec.states_risk_score_at s.
Proof.
  intros E. pose proof E as Et. apply match_at_sound in Et.
  destruct Et as [Et _].
  destruct (risk_match_at _ E)
    as (phrase & digits & -> & Hp & Hne & Hd & _ & _).
  destruct digits as [|d digits]; [contradiction|].
  cbn [forallb] in Hd. apply andb_true_iff in Hd.
  exists phrase, d, (digits ++ rest). split; [|tauto].
  rewrite Et. rewrite <- app_assoc. reflexivity.
Qed.

Lemma risk_none_at (s : str) :
  ~ Spec.states_risk_score_at s ->
  Re.match_at Re.I Detector.risk_pattern s = None.
Proof.
  intros H.
  destruct (Re.match_at Re.I Detector.risk_pattern s) as [[[t rest] g]|] eqn:E;
    [|reflexivity].
  exfalso. apply H. eapply risk_states_at. exact E.
Qed.

Lemma states_at_matches (phrase : str) (d : ascii) :
  Spec.risk_phrase phrase -> PyStr.isdigit d = true ->
  Re.matches Re.I Detector.risk_pattern (phrase ++ [d]).
Proof.
  intros Hp Hd. apply risk_pattern_intro; [exact Hp|discriminate|].
  cbn [forallb]. rewrite Hd. reflexivity.
Qed.

(** The risk pattern matches somewhere exactly when the text states a
    risk score. *)
Lemma risk_occurs_iff (text : str) :
  Re.occurs Re.I Detector.risk_pattern text <-> Spec.states_risk_score text.
Proof.
  split.
  - intros Ho.
    destruct (Re.search Re.I Detector.risk_pattern text) as [m|] eqn:E.
    + apply search_from_first in E.
      destruct E as (pre & rest & Et & Hm & _).
      destruct (@risk_states_at _ _ _ _ Hm)
        as (phrase & d & post & E & Hp & Hd).
      exists pre, phrase, d, post. rewrite Et, E. auto.
    + apply search_none_iff in E. contradiction.
  - intros (pre & phrase & d & post & -> & Hp & Hd).
    exists pre, (phrase ++ [d]), post. split.
    + rewrite <- app_assoc. reflexivity.
    + exact (@states_at_matches _ _ Hp Hd).
Qed.

Lemma states_at_not_none (s : str) :
  Spec.states_risk_score_at s ->
  Re.match_at Re.I Detector.risk_pattern s <> None.
Proof.
  intros (phrase & d & post & -> & Hp & Hd).
  replace (phrase ++ d :: post) with ((phrase ++ [d]) ++ post)
    by (rewrite <- app_assoc; reflexivity).
  apply match_at_complete. exact (@states_at_matches _ _ Hp Hd).
Qed.

Lemma no_risk_begins_nil (rest : str) :
  Spec.no_risk_score_begins_in [] rest.
Proof. intros [|x pre1] c pre2 E; discriminate. Qed.

Lemma no_risk_begins_cons (a : ascii) (pre rest : str) :
  Re.match_at Re.I Detector.risk_pattern ((a :: pre) ++ rest) = None ->
  Spec.no_risk_score_begins_in pre rest ->
  Spec.no_risk_score_begins_in (a :: pre) rest.
Proof.
  intros Hn H [|x pre1] c pre2 E.
  - inversion E; subst. intros Hs. exact (@states_at_not_none _ Hs Hn).
  - inversion E; subst. eapply H. reflexivity.
Qed.

(** The search finds the first risk score the text states. *)
Lemma first_risk_score_search (text digits : str) :
  Spec.first_risk_score text digits ->
  exists m : Re.match_,
    Re.search Re.I Detector.risk_pattern text = Some m
    /\ Re.group_of 1 m = digits.
Proof.
  intros (pre & phrase & post & -> & Hp & Hne & Hd & Hpost & Hfirst).
  destruct (@risk_phrase_at_head _ _ _ Hp Hne Hd Hpost) as (t & g & Hm & Hg).
  unfold Re.search. rewrite search_from_skip.
  - erewrite search_from_at by exact Hm. eexists. split; [reflexivity|].
    unfold Re.group_of. cbn [Re.m_groups]. rewrite Hg. reflexivity.
  - intros pre1 c pre2 E. apply risk_none_at. exact (Hfirst pre1 c pre2 E).
Qed.

Lemma first_risk_score_exists (text : str) :
  Spec.states_risk_score text <->
  exists digits : str, Spec.first_risk_score text digits.
Proof.
  split.
  - intros Hs. apply risk_occurs_iff in Hs.
    destruct (Re.search Re.I Detector.risk_pattern text) as [m|] eqn:E;
      [|apply search_none_iff in E; contradiction].
    apply search_from_first in E.
    destruct E as (pre & rest & Et & Hm & Hfirst).
    destruct (risk_match_at _ Hm)
      as (phrase & digits & Etext & Hp & Hne & Hd & Hnext & _).
    rewrite Etext in Et, Hfirst. rewrite <- app_assoc in Et, Hfirst.
    exists digits, pre, phrase, rest.
    split; [exact Et|]. split; [exact Hp|]. split; [exact Hne|].
    split; [exact Hd|]. split; [exact Hnext|].
    intros pre1 c pre2 E (phrase' & d & post' & E' & Hp' & Hd').
    apply (Hfirst pre1 c pre2 (phrase' ++ [d]) post' E).
    + rewrite E'. rewrite <- app_assoc. reflexivity.
    + exact (@states_at_matches _ _ Hp' Hd').
  - intros (digits & pre & phrase & post & -> & Hp & Hne & Hd & _ & _).
    destruct digits as [|d digits]; [contradiction|].
    cbn [forallb] in Hd. apply andb_true_iff in Hd.
    exists pre, phrase, d, (digits ++ post). tauto.
Qed.

Lemma first_risk_score_unique (text d1 d2 : str) :
  Spec.first_risk_score text d1 -> Spec.first_risk_score text d2 -> d1 = d2.
Proof.
  intros H1 H2.
  destruct (@first_risk_score_search text d1 H1) as (m1 & Hm1 & <-).
  destruct (@first_risk_score_search text d2 H2) as (m2 & Hm2 & <-).
  rewrite Hm1 in Hm2. injection Hm2 as <-. reflexivity.
Qed.

(** The dict the text-scrape parser builds around a score. *)
Lemma parse_text_response_first (text digits : str) :
  Spec.first_risk_score text digits ->
  Detector._parse_text_response text
  = bind (Builtins.int digits)
         (fun score =>
            Ok (JObj
                  [ (lit "risk_score", JInt score);
                    (lit "risk_level", JStr (Detector.level_of score));
                    (lit "indicators_found",
                      JArr [JStr (lit "AI Analysis Available")]);
                    (lit "technical_analysis",
                      JStr (PyStr.slice_to 500 text));
                    (lit "recommendations",
                      JArr [JStr (lit "Review full analysis above")]);
                    (lit "confidence", JFloat (8 # 10)) ])).
Proof.
  intros H. destruct (@first_risk_score_search _ _ H) as (m & Hm & Hg).
  unfold Detector._parse_text_response. rewrite Hm, Hg. reflexivity.
Qed.

Lemma parse_text_response_default (text : str) :
  ~ Spec.states_risk_score text ->
  Detector._parse_text_response text
  = Ok (JObj
          [ (lit "risk_score", JInt 50);
            (lit "risk_level", JStr (lit "MEDIUM"));
            (lit "indicators_found",
              JArr [JStr (lit "AI Analysis Available")]);
            (lit "technical_analysis", JStr (PyStr.slice_to 500 text));
            (lit "recommendations",
              JArr [JStr (lit "Review full analysis above")]);
            (lit "confidence", JFloat (8 # 10)) ]).
Proof.
  intros H. unfold Detector._parse_text_response.
  replace (Re.search Re.I Detector.risk_pattern text) with (@None Re.match_);
    [reflexivity|].
  symmetry. apply search_none_iff. intros Ho. apply H.
  apply risk_occurs_iff. exact Ho.
Qed.

(** The text-scrape parser returns unless the score it reads has more
    digits than [int] converts. *)
Lemma parse_text_response_returns (text : str) :
  (forall digits : str,
      Spec.first_risk_score text digits -> (length digits <= 4300)%nat) ->
  exists r : AnalysisResult, Detector._parse_text_response text = Ok r.
Proof.
  intros Hlen.
  destruct (Re.search Re.I Detector.risk_pattern text) as [m|] eqn:E.
  - assert (Hs : Spec.states_risk_score text)
      by (apply risk_occurs_iff; eapply search_some_occurs; exact E).
    apply first_risk_score_exists in Hs. destruct Hs as (digits & Hfirst).
    rewrite (@parse_text_response_first _ _ Hfirst).
    rewrite (proj2 (int_ok digits (PyStr.int_of_digits digits))
               (conj (Hlen digits Hfirst) eq_refl)).
    cbn [bind]. eexists. reflexivity.
  - unfold Detector._parse_text_response. rewrite E. cbn [bind].
    eexists. reflexivity.
Qed.

(** With the text of an answer that has no brace pair, the rest of the
    [try] is the text-scrape parser, and the handler answers when it
    raises. *)
Lemma analyze_with_ai_text_scrape (key : str) (chk : str -> option string)
      (loads : str -> result json) (post : Request -> result Response)
      (content : str) (md : EmailMetadata) (text : str) :
  Detector.ai_call key loads post content md = Ok (JStr text) ->
  ~ Spec.has_brace_pair text ->
  Detector.analyze_with_ai key chk loads post content md
  = match Detector._parse_text_response text with
    | Ok r => Ok r
    | Raise _ => Detector._fallback_analysis chk content md
    end.
Proof.
  intros Hcall Hbrace. apply json_search_none_iff in Hbrace.
  unfold Detector.analyze_with_ai, Detector.ai_attempt,
    Detector.read_ai_response.
  rewrite Hcall. cbn [bind Detector.as_str]. rewrite Hbrace.
  reflexivity.
Qed.

(** C4 (amended).  When the exchange yields the text of an answer and
    that text has no brace pair, the text-scrape parser decides.  If the
    text states no risk score, the result has the score 50, the level
    MEDIUM and the confidence 0.8.  If it states one, the digits read are
    the whole run after the first risk-score phrase that a digit follows:
    when the run has at most 4300 digits the result has the number they
    write as score, the level of the threshold table and the confidence
    0.8; when it is longer [int] raises, and [analyze_with_ai] answers
    with the outcome of the heuristic scorer.  Every text is in one of
    these cases, and the digits read are determined by the text.  On a
    prose answer that states a risk score of 82 the score is 82 and the
    level HIGH. *)
Theorem text_scrape_path :
  (forall (key : str) (chk : str -> option string)
          (loads : str -> result json)
          (post : Request -> result Response) (content : str)
          (md : EmailMetadata) (text : str),
      Detector.ai_call key loads post content md = Ok (JStr text) ->
      ~ Spec.has_brace_pair text ->
      (~ Spec.states_risk_score text ->
       exists r : AnalysisResult,
         Detector.analyze_with_ai key chk loads post content md = Ok r
         /\ Json.get "risk_score" r = Some (JInt 50)
         /\ Json.get "risk_level" r = Some (JStr (lit "MEDIUM"))
         /\ Json.get "confidence" r = Some (JFloat (8 # 10)))
      /\ (forall digits : str,
             Spec.first_risk_score text digits ->
             (length digits <= 4300)%nat ->
             exists r : AnalysisResult,
               Detector.analyze_with_ai key chk loads post content md = Ok r
               /\ Json.get "risk_score" r
                  = Some (JInt (PyStr.int_of_digits digits))
               /\ Json.get "risk_level" r
                  = Some (JStr (Detector.level_of
                                  (PyStr.int_of_digits digits)))
               /\ Spec.level_matches
                    (PyStr.int_of_digits digits)
                    (Detector.level_of (PyStr.int_of_digits digits))
               /\ Json.get "confidence" r = Some (JFloat (8 # 10)))
      /\ (forall digits : str,
             Spec.first_risk_score text digits ->
             (4300 < length digits)%nat ->
             Detector.analyze_with_ai key chk loads post content md
             = Detector._fallback_analysis chk content md))
  /\ (forall text : str,
         (Spec.states_risk_score text
          <-> exists digits : str, Spec.first_risk_score text digits)
         /\ (forall d1 d2 : str,
                Spec.first_risk_score text d1 ->
                Spec.first_risk_score text d2 -> d1 = d2))
  /\ (Spec.first_risk_score prose_answer (lit "82")
      /\ exists r : AnalysisResult,
           Detector.analyze_with_ai sample_key (fun _ => None) Json.loads
                                    (answering prose_answer)
                                    one_keyword sample_metadata = Ok r
           /\ Json.get "risk_score" r = Some (JInt 82)
           /\ Json.get "risk_level" r = Some (JStr (lit "HIGH"))
           /\ Json.get "confidence" r = Some (JFloat (8 # 10))).
Proof.
  split; [|split; [intros text; split;
                   [apply first_risk_score_exists
                   |apply first_risk_score_unique]|]].
  - intros key chk loads post content md text Hcall Hbrace.
    rewrite (@analyze_with_ai_text_scrape key chk loads post content md text
               Hcall Hbrace).
    split; [|split].
    + intros Hno. rewrite (@parse_text_response_default _ Hno).
      eexists. split; [reflexivity|].
      split; [apply get_risk_score|].
      split; [apply get_risk_level|apply get_confidence].
    + intros digits Hfirst Hlen.
      rewrite (@parse_text_response_first _ _ Hfirst).
      assert (Hint : Builtins.int digits = Ok (PyStr.int_of_digits digits))
        by (apply int_ok; split; [exact Hlen|reflexivity]).
      rewrite Hint. cbn [bind].
      eexists. split; [reflexivity|].
      split; [apply get_risk_score|].
      split; [apply get_risk_level|].
      split; [apply level_of_matches|apply get_confidence].
    + intros digits Hfirst Hlen.
      rewrite (@parse_text_response_first _ _ Hfirst).
      destruct (@int_raises digits Hlen) as [e He].
      rewrite He. reflexivity.
  - split.
    + exists (lit "Overall "), (lit "risk score: "), (lit " (high).").
      split; [reflexivity|].
      split.
      { exists (lit "risk"), " "%char, (lit "score"), (lit ": ").
        repeat split; try reflexivity. right. reflexivity. }
      split; [discriminate|]. split; [reflexivity|]. split; [reflexivity|].
      repeat (apply no_risk_begins_cons; [vm_compute; reflexivity|]).
      apply no_risk_begins_nil.
    + eexists. split; [vm_compute; reflexivity|].
      repeat split; reflexivity.
Qed.

(** C4 at a provider that answers with prose stating a risk score of
    82. *)
Lemma text_scrape_path_witness :
  exists r : AnalysisResult,
    Detector.analyze_with_ai sample_key (fun _ => None) Json.loads
                             (answering prose_answer)
                             one_keyword sample_metadata = Ok r
    /\ Json.get "risk_score" r = Some (JInt 82).
Proof.
  assert (Hcall : Detector.ai_call sample_key Json.loads
                    (answering prose_answer) one_keyword sample_metadata
                  = Ok (JStr prose_answer))
    by (vm_compute; reflexivity).
  assert (Hbrace : ~ Spec.has_brace_pair prose_answer)
    by (apply json_search_none_iff; vm_compute; reflexivity).
  destruct (proj1 (proj2 (proj1 text_scrape_path sample_key (fun _ => None)
                            Json.loads (answering prose_answer) one_keyword
                            sample_metadata prose_answer Hcall Hbrace))
              (lit "82") (proj1 (proj2 (proj2 text_scrape_path)))
              ltac:(vm_compute; lia))
    as (r & H1 & H2 & _).
  exists r. split; [exact H1|exact H2].
Defined.

(** C4, as stated, fails on an answer whose risk score has more digits
    than [int] converts: the exchange succeeds, the text has no brace pair
    and states a risk score, and the result is the dict of the heuristic
    scorer, with the score 15 and the confidence 0.6. *)
Lemma long_digit_run_falls_back :
  Detector.ai_call sample_key Json.loads (answering long_score_answer)
                   one_keyword sample_metadata
  = Ok (JStr long_score_answer)
  /\ ~ Spec.has_brace_pair long_score_answer
  /\ Spec.states_risk_score long_score_answer
  /\ exists r : AnalysisResult,
       Detector.analyze_with_ai sample_key (fun _ => None) Json.loads
                                (answering long_score_answer)
                                one_keyword sample_metadata = Ok r
       /\ Json.get "risk_score" r = Some (JInt 15)
       /\ Json.get "confidence" r = Some (JFloat (6 # 10)).
Proof.
  split; [vm_compute; reflexivity|].
  split; [apply json_search_none_iff; vm_compute; reflexivity|].
  split.
  { exists [], (lit "risk score: "), "1"%char, (repeat "1"%char 4300).
    split; [reflexivity|]. split; [|reflexivity].
    exists (lit "risk"), " "%char, (lit "score"), (lit ": ").
    repeat split; try reflexivity. right. reflexivity. }
  eexists. split; [vm_compute; reflexivity|].
  split; reflexivity.
Qed.

(** ** Consistency on the three paths *)

(** C1 (amended).  The dict of the text-scrape parser and every dict the
    heuristic scorer returns have risk fields that agree with the threshold
    table, which puts 0 and 30 at LOW, 31 and 70 at MEDIUM, 71 and 100 at
    HIGH.  The text-scrape parser returns such a dict on every text but
    those whose score has more digits than [int] converts.  A result of
    [analyze_with_ai] therefore agrees with the table unless it is the
    object decoded from the provider's answer, which is returned as it
    is. *)
Theorem risk_fields_consistent :
  (forall (text : str) (r : AnalysisResult),
      Detector._parse_text_response text = Ok r -> Spec.consistent r)
  /\ (forall text : str,
         (forall digits : str,
             Spec.first_risk_score text digits ->
             (length digits <= 4300)%nat) ->
         exists r : AnalysisResult,
           Detector._parse_text_response text = Ok r /\ Spec.consistent r)
  /\ (forall (chk : str -> option string) (content : str) (md : EmailMetadata)
             (r : AnalysisResult),
         Detector._fallback_analysis chk content md = Ok r ->
         Spec.consistent r)
  /\ (forall (key : str) (chk : str -> option string)
             (loads : str -> result json)
             (post : Request -> result Response) (content : str)
             (md : EmailMetadata) (r : AnalysisResult),
         Detector.analyze_with_ai key chk loads post content md = Ok r ->
         Spec.consistent r
         \/ exists ai_response m,
              Detector.ai_call key loads post content md
              = Ok (JStr ai_response)
              /\ Re.search Re.S_ Detector.json_pattern ai_response = Some m
              /\ loads (Re.group_of 0 m) = Ok r)
  /\ map Detector.level_of [0; 30; 31; 70; 71; 100]%Z
     = map lit ["LOW"; "LOW"; "MEDIUM"; "MEDIUM"; "HIGH"; "HIGH"]%string.
Proof.
  split; [exact parse_text_response_consistent|].
  split.
  { intros text Hlen.
    destruct (@parse_text_response_returns text Hlen) as (r & Hr).
    exists r. split; [exact Hr|].
    exact (@parse_text_response_consistent text r Hr). }
  split; [exact fallback_analysis_consistent|].
  split; [|reflexivity].
  intros key chk loads post content md r H.
  apply analyze_with_ai_paths in H.
  destruct H as [(t & m & H)|[(t & _ & _ & H)|(e & _ & H)]].
  - right. exists t, m. exact H.
  - left. exact (parse_text_response_consistent _ H).
  - left. exact (fallback_analysis_consistent _ _ _ H).
Qed.

(** C1 on the heuristic path, at a text the scorer returns a dict for. *)
Lemma risk_fields_consistent_witness :
  exists r : AnalysisResult,
    Detector._fallback_analysis (fun _ => None) two_keywords_one_ip
                                sample_metadata = Ok r
    /\ Spec.consistent r.
Proof.
  eexists. split; [vm_compute; reflexivity|].
  apply (proj1 (proj2 (proj2 risk_fields_consistent)) (fun _ => None)
               two_keywords_one_ip sample_metadata).
  vm_compute. reflexivity.
Defined.

(** C1, as stated, fails on the JSON path: the provider's object with a
    score of 10 and the level HIGH is returned as it is. *)
Lemma provider_object_inconsistent :
  Detector.analyze_with_ai sample_key (fun _ => None) Json.loads
                           (answering inconsistent_answer)
                           one_keyword sample_metadata
  = Ok inconsistent_result
  /\ ~ Spec.consistent inconsistent_result.
Proof.
  split; [vm_compute; reflexivity|].
  intros (score & level & Hs & Hl & Hm).
  vm_compute in Hs. vm_compute in Hl.
  inversion Hs; subst; clear Hs. inversion Hl; subst; clear Hl.
  destruct Hm as [[Hhigh _] _].
  specialize (Hhigh eq_refl). lia.
Qed.

(** ** When the URL analysis returns *)

Lemma has_char_in (c : ascii) (s : str) :
  PyStr.has_char c s = true <-> In c s.
Proof.
  unfold PyStr.has_char. rewrite existsb_exists. split.
  - intros (x & Hx & E). apply eqb_char_eq in E. subst x. exact Hx.
  - intros H. exists c. split; [exact H|apply eqb_char_refl].
Qed.

Lemma has_char_false_incl (c : ascii) (s t : str) :
  (forall x, In x t -> In x s) ->
  PyStr.has_char c s = false -> PyStr.has_char c t = false.
Proof.
  intros Hincl Hs. destruct (PyStr.has_char c t) eqn:E; [|reflexivity].
  apply has_char_in in E. apply Hincl in E. apply has_char_in in E.
  congruence.
Qed.

Lemma lstrip_c0_incl (s : str) (x : ascii) :
  In x (UrlParse.lstrip_c0 s) -> In x s.
Proof.
  induction s as [|c s IH]; simpl; [auto|].
  destruct (N.leb (PyStr.code c) 32); simpl; auto.
Qed.

Lemma after_scheme_incl (s : str) (x : ascii) :
  In x (UrlParse.after_scheme s) -> In x s.
Proof.
  unfold UrlParse.after_scheme.
  destruct (PyStr.find_char ":" s) as [[|i]|]; auto.
  destruct s as [|c0 s']; auto.
  destruct (UrlParse.is_ascii_alpha c0
            && forallb UrlParse.scheme_char (firstn (S i) (c0 :: s')))%bool;
    auto.
  intros H. rewrite <- (firstn_skipn (S (S i)) (c0 :: s')).
  apply in_or_app. right. exact H.
Qed.

Lemma upto_delim_incl (s : str) (x : ascii) :
  In x (UrlParse.upto_delim s) -> In x s.
Proof.
  induction s as [|c s IH]; simpl; [auto|].
  destruct (PyStr.eqb_char c "/" || PyStr.eqb_char c "?"
            || PyStr.eqb_char c "#")%bool; simpl; [contradiction|].
  intros [H|H]; auto.
Qed.

(** [urlparse] accepts a URL that has no square bracket. *)
Lemma netloc_without_brackets (chk : str -> option string) (u : str) :
  PyStr.has_char "[" u = false ->
  PyStr.has_char "]" u = false ->
  exists n : str, UrlParse.netloc chk u = Ok n.
Proof.
  intros Hl Hr. unfold UrlParse.netloc.
  set (v := UrlParse.after_scheme _).
  destruct (PyStr.startswith (lit "//") v); [|eauto].
  assert (Hincl : forall x, In x (UrlParse.upto_delim (skipn 2 v)) -> In x u).
  { intros x H. apply upto_delim_incl in H.
    assert (Hv : In x v).
    { rewrite <- (firstn_skipn 2 v). apply in_or_app. right. exact H. }
    apply after_scheme_incl in Hv. unfold UrlParse.remove_unsafe in Hv.
    apply filter_In in Hv. destruct Hv as [Hv _].
    apply lstrip_c0_incl in Hv. exact Hv. }
  rewrite (has_char_false_incl _ _ _ Hincl Hl).
  rewrite (has_char_false_incl _ _ _ Hincl Hr).
  simpl. eauto.
Qed.

(** The strings of [re.findall] are pieces of the subject. *)
Lemma findall_from_incl (fl : Re.flags) (r : Re.regex) (u : str) (s : str) :
  forall skip : nat,
    In u (Re.findall_from fl r skip s) -> forall x, In x u -> In x s.
Proof.
  induction s as [|c s IH]; intros skip H x Hx.
  - destruct skip; simpl in H; [|contradiction].
    destruct (Re.match_at fl r []) as [[[t rest] g]|] eqn:E;
      [|contradiction].
    destruct H as [<-|[]]. apply match_at_sound in E.
    destruct E as [E _]. rewrite E. apply in_or_app. left. exact Hx.
  - destruct skip; simpl in H; [|right; exact (IH _ H x Hx)].
    destruct (Re.match_at fl r (c :: s)) as [[[t rest] g]|] eqn:E;
      [|right; exact (IH _ H x Hx)].
    destruct H as [<-|H]; [|right; exact (IH _ H x Hx)].
    apply match_at_sound in E. destruct E as [E _]. rewrite E.
    apply in_or_app. left. exact Hx.
Qed.

Lemma mapM_returns (A B : Type) (f : A -> result B) (xs : list A) :
  (forall x, In x xs -> exists y, f x = Ok y) ->
  exists ys, mapM f xs = Ok ys.
Proof.
  induction xs as [|x xs IH]; intros H; simpl; [eauto|].
  destruct (H x (or_introl eq_refl)) as [y Hy]. rewrite Hy.
  destruct IH as [ys Hys]; [intros z Hz; apply H; right; exact Hz|].
  rewrite Hys. simpl. eauto.
Qed.

(** On a text without square brackets the URL analysis returns, and so
    does the heuristic scorer, with the dict of the specification. *)
Lemma extract_urls_returns (chk : str -> option string) (text : str) :
  PyStr.has_char "[" text = false ->
  PyStr.has_char "]" text = false ->
  exists findings, Detector.extract_urls chk text = Ok findings.
Proof.
  intros Hl Hr. unfold Detector.extract_urls. apply mapM_returns.
  intros u Hu.
  assert (Hincl : forall x, In x u -> In x text)
    by (exact (findall_from_incl _ _ _ _ _ Hu)).
  destruct (netloc_without_brackets chk u
              (has_char_false_incl _ _ _ Hincl Hl)
              (has_char_false_incl _ _ _ Hincl Hr)) as [n Hn].
  unfold Detector.analyze_url, Detector._has_suspicious_tld.
  rewrite Hn. simpl. eauto.
Qed.

Lemma fallback_analysis_returns (chk : str -> option string) (content : str)
      (md : EmailMetadata) :
  PyStr.has_char "[" content = false ->
  PyStr.has_char "]" content = false ->
  exists (findings : list UrlFinding) (r : AnalysisResult),
    Detector.extract_urls chk content = Ok findings
    /\ Detector._fallback_analysis chk content md = Ok r
    /\ Json.get "risk_score" r
       = Some (JInt (Spec.risk_score (Spec.keyword_matches content)
                                     (Spec.suspicious_urls findings)))
    /\ Json.get "indicators_found" r
       = Some (Spec.indicators (Spec.keyword_matches content)
                               (Spec.suspicious_urls findings))
    /\ Json.get "confidence" r = Some (JFloat (6 # 10)).
Proof.
  intros Hl Hr.
  destruct (extract_urls_returns chk content Hl Hr) as [findings Hf].
  exists findings. eexists. split; [exact Hf|].
  split; [apply (fallback_analysis_spec chk content md Hf)|].
  split; [apply get_risk_score|].
  split; [apply get_indicators|apply get_confidence].
Qed.

(** ** The fallback of [analyze_with_ai] *)

Section Fallback.

Variable key : str.
Variable chk : str -> option string.
Variable loads : str -> result json.
Variable post : Request -> result Response.
Variable content : str.
Variable md : EmailMetadata.

(** Whatever the [try] raises, the handler answers with the outcome of the
    heuristic scorer: its dict, or the exception it raises itself. *)
Lemma analyze_with_ai_falls_back (e : exn) :
  Detector.ai_attempt key loads post content md = Raise e ->
  Detector.analyze_with_ai key chk loads post content md
  = Detector._fallback_analysis chk content md.
Proof.
  intros H. unfold Detector.analyze_with_ai. rewrite H. reflexivity.
Qed.

Lemma ai_attempt_call_raises (e : exn) :
  Detector.ai_call key loads post content md = Raise e ->
  Detector.ai_attempt key loads post content md = Raise e.
Proof. intros H. unfold Detector.ai_attempt. rewrite H. reflexivity. Qed.

(** The three failures of the exchange: the request raises, the status is
    an error, the body is not JSON. *)
Lemma ai_call_network_error (e : exn) :
  post (Detector.request key content md) = Raise e ->
  Detector.ai_call key loads post content md = Raise e.
Proof. intros H. unfold Detector.ai_call. rewrite H. reflexivity. Qed.

Lemma ai_call_error_status (response : Response) :
  post (Detector.request key content md) = Ok response ->
  (400 <= status_code response < 600)%Z ->
  Detector.ai_call key loads post content md
  = Raise (HTTPError (status_code response)).
Proof.
  intros H Hs. unfold Detector.ai_call. rewrite H.
  cbn [bind]. unfold Detector.raise_for_status.
  replace (400 <=? status_code response)%Z with true
    by (symmetry; apply Z.leb_le; lia).
  replace (status_code response <? 600)%Z with true
    by (symmetry; apply Z.ltb_lt; lia).
  reflexivity.
Qed.

Lemma ai_call_malformed_body (response : Response) (e : exn) :
  post (Detector.request key content md) = Ok response ->
  Detector.raise_for_status response = Ok tt ->
  loads (text response) = Raise e ->
  Detector.ai_call key loads post content md = Raise e.
Proof.
  intros H Hs Hl. unfold Detector.ai_call. rewrite H.
  cbn [bind]. rewrite Hs. cbn [bind]. rewrite Hl. reflexivity.
Qed.

Lemma fallback_confidence (r : AnalysisResult) :
  Detector._fallback_analysis chk content md = Ok r ->
  Json.get "confidence" r = Some (JFloat (6 # 10)).
Proof.
  intros H.
  destruct (extract_urls_total_or_raises chk content) as [[f Hf]|[e He]].
  - rewrite (fallback_analysis_spec chk content md Hf) in H.
    inversion H; subst; clear H. apply get_confidence.
  - rewrite (fallback_analysis_raises chk content md He) in H. discriminate.
Qed.

(** When the URLs of the content parse, a failed exchange is answered with
    the dict of the scorer, whose confidence is 0.6. *)
Lemma analyze_with_ai_recovers (e : exn) (findings : list UrlFinding) :
  Detector.ai_call key loads post content md = Raise e ->
  Detector.extract_urls chk content = Ok findings ->
  exists r : AnalysisResult,
    Detector.analyze_with_ai key chk loads post content md = Ok r
    /\ Detector._fallback_analysis chk content md = Ok r
    /\ Json.get "confidence" r = Some (JFloat (6 # 10)).
Proof.
  intros Hc Hu.
  rewrite (analyze_with_ai_falls_back (ai_attempt_call_raises Hc)).
  rewrite (fallback_analysis_spec chk content md Hu).
  eexists. split; [reflexivity|]. split; [reflexivity|].
  apply get_confidence.
Qed.

End Fallback.

(** C3.  With an unreachable provider and the content [unmatched_bracket]
    the exception of the exchange is caught, and the handler's call of the
    heuristic scorer raises [ValueError]: [analyze_with_ai] raises where the
    claim has it return the scorer's dict, whatever the platform. *)
Theorem analyze_with_ai_raises_on_unmatched_bracket :
  forall (key : str) (chk : str -> option string) (loads : str -> result json)
         (md : EmailMetadata),
    Detector.analyze_with_ai key chk loads unreachable unmatched_bracket md
    = Raise (ValueError "Invalid IPv6 URL").
Proof. intros key chk loads md. vm_compute. reflexivity. Qed.

(** ** URLs of the www form *)

Lemma matches_lit_exact (p a : str) :
  Re.matches Re.no_flags (Re.Lit p) a -> a = p.
Proof.
  revert a. induction p as [|c p IH]; intros a H; simpl in H.
  - inversion H; subst. reflexivity.
  - inversion H as [| |r1 r2 s1 s2 H1 H2| | | |]; subst.
    inversion H1 as [|cs x Hx| | | | |]; subst.
    change (PyStr.eqb_char c x = true) in Hx. apply eqb_char_eq in Hx.
    subst x. simpl. rewrite (IH _ H2). reflexivity.
Qed.

Lemma matches_plus (fl : Re.flags) (cs : Re.cset) (a : str) :
  Re.matches fl (Re.Plus cs) a ->
  a <> [] /\ forallb (Re.accepts fl cs) a = true.
Proof.
  unfold Re.Plus. intros H.
  inversion H as [| |r1 r2 s1 s2 H1 H2| | | |]; subst.
  inversion H1 as [|cs' x Hx| | | | |]; subst.
  inversion H2 as [| | | | |gr cs' y Hy|]; subst.
  split; [discriminate|]. simpl. rewrite Hx. exact Hy.
Qed.

(** The language of the www alternative: the four characters, then a
    non-empty run of URL characters. *)
Lemma www_alternative_language (u : str) :
  Re.matches Re.no_flags Detector.www_alternative u ->
  exists rest : str,
    u = lit "www." ++ rest
    /\ rest <> []
    /\ forallb (Re.accepts Re.no_flags Detector.url_chars) rest = true.
Proof.
  unfold Detector.www_alternative, Re.Seq. simpl fold_right. intros H.
  inversion H as [| |r1 r2 s1 s2 H1 H2| | | |]; subst.
  inversion H2 as [| |r1 r2 s3 s4 H3 H4| | | |]; subst.
  inversion H4 as [| |r1 r2 s5 s6 H5 H6| | | |]; subst.
  inversion H6; subst.
  apply matches_lit_exact in H1. subst s1.
  inversion H3 as [|cs x Hx| | | | |]; subst.
  change (PyStr.eqb_char "." x = true) in Hx. apply eqb_char_eq in Hx.
  subst x. apply matches_plus in H5. destruct H5 as [Hne Hall].
  exists s5. rewrite app_nil_r. split; [reflexivity|]. auto.
Qed.

(** The language of the http alternative begins with one of the two
    schemes. *)
Lemma http_alternative_language (u : str) :
  Re.matches Re.no_flags Detector.http_alternative u ->
  PyStr.startswith (lit "http://") u = true
  \/ PyStr.startswith (lit "https://") u = true.
Proof.
  unfold Detector.http_alternative, Re.Seq. simpl fold_right. intros H.
  inversion H as [| |r1 r2 s1 s2 H1 H2| | | |]; subst.
  inversion H2 as [| |r1 r2 s3 s4 H3 H4| | | |]; subst.
  inversion H4 as [| |r1 r2 s5 s6 H5 H6| | | |]; subst.
  apply matches_lit_exact in H1. apply matches_lit_exact in H5. subst s1 s5.
  unfold Re.Opt in H3.
  inversion H3 as [| | |r1 r2 s Hs|r1 r2 s Hs| |]; subst.
  - inversion Hs as [|cs x Hx| | | | |]; subst.
    change (PyStr.eqb_char "s" x = true) in Hx. apply eqb_char_eq in Hx.
    subst x. right.
    change (lit "http" ++ ["s"%char] ++ lit "://" ++ s6)
      with (lit "https://" ++ s6).
    apply startswith_app.
  - inversion Hs; subst. left.
    change (lit "http" ++ [] ++ lit "://" ++ s6) with (lit "http://" ++ s6).
    apply startswith_app.
Qed.

(** A URL character is none of TAB, LF, CR. *)
Lemma url_char_safe (c : ascii) :
  Re.accepts Re.no_flags Detector.url_chars c = true ->
  negb (N.eqb (PyStr.code c) 9 || N.eqb (PyStr.code c) 13
        || N.eqb (PyStr.code c) 10)%bool = true.
Proof. destruct c as [[] [] [] [] [] [] [] []]; vm_compute; auto. Qed.

Lemma remove_unsafe_url_chars (s : str) :
  forallb (Re.accepts Re.no_flags Detector.url_chars) s = true ->
  UrlParse.remove_unsafe s = s.
Proof.
  induction s as [|c s IH]; [reflexivity|].
  cbn [forallb]. intros H. apply andb_true_iff in H. destruct H as [Hc H].
  unfold UrlParse.remove_unsafe. cbn [filter].
  rewrite (url_char_safe c Hc). f_equal. exact (IH H).
Qed.

Lemma find_char_split (c : ascii) (s : str) :
  forall n : nat,
    PyStr.find_char c s = Some n ->
    s = firstn n s ++ c :: skipn (S n) s.
Proof.
  induction s as [|x s IH]; intros n H; simpl in H; [discriminate|].
  destruct (PyStr.eqb_char c x) eqn:E.
  - inversion H; subst. apply eqb_char_eq in E. subst x. reflexivity.
  - destruct (PyStr.find_char c s) as [m|] eqn:F; [|discriminate].
    inversion H; subst. simpl. f_equal. exact (IH m eq_refl).
Qed.

Lemma endswith_iff (p s : str) :
  PyStr.endswith p s = true <-> exists h : str, s = h ++ p.
Proof.
  unfold PyStr.endswith. rewrite startswith_iff. split.
  - intros [t Ht]. exists (rev t).
    rewrite <- (rev_involutive s), Ht, rev_app_distr, rev_involutive.
    reflexivity.
  - intros [h ->]. exists (rev h). apply rev_app_distr.
Qed.

Lemma upto_delim_app (a rest : str) :
  forallb (fun c => negb (PyStr.eqb_char c "/" || PyStr.eqb_char c "?"
                          || PyStr.eqb_char c "#")%bool) a = true ->
  match rest with
  | [] => True
  | c :: _ => (PyStr.eqb_char c "/" || PyStr.eqb_char c "?"
               || PyStr.eqb_char c "#")%bool = true
  end ->
  UrlParse.upto_delim (a ++ rest) = a.
Proof.
  intros Ha Hr. induction a as [|c a IH]; simpl.
  - destruct rest as [|c r]; [reflexivity|]. simpl. rewrite Hr. reflexivity.
  - simpl in Ha. apply andb_true_iff in Ha. destruct Ha as [Hc Ha].
    apply negb_true_iff in Hc. rewrite Hc, (IH Ha). reflexivity.
Qed.

Lemma scheme_char_iff (c : ascii) :
  UrlParse.scheme_char c = true <-> In c Spec.scheme_chars.
Proof.
  split.
  - destruct c as [[] [] [] [] [] [] [] []]; intros H; vm_compute in H;
      try discriminate H; clear H; unfold Spec.scheme_chars, lit;
      cbn [list_ascii_of_string In];
      repeat first [left; reflexivity | right].
  - unfold Spec.scheme_chars, lit. cbn [list_ascii_of_string In].
    intros H. repeat (destruct H as [<-|H]; [reflexivity|]). contradiction.
Qed.

Lemma scheme_text_iff (s : str) :
  forallb UrlParse.scheme_char s = true
  <-> forall c : ascii, In c s -> In c Spec.scheme_chars.
Proof.
  rewrite forallb_forall. split; intros H c Hc; apply scheme_char_iff;
    exact (H c Hc).
Qed.

Lemma find_colon (s t : str) :
  forallb UrlParse.scheme_char s = true ->
  PyStr.find_char ":" (s ++ ":"%char :: t) = Some (length s).
Proof.
  induction s as [|c s IH]; intros H; [reflexivity|].
  cbn [forallb] in H. apply andb_true_iff in H. destruct H as [Hc H].
  cbn [app PyStr.find_char length].
  destruct (PyStr.eqb_char ":" c) eqn:E.
  - apply eqb_char_eq in E. subst c. discriminate Hc.
  - rewrite (IH H). reflexivity.
Qed.

(** The scheme split takes off a run of scheme characters that begins
    with a letter, and the colon after it. *)
Lemma after_scheme_split (c0 : ascii) (s t : str) :
  UrlParse.is_ascii_alpha c0 = true ->
  forallb UrlParse.scheme_char (c0 :: s) = true ->
  UrlParse.after_scheme ((c0 :: s) ++ ":"%char :: t) = t.
Proof.
  intros Ha Hs. unfold UrlParse.after_scheme.
  rewrite (find_colon (c0 :: s) t Hs).
  cbn [length app].
  change (c0 :: s ++ ":"%char :: t) with ((c0 :: s) ++ ":"%char :: t).
  replace (firstn (S (length s)) ((c0 :: s) ++ ":"%char :: t))
    with (c0 :: s).
  2:{ change (S (length s)) with (length (c0 :: s)).
      rewrite firstn_app, Nat.sub_diag, firstn_all. cbn [firstn].
      rewrite app_nil_r. reflexivity. }
  rewrite Ha, Hs. cbn [andb].
  change (S (S (length s))) with (S (length (c0 :: s))).
  replace (S (length (c0 :: s))) with (length ((c0 :: s) ++ [":"%char]))
    by (rewrite length_app; cbn [length]; lia).
  change (":"%char :: t) with ([":"%char] ++ t). rewrite app_assoc.
  rewrite skipn_app, skipn_all, Nat.sub_diag. reflexivity.
Qed.

(** A URL that does not read [s://t] with [s] of scheme characters, and
    does not begin with two slashes, has no network location. *)
Lemma netloc_without_authority (chk : str -> option string) (u : str) :
  UrlParse.lstrip_c0 u = u ->
  UrlParse.remove_unsafe u = u ->
  PyStr.startswith (lit "//") u = false ->
  ~ Spec.has_scheme_prefix u ->
  UrlParse.netloc chk u = Ok [].
Proof.
  intros Hl Hr Hs Hc. unfold UrlParse.netloc. rewrite Hl, Hr.
  assert (Ha : PyStr.startswith (lit "//") (UrlParse.after_scheme u) = false).
  { unfold UrlParse.after_scheme.
    destruct (PyStr.find_char ":" u) as [[|i]|] eqn:F; try exact Hs.
    destruct u as [|c0 u']; [exact Hs|].
    destruct (UrlParse.is_ascii_alpha c0
              && forallb UrlParse.scheme_char (firstn (S i) (c0 :: u')))%bool
      eqn:Hcond; [|exact Hs].
    apply andb_true_iff in Hcond. destruct Hcond as [_ Hscheme].
    destruct (PyStr.startswith (lit "//") (skipn (S (S i)) (c0 :: u')))
      eqn:E; [|reflexivity].
    exfalso. apply startswith_inv in E. destruct E as [t Et].
    apply find_char_split in F. rewrite Et in F.
    apply Hc. exists (firstn (S i) (c0 :: u')), t.
    split; [exact F|]. apply scheme_text_iff. exact Hscheme. }
  rewrite Ha. reflexivity.
Qed.

Lemma www_url_chars (u : str) :
  Re.matches Re.no_flags Detector.www_alternative u ->
  forallb (Re.accepts Re.no_flags Detector.url_chars) u = true
  /\ exists r : str, u = lit "www." ++ r.
Proof.
  intros Hm. apply www_alternative_language in Hm.
  destruct Hm as (rest & -> & _ & Hall).
  split; [|exists rest; reflexivity].
  change (lit "www." ++ rest)
    with ("w"%char :: "w"%char :: "w"%char :: "."%char :: rest).
  cbn [forallb]. rewrite Hall. reflexivity.
Qed.

Lemma netloc_www (chk : str -> option string) (u : str) :
  Re.matches Re.no_flags Detector.www_alternative u ->
  ~ Spec.has_scheme_prefix u ->
  UrlParse.netloc chk u = Ok [].
Proof.
  intros Hm Hc. destruct (www_url_chars Hm) as (Hall & r & ->).
  apply netloc_without_authority; try reflexivity; try exact Hc.
  apply remove_unsafe_url_chars. exact Hall.
Qed.

Lemma has_suspicious_tld_www (chk : str -> option string) (u : str) :
  Re.matches Re.no_flags Detector.www_alternative u ->
  ~ Spec.has_scheme_prefix u ->
  Detector._has_suspicious_tld chk u = Ok false.
Proof.
  intros Hm Hc. unfold Detector._has_suspicious_tld.
  rewrite (netloc_www chk Hm Hc). reflexivity.
Qed.

(** The network location of a URL of the www form that reads
    [s://authority rest]. *)
Lemma netloc_www_scheme (chk : str -> option string)
      (s authority rest : str) :
  Re.matches Re.no_flags Detector.www_alternative
             (s ++ lit "://" ++ authority ++ rest) ->
  (forall c : ascii, In c s -> In c Spec.scheme_chars) ->
  forallb (fun c => negb (PyStr.eqb_char c "/" || PyStr.eqb_char c "?"
                          || PyStr.eqb_char c "#")%bool) authority = true ->
  PyStr.has_char "[" authority = false ->
  PyStr.has_char "]" authority = false ->
  match rest with
  | [] => True
  | c :: _ => (PyStr.eqb_char c "/" || PyStr.eqb_char c "?"
               || PyStr.eqb_char c "#")%bool = true
  end ->
  UrlParse.netloc chk (s ++ lit "://" ++ authority ++ rest) = Ok authority.
Proof.
  intros Hm Hs Ha Hl Hr Hrest.
  destruct (www_url_chars Hm) as (Hall & r & E).
  apply scheme_text_iff in Hs.
  destruct s as [|c0 s]; [discriminate E|].
  assert (Hc0 : c0 = "w"%char) by (inversion E; reflexivity). subst c0.
  unfold UrlParse.netloc.
  change (UrlParse.lstrip_c0
            (("w"%char :: s) ++ lit "://" ++ authority ++ rest))
    with (("w"%char :: s) ++ lit "://" ++ authority ++ rest).
  rewrite (remove_unsafe_url_chars _ Hall).
  change (lit "://" ++ authority ++ rest)
    with (":"%char :: lit "//" ++ authority ++ rest).
  rewrite (@after_scheme_split "w"%char s (lit "//" ++ authority ++ rest)
             eq_refl Hs).
  change (PyStr.startswith (lit "//") (lit "//" ++ authority ++ rest))
    with true. cbv iota.
  change (skipn 2 (lit "//" ++ authority ++ rest)) with (authority ++ rest).
  rewrite (upto_delim_app authority rest Ha Hrest), Hl, Hr. reflexivity.
Qed.

(** What [mapM] returns holds one value per element. *)
Lemma mapM_in (A B : Type) (f : A -> result B) (xs : list A) :
  forall (ys : list B) (y : B),
    mapM f xs = Ok ys -> In y ys -> exists x, In x xs /\ f x = Ok y.
Proof.
  induction xs as [|x xs IH]; intros ys y H Hin; simpl in H.
  - inversion H; subst. contradiction.
  - apply bind_ok in H. destruct H as (b & Hb & H).
    apply bind_ok in H. destruct H as (bs & Hbs & H).
    inversion H; subst; clear H. destruct Hin as [<-|Hin].
    + exists x. simpl. auto.
    + destruct (IH _ _ Hbs Hin) as (x' & Hx' & Hf).
      exists x'. simpl. auto.
Qed.

(** A finding comes from a match of the URL pattern in the text. *)
Lemma extract_urls_finding (chk : str -> option string) (text : str)
      (findings : list UrlFinding) (f : UrlFinding) :
  Detector.extract_urls chk text = Ok findings ->
  In f findings ->
  Re.matches Re.no_flags Detector.url_pattern (url f)
  /\ Detector._has_suspicious_tld chk (url f) = Ok (suspicious_tld f).
Proof.
  unfold Detector.extract_urls. intros H Hin.
  destruct (mapM_in _ _ _ H Hin) as (u & Hu & Hf).
  apply findall_sound in Hu.
  unfold Detector.analyze_url in Hf. apply bind_ok in Hf.
  destruct Hf as (b & Hb & Hf). inversion Hf; subst; clear Hf.
  simpl. auto.
Qed.

(** C10 (amended).  A URL of the www form that does not read [s://t]
    with [s] made of scheme characters only has an empty network location
    and its TLD is not flagged: so it is for [www.example.xyz], and for
    [www.x.com/?u=http://evil.xyz], where [://] comes after a slash.  A
    URL of the www form that reads [s://authority rest], with [s] of
    scheme characters, [authority] free of slash, question mark, hash and
    brackets, and [rest] empty or beginning with one of the three, has
    the network location [authority], and is flagged exactly when
    [authority] ends with one of the six suffixes.  The findings of
    [extract_urls] whose URL begins with neither [http://] nor [https://]
    are of the www form and carry that flag. *)
Theorem www_url_tld_flag :
  (forall (chk : str -> option string) (u : str),
      Re.matches Re.no_flags Detector.www_alternative u ->
      ~ Spec.has_scheme_prefix u ->
      UrlParse.netloc chk u = Ok []
      /\ Detector._has_suspicious_tld chk u = Ok false)
  /\ (forall (chk : str -> option string) (s authority rest : str),
         let u := s ++ lit "://" ++ authority ++ rest in
         Re.matches Re.no_flags Detector.www_alternative u ->
         (forall c : ascii, In c s -> In c Spec.scheme_chars) ->
         forallb (fun c => negb (PyStr.eqb_char c "/" || PyStr.eqb_char c "?"
                                 || PyStr.eqb_char c "#")%bool) authority
         = true ->
         PyStr.has_char "[" authority = false ->
         PyStr.has_char "]" authority = false ->
         match rest with
         | [] => True
         | c :: _ => (PyStr.eqb_char c "/" || PyStr.eqb_char c "?"
                      || PyStr.eqb_char c "#")%bool = true
         end ->
         UrlParse.netloc chk u = Ok authority
         /\ (Detector._has_suspicious_tld chk u = Ok true
             <-> exists tld h : str,
                   In tld Detector.suspicious_tlds /\ authority = h ++ tld)
         /\ (Detector._has_suspicious_tld chk u = Ok true
             \/ Detector._has_suspicious_tld chk u = Ok false))
  /\ (forall (chk : str -> option string) (text : str)
             (findings : list UrlFinding) (f : UrlFinding),
         Detector.extract_urls chk text = Ok findings ->
         In f findings ->
         PyStr.startswith (lit "http://") (url f) = false ->
         PyStr.startswith (lit "https://") (url f) = false ->
         Re.matches Re.no_flags Detector.www_alternative (url f)
         /\ Detector._has_suspicious_tld chk (url f) = Ok (suspicious_tld f)
         /\ (~ Spec.has_scheme_prefix (url f) -> suspicious_tld f = false))
  /\ (forall chk : str -> option string,
         Detector._has_suspicious_tld chk www_plain = Ok false
         /\ Detector._has_suspicious_tld chk www_with_query = Ok false
         /\ Detector._has_suspicious_tld chk www_with_authority = Ok true).
Proof.
  split; [|split; [|split]].
  - intros chk u Hm Hc.
    split; [exact (netloc_www chk Hm Hc)
           |exact (has_suspicious_tld_www chk Hm Hc)].
  - intros chk s authority rest u Hm Hs Ha Hl Hr Hrest.
    pose proof (@netloc_www_scheme chk s authority rest Hm Hs Ha Hl Hr Hrest)
      as Hn.
    split; [exact Hn|].
    unfold Detector._has_suspicious_tld. fold u in Hn. rewrite Hn.
    cbn [bind].
    pose proof (existsb_exists (fun tld => PyStr.endswith tld authority)
                               Detector.suspicious_tlds) as Hex.
    set (b := existsb (fun tld => PyStr.endswith tld authority)
                      Detector.suspicious_tlds) in *.
    split.
    + split.
      * intros H. assert (E : b = true) by congruence.
        apply Hex in E. destruct E as (tld & Hin & He).
        apply endswith_iff in He. destruct He as [h He]. exists tld, h. auto.
      * intros (tld & h & Hin & He). f_equal. apply Hex.
        exists tld. split; [exact Hin|]. apply endswith_iff. eauto.
    + destruct b; auto.
  - intros chk text findings f H Hin H1 H2.
    destruct (@extract_urls_finding chk text findings f H Hin) as [Hm Ht].
    assert (Hw : Re.matches Re.no_flags Detector.www_alternative (url f)).
    { unfold Detector.url_pattern in Hm.
      inversion Hm as [| | |r1 r2 s Hs|r1 r2 s Hs| |]; subst; [|exact Hs].
      apply http_alternative_language in Hs. rewrite H1, H2 in Hs.
      destruct Hs; discriminate. }
    split; [exact Hw|]. split; [exact Ht|].
    intros Hc. rewrite (has_suspicious_tld_www chk Hw Hc) in Ht.
    inversion Ht. reflexivity.
  - intros chk. repeat split; vm_compute; reflexivity.
Qed.

(** C10 at [www.example.xyz], which does not read [s://t], and at
    [www.a://b.xyz], which does. *)
Lemma www_url_tld_flag_witness :
  Re.matches Re.no_flags Detector.www_alternative www_plain
  /\ ~ Spec.has_scheme_prefix www_plain
  /\ Detector._has_suspicious_tld (fun _ => None) www_plain = Ok false
  /\ Re.matches Re.no_flags Detector.www_alternative
       (lit "www.a" ++ lit "://" ++ lit "b.xyz" ++ [])
  /\ UrlParse.netloc (fun _ => None)
       (lit "www.a" ++ lit "://" ++ lit "b.xyz" ++ []) = Ok (lit "b.xyz").
Proof.
  assert (Hm : Re.matches Re.no_flags Detector.www_alternative www_plain).
  { assert (E : Re.match_at Re.no_flags Detector.www_alternative www_plain
                = Some (www_plain, [], []))
      by (vm_compute; reflexivity).
    exact (proj2 (match_at_sound _ _ _ E)). }
  assert (Hc : ~ Spec.has_scheme_prefix www_plain).
  { intros (s & t & E & _).
    assert (Hin : In ":"%char www_plain)
      by (rewrite E; apply in_or_app; right; left; reflexivity).
    vm_compute in Hin. intuition discriminate. }
  assert (Hm' : Re.matches Re.no_flags Detector.www_alternative
                  (lit "www.a" ++ lit "://" ++ lit "b.xyz" ++ [])).
  { assert (E : Re.match_at Re.no_flags Detector.www_alternative
                  www_with_authority
                = Some (www_with_authority, [], []))
      by (vm_compute; reflexivity).
    exact (proj2 (match_at_sound _ _ _ E)). }
  split; [exact Hm|]. split; [exact Hc|].
  split; [exact (proj2 (proj1 www_url_tld_flag (fun _ => None) www_plain
                          Hm Hc))|].
  split; [exact Hm'|].
  refine (proj1 (proj1 (proj2 www_url_tld_flag) (fun _ => None)
                   (lit "www.a") (lit "b.xyz") [] Hm' _ eq_refl eq_refl
                   eq_refl I)).
  intros c Hin. vm_compute in Hin. vm_compute.
  repeat (destruct Hin as [<-|Hin]; [auto 70|]). contradiction.
Defined.

(** C10, as stated, fails on a URL of the www form that has [://] after a
    run of scheme characters: the text before [://] is taken for a scheme,
    the text after it for the network location, and the TLD is flagged. *)
Lemma www_url_flagged :
  Re.matches Re.no_flags Detector.www_alternative www_with_authority
  /\ PyStr.startswith (lit "http://") www_with_authority = false
  /\ PyStr.startswith (lit "https://") www_with_authority = false
  /\ UrlParse.netloc (fun _ => None) www_with_authority = Ok (lit "b.xyz")
  /\ exists f : UrlFinding,
       Detector.extract_urls (fun _ => None) www_with_authority = Ok [f]
       /\ url f = www_with_authority
       /\ suspicious_tld f = true.
Proof.
  split.
  { assert (E : Re.match_at Re.no_flags Detector.www_alternative
                  www_with_authority
                = Some (www_with_authority, [], []))
      by (vm_compute; reflexivity).
    exact (proj2 (match_at_sound _ _ _ E)). }
  split; [reflexivity|]. split; [reflexivity|].
  split; [vm_compute; reflexivity|].
  eexists. split; [vm_compute; reflexivity|]. split; reflexivity.
Qed.

(** ** The metadata extractor *)

(** A match of a header pattern: the name in any case, whitespace, and a
    capture that runs to the end of its line. *)
Lemma header_match_at (name : string) (s t rest : str) (g : Re.groups) :
  Re.match_at Re.I
              (Re.Seq [Re.Text name; Re.Star true (Re.Single Re.ASpace);
                       Re.Group 1 (Re.Plus Re.Dot)]) s
  = Some (t, rest, g) ->
  exists head ws capture : str,
    t = head ++ ws ++ capture
    /\ PyStr.lower head = PyStr.lower (lit name)
    /\ forallb PyStr.isspace ws = true
    /\ capture <> []
    /\ forallb (fun c => negb (PyStr.eqb_char c LF)) capture = true
    /\ Spec.at_line_end rest
    /\ Re.group 1 g = Some capture.
Proof.
  unfold Re.match_at, Re.Seq, Re.Text. cbn [fold_right]. intros H.
  apply run_cat_sound in H. destruct H as (head & b1 & g1 & E1 & M1 & H).
  apply run_cat_sound in H. destruct H as (ws & b2 & g2 & E2 & M2 & H).
  apply matches_lit_lower in M1.
  inversion M2 as [| | | | |gr cs x Hws|]; subst gr cs x.
  apply run_group_plus in H; [|intros s' g'; discriminate].
  destruct H as (capture & s2 & E3 & Hne & Hcap & Hnext & H).
  inversion H; subst; clear H.
  exists head, ws, capture.
  split.
  { replace (head ++ ws ++ capture ++ rest)
      with ((head ++ ws ++ capture) ++ rest)
      by (repeat rewrite <- app_assoc; reflexivity).
    apply firstn_length_app. }
  split; [exact M1|]. split; [exact Hws|]. split; [exact Hne|].
  split; [exact Hcap|]. split; [|reflexivity].
  destruct rest as [|c rest]; simpl; [exact I|].
  change (negb (PyStr.eqb_char c LF) = false) in Hnext.
  apply negb_false_iff in Hnext. apply eqb_char_eq in Hnext. exact Hnext.
Qed.

Lemma header_search (name : string) (raw : str) :
  let pattern :=
    Re.Seq [Re.Text name; Re.Star true (Re.Single Re.ASpace);
            Re.Group 1 (Re.Plus Re.Dot)] in
  match Re.search Re.I pattern raw with
  | Some m =>
      Spec.header_capture name pattern raw (PyStr.strip (Re.group_of 1 m))
  | None => ~ Re.occurs Re.I pattern raw
  end.
Proof.
  intros pattern.
  destruct (Re.search Re.I pattern raw) as [m|] eqn:E.
  - apply search_from_first in E.
    destruct E as (pre & rest & Et & Hm & Hfirst).
    destruct (header_match_at _ _ Hm)
      as (head & ws & capture & Etext & Hh & Hws & Hne & Hcap & Hend & Hg).
    exists pre, head, ws, capture, rest.
    rewrite Etext in Et, Hfirst.
    repeat rewrite <- app_assoc in Et, Hfirst.
    split; [exact Et|]. split; [exact Hh|]. split; [exact Hws|].
    split; [exact Hne|]. split; [exact Hcap|]. split; [exact Hend|].
    split; [exact Hfirst|].
    unfold Re.group_of. rewrite Hg. reflexivity.
  - apply search_none_iff. exact E.
Qed.

Lemma no_line_feed (line : str) :
  ~ In LF line ->
  forallb (Re.accepts Re.I Re.Dot) line = true.
Proof.
  induction line as [|c line IH]; intros H; [reflexivity|].
  cbn [forallb]. rewrite IH by (intros Hin; apply H; right; exact Hin).
  rewrite andb_true_r.
  change (negb (PyStr.eqb_char c LF) = true). apply negb_true_iff.
  destruct (PyStr.eqb_char c LF) eqn:E; [|reflexivity].
  apply eqb_char_eq in E. exfalso. apply H. left. subst c. reflexivity.
Qed.

(** The header pattern at a header name that whitespace and a line
    follow: the whitespace is skipped, line feeds included, and the
    capture is the line. *)
Lemma header_match_head (name : string) (head ws line rest : str) :
  PyStr.lower head = PyStr.lower (lit name) ->
  forallb PyStr.isspace ws = true ->
  line <> [] ->
  Spec.no_space_ahead line ->
  ~ In LF line ->
  Spec.at_line_end rest ->
  exists t : str,
    Re.match_at Re.I
                (Re.Seq [Re.Text name; Re.Star true (Re.Single Re.ASpace);
                         Re.Group 1 (Re.Plus Re.Dot)])
                (head ++ ws ++ line ++ rest)
    = Some (t, rest, [(1%nat, line)]).
Proof.
  intros Hhead Hws Hne Hline Hlf Hrest.
  set (raw := head ++ ws ++ line ++ rest).
  set (k0 := fun (rest' : str) (g : Re.groups) =>
               Some (firstn (length raw - length rest') raw, rest', g)).
  set (K := fun (s1 : str) (g1 : Re.groups) =>
              Re.run Re.I (Re.Cat (Re.Group 1 (Re.Plus Re.Dot)) Re.Eps)
                     s1 g1 k0).
  assert (HK : exists t : str,
             K (line ++ rest) [] = Some (t, rest, [(1%nat, line)])).
  { destruct (K (line ++ rest) []) as [x|] eqn:E.
    - unfold K in E. apply run_group_plus in E; [|intros; discriminate].
      destruct E as (run_ & rest' & E & _ & Hrun & Hnext & Hx).
      destruct (@split_unique (Re.accepts Re.I Re.Dot) line run_ rest rest')
        as [<- <-].
      + apply no_line_feed. exact Hlf.
      + exact Hrun.
      + destruct rest as [|c rest]; [exact I|]. simpl in Hrest. subst c.
        reflexivity.
      + exact Hnext.
      + exact E.
      + unfold k0 in Hx. inversion Hx. eexists. reflexivity.
    - exfalso. revert E. unfold K.
      replace (line ++ rest) with ((line ++ []) ++ rest)
        by (rewrite app_nil_r; reflexivity).
      apply run_complete; [|intros; discriminate].
      apply Re.M_Cat; [|apply Re.M_Eps]. apply Re.M_Group.
      apply matches_plus_intro; [exact Hne|apply no_line_feed; exact Hlf]. }
  destruct HK as (t & HK). exists t.
  unfold Re.match_at, Re.Seq, Re.Text. cbn [fold_right].
  change (Re.run Re.I (Re.Lit (lit name)) raw []
            (fun s1 g1 =>
               Re.star Re.I true (Re.Single Re.ASpace) s1 g1 K)
          = Some (t, rest, [(1%nat, line)])).
  unfold raw. erewrite run_lit_lower by exact Hhead.
  apply star_greedy_commit; [exact Hws| |exact HK].
  destruct line as [|c line]; [contradiction|]. exact Hline.
Qed.

Lemma lstrip_split (s : str) :
  exists l : str, s = l ++ PyStr.lstrip s /\ forallb PyStr.isspace l = true.
Proof.
  induction s as [|c s IH]; simpl.
  - exists []. auto.
  - destruct (PyStr.isspace c) eqn:E.
    + destruct IH as (l & Hl & Hall). exists (c :: l). simpl.
      rewrite E, Hall, <- Hl. auto.
    + exists []. auto.
Qed.

Lemma lstrip_head (s : str) (c : ascii) (rest : str) :
  PyStr.lstrip s = c :: rest -> PyStr.isspace c = false.
Proof.
  induction s as [|x s IH]; simpl; [discriminate|].
  destruct (PyStr.isspace x) eqn:E; [exact IH|].
  intros H. inversion H; subst. exact E.
Qed.

Lemma lstrip_fixed (s : str) :
  (forall c rest, s = c :: rest -> PyStr.isspace c = false) ->
  PyStr.lstrip s = s.
Proof.
  destruct s as [|c s]; [reflexivity|]. intros H. simpl.
  rewrite (H c s eq_refl). reflexivity.
Qed.

Lemma lstrip_idempotent (s : str) :
  PyStr.lstrip (PyStr.lstrip s) = PyStr.lstrip s.
Proof.
  apply lstrip_fixed. intros c rest H. exact (lstrip_head _ H).
Qed.

Lemma rstrip_split (s : str) :
  exists r : str, s = PyStr.rstrip s ++ r /\ forallb PyStr.isspace r = true.
Proof.
  unfold PyStr.rstrip. destruct (lstrip_split (rev s)) as (l & Hl & Hall).
  exists (rev l). split.
  - rewrite <- rev_app_distr, <- Hl. symmetry. apply rev_involutive.
  - rewrite forallb_forall in *. intros x Hx. apply Hall.
    apply in_rev. exact Hx.
Qed.

Lemma rstrip_last (s : str) (c : ascii) (init : str) :
  PyStr.rstrip s = init ++ [c] -> PyStr.isspace c = false.
Proof.
  unfold PyStr.rstrip. intros H. apply (f_equal (@rev ascii)) in H.
  rewrite rev_involutive, rev_app_distr in H. simpl in H.
  exact (lstrip_head _ H).
Qed.

Lemma strip_fixed (s : str) : PyStr.strip (PyStr.strip s) = PyStr.strip s.
Proof.
  unfold PyStr.strip.
  assert (Hl : PyStr.lstrip (PyStr.rstrip (PyStr.lstrip s))
               = PyStr.rstrip (PyStr.lstrip s)).
  { apply lstrip_fixed. intros c rest H.
    destruct (rstrip_split (PyStr.lstrip s)) as (r & Hr & _).
    rewrite H in Hr. simpl in Hr. exact (lstrip_head _ Hr). }
  rewrite Hl. unfold PyStr.rstrip at 1 2. rewrite rev_involutive.
  rewrite lstrip_idempotent. reflexivity.
Qed.

Lemma strip_incl (s : str) (x : ascii) : In x (PyStr.strip s) -> In x s.
Proof.
  unfold PyStr.strip. intros H.
  destruct (rstrip_split (PyStr.lstrip s)) as (r & Hr & _).
  destruct (lstrip_split s) as (l & Hl & _).
  rewrite Hl. apply in_or_app. right. rewrite Hr. apply in_or_app. left.
  exact H.
Qed.

Lemma strip_ends (s : str) :
  (forall c rest, PyStr.strip s = c :: rest -> PyStr.isspace c = false)
  /\ (forall c init, PyStr.strip s = init ++ [c] -> PyStr.isspace c = false).
Proof.
  split.
  - intros c rest H. unfold PyStr.strip in H.
    destruct (rstrip_split (PyStr.lstrip s)) as (r & Hr & _).
    rewrite H in Hr. simpl in Hr. exact (lstrip_head _ Hr).
  - intros c init H. unfold PyStr.strip in H. eapply rstrip_last. exact H.
Qed.


Lemma strip_identity (s : str) :
  Spec.no_space_ahead s ->
  (forall (c : ascii) (init : str),
      s = init ++ [c] -> PyStr.isspace c = false) ->
  PyStr.strip s = s.
Proof.
  intros Hhead Hlast. unfold PyStr.strip.
  assert (El : PyStr.lstrip s = s).
  { destruct s as [|c s]; [reflexivity|]. simpl in Hhead. simpl.
    rewrite Hhead. reflexivity. }
  rewrite El. unfold PyStr.rstrip.
  destruct (rev s) as [|c r] eqn:Er.
  - apply (f_equal (@rev ascii)) in Er. rewrite rev_involutive in Er.
    rewrite Er. reflexivity.
  - apply (f_equal (@rev ascii)) in Er. rewrite rev_involutive in Er.
    simpl in Er. cbn [PyStr.lstrip]. rewrite (Hlast c (rev r) Er).
    simpl. symmetry. exact Er.
Qed.

Lemma lower_app (a b : str) :
  PyStr.lower (a ++ b) = PyStr.lower a ++ PyStr.lower b.
Proof. unfold PyStr.lower. apply map_app. Qed.

(** [k in s.lower()] holds exactly when a piece of [s] lowers to [k]. *)
Lemma contains_lower_iff (k s : str) :
  PyStr.contains k (PyStr.lower s) = true <-> Spec.occurs_ci k s.
Proof.
  rewrite contains_iff. unfold Spec.occurs_ci. split.
  - intros (pre & post & E). unfold PyStr.lower in E.
    apply map_eq_app in E. destruct E as (pre0 & r & -> & Hpre & E).
    apply map_eq_app in E. destruct E as (m & post0 & -> & Hm & Hpost).
    exists pre0, m, post0. auto.
  - intros (pre & m & post & -> & Hm).
    exists (PyStr.lower pre), (PyStr.lower post).
    rewrite !lower_app, Hm. reflexivity.
Qed.


(** *** Trimming *)

Lemma lstrip_app_space (l x : str) :
  forallb PyStr.isspace l = true -> PyStr.lstrip (l ++ x) = PyStr.lstrip x.
Proof.
  induction l as [|c l IH]; intros H; [reflexivity|].
  cbn [forallb] in H. apply andb_true_iff in H. destruct H as [Hc H].
  cbn [app PyStr.lstrip]. rewrite Hc. exact (IH H).
Qed.

Lemma lstrip_all_space (l : str) :
  forallb PyStr.isspace l = true -> PyStr.lstrip l = [].
Proof.
  intros H. rewrite <- (app_nil_r l). rewrite (@lstrip_app_space l [] H).
  reflexivity.
Qed.

Lemma forallb_rev (p : ascii -> bool) (l : str) :
  forallb p l = true -> forallb p (rev l) = true.
Proof.
  rewrite !forallb_forall. intros H x Hx. apply H. apply in_rev. exact Hx.
Qed.

(** [strip] computes the trimmed text. *)
Lemma strip_trimmed (s value : str) :
  Spec.trimmed s value -> PyStr.strip s = value.
Proof.
  intros (l & r & -> & Hl & Hr & Hhead & Hend).
  unfold PyStr.strip. rewrite (@lstrip_app_space l (value ++ r) Hl).
  destruct value as [|c value].
  - cbn [app]. rewrite (@lstrip_all_space r Hr). reflexivity.
  - cbn [app PyStr.lstrip]. simpl in Hhead. rewrite Hhead.
    unfold PyStr.rstrip.
    change (c :: value ++ r) with ((c :: value) ++ r).
    rewrite rev_app_distr.
    rewrite (@lstrip_app_space (rev r) _ (@forallb_rev PyStr.isspace r Hr)).
    destruct (rev (c :: value)) as [|x t] eqn:E.
    + apply (f_equal (@rev ascii)) in E. rewrite rev_involutive in E.
      discriminate.
    + assert (E' : c :: value = rev t ++ [x]).
      { apply (f_equal (@rev ascii)) in E. rewrite rev_involutive in E.
        exact E. }
      cbn [PyStr.lstrip]. rewrite (Hend (rev t) x E'). simpl. symmetry.
      exact E'.
Qed.

Lemma trimmed_strip (s : str) : Spec.trimmed s (PyStr.strip s).
Proof.
  destruct (lstrip_split s) as (l & Hl & Hlw).
  destruct (rstrip_split (PyStr.lstrip s)) as (r & Hr & Hrw).
  exists l, r. fold (PyStr.strip s) in Hr.
  split; [rewrite <- Hr; exact Hl|]. split; [exact Hlw|].
  split; [exact Hrw|].
  destruct (strip_ends s) as [H1 H2]. split.
  - destruct (PyStr.strip s) as [|c t] eqn:E; [exact I|].
    exact (H1 c t eq_refl).
  - intros init c E. exact (H2 c init E).
Qed.

Lemma trimmed_nil (value : str) : Spec.trimmed [] value -> value = [].
Proof.
  intros (l & r & E & _). symmetry in E.
  apply app_eq_nil in E. destruct E as [_ E].
  apply app_eq_nil in E. tauto.
Qed.

(** *** The first occurrence of a header name *)

Lemma app_suffix (x y s t : str) :
  x ++ s = y ++ t -> (length x <= length y)%nat ->
  exists z : str, s = z ++ t /\ y = x ++ z.
Proof.
  revert y. induction x as [|a x IH]; intros y E Hl.
  - exists y. auto.
  - destruct y as [|b y]; [simpl in Hl; lia|].
    simpl in E, Hl. inversion E; subst.
    destruct (IH y ltac:(assumption) ltac:(lia)) as (z & Hz & ->).
    exists z. auto.
Qed.

Lemma occurs_at_head_dec (k raw : str) :
  {exists h b : str, raw = h ++ b /\ PyStr.lower h = k}
  + {~ exists h b : str, raw = h ++ b /\ PyStr.lower h = k}.
Proof.
  destruct (list_eq_dec ascii_dec
              (PyStr.lower (firstn (length k) raw)) k) as [E|E].
  - left. exists (firstn (length k) raw), (skipn (length k) raw).
    split; [symmetry; apply firstn_skipn|exact E].
  - right. intros (h & b & -> & Hh). apply E.
    assert (Hl : length h = length k) by (exact (@lower_length _ _ Hh)).
    rewrite <- Hl. rewrite firstn_app, Nat.sub_diag, firstn_all. simpl.
    rewrite app_nil_r. exact Hh.
Qed.

Lemma first_occurrence_exists (k raw : str) :
  Spec.occurs_ci k raw ->
  exists pre head after : str, Spec.first_occurrence_ci k raw pre head after.
Proof.
  induction raw as [|c raw IH]; intros Ho.
  - destruct Ho as (pre & m & post & E & Hm).
    symmetry in E. apply app_eq_nil in E. destruct E as [-> E].
    apply app_eq_nil in E. destruct E as [-> ->].
    exists [], [], []. split; [reflexivity|]. split; [exact Hm|].
    intros. simpl. lia.
  - destruct (occurs_at_head_dec k (c :: raw)) as [(h & b & E & Hh)|Hn].
    + exists [], h, b. split; [exact E|]. split; [exact Hh|].
      intros. simpl. lia.
    + assert (Ho' : Spec.occurs_ci k raw).
      { destruct Ho as ([|x pre] & m & post & E & Hm).
        - exfalso. apply Hn. exists m, post. auto.
        - inversion E; subst. exists pre, m, post. auto. }
      destruct (IH Ho') as (pre & head & after & E & Hh & Hmin).
      exists (c :: pre), head, after.
      split; [rewrite E; reflexivity|]. split; [exact Hh|].
      intros [|x a] h b Ea Hl.
      * exfalso. apply Hn. exists h, b. auto.
      * inversion Ea; subst. simpl.
        apply le_n_S. exact (Hmin a h b ltac:(assumption) Hl).
Qed.

Section HeaderField.

Variable name : string.

(** Where the header pattern matches, the name occurs, and what it
    captures lies after the name. *)
Lemma header_match_parts (s t rest : str) (g : Re.groups) :
  Re.match_at Re.I (Utils.header_pattern name) s = Some (t, rest, g) ->
  exists head ws capture : str,
    s = head ++ ws ++ capture ++ rest
    /\ PyStr.lower head = PyStr.lower (lit name)
    /\ forallb PyStr.isspace ws = true
    /\ capture <> []
    /\ ~ In LF capture
    /\ Re.group 1 g = Some capture.
Proof.
  intros E. pose proof E as Et. apply match_at_sound in Et.
  destruct Et as [Et _].
  destruct (@header_match_at name s t rest g E)
    as (head & ws & capture & -> & Hh & Hws & Hne & Hcap & _ & Hg).
  exists head, ws, capture.
  split; [rewrite Et; repeat rewrite <- app_assoc; reflexivity|].
  split; [exact Hh|]. split; [exact Hws|]. split; [exact Hne|].
  split; [|exact Hg].
  intros Hin. rewrite forallb_forall in Hcap. specialize (Hcap LF Hin).
  rewrite eqb_char_refl in Hcap. discriminate.
Qed.

Lemma header_no_occurrence (raw : str) :
  ~ Spec.occurs_ci (PyStr.lower (lit name)) raw ->
  Re.search Re.I (Utils.header_pattern name) raw = None.
Proof.
  intros Hn.
  destruct (Re.search Re.I (Utils.header_pattern name) raw) as [m|] eqn:E;
    [|reflexivity].
  exfalso. apply Hn. apply search_from_first in E.
  destruct E as (pre & rest & Et & Hm & _).
  destruct (@header_match_parts _ _ _ _ Hm)
    as (head & ws & capture & E & Hh & _).
  exists pre, head, (ws ++ capture ++ rest).
  split; [rewrite Et, E; reflexivity|exact Hh].
Qed.

(** The search starts its match at the first occurrence of the name. *)
Lemma header_first_occurrence (raw pre head after : str) :
  Spec.first_occurrence_ci (PyStr.lower (lit name)) raw pre head after ->
  Re.search Re.I (Utils.header_pattern name) raw
  = Re.search_from Re.I (Utils.header_pattern name) (length pre)
                   (head ++ after).
Proof.
  intros (-> & Hh & Hmin). unfold Re.search. apply search_from_skip.
  intros pre1 c pre2 E.
  destruct (Re.match_at Re.I (Utils.header_pattern name)
                        ((c :: pre2) ++ head ++ after))
    as [[[t rest] g]|] eqn:Em; [|reflexivity].
  exfalso.
  destruct (@header_match_parts _ _ _ _ Em)
    as (h & ws & capture & E' & Hh' & _).
  specialize (Hmin pre1 h (ws ++ capture ++ rest)).
  rewrite E in Hmin. rewrite <- app_assoc in Hmin.
  specialize (Hmin ltac:(rewrite <- E'; reflexivity) Hh').
  rewrite length_app in Hmin. simpl in Hmin. lia.
Qed.

(** Nothing is captured when line feeds only follow the name. *)
Lemma header_only_line_feeds (head after : str) (pos : nat) :
  PyStr.lower head = PyStr.lower (lit name) ->
  Spec.only_line_feeds after ->
  Re.search_from Re.I (Utils.header_pattern name) pos (head ++ after) = None.
Proof.
  intros Hh Hlf.
  destruct (Re.search_from Re.I (Utils.header_pattern name) pos
                           (head ++ after)) as [m|] eqn:E;
    [|reflexivity].
  exfalso. apply search_from_first in E.
  destruct E as (pre' & rest' & Et & Hm & _).
  destruct (@header_match_parts _ _ _ _ Hm)
    as (h & ws & capture & E & Hh' & _ & Hne & Hcap & _).
  rewrite E in Et.
  replace (pre' ++ h ++ ws ++ capture ++ rest')
    with ((pre' ++ h) ++ ws ++ capture ++ rest') in Et
    by (rewrite <- app_assoc; reflexivity).
  apply app_suffix in Et.
  - destruct Et as (z & Ea & _).
    destruct capture as [|c capture]; [contradiction|].
    apply Hcap. left. apply Hlf. rewrite Ea.
    apply in_or_app. right. apply in_or_app. right. left. reflexivity.
  - rewrite length_app, (@lower_length _ _ Hh), (@lower_length _ _ Hh').
    lia.
Qed.

Lemma not_only_line_feeds (after : str) :
  ~ Spec.only_line_feeds after ->
  exists (w1 : str) (c : ascii) (w2 : str),
    after = w1 ++ c :: w2 /\ c <> LF.
Proof.
  induction after as [|x after IH]; intros H.
  - exfalso. apply H. intros c [].
  - destruct (ascii_dec x LF) as [->|Hx].
    + destruct IH as (w1 & c & w2 & -> & Hc).
      { intros Hall. apply H. intros c [<-|Hc]; [reflexivity|].
        exact (Hall c Hc). }
      exists (LF :: w1), c, w2. auto.
    + exists [], x, after. auto.
Qed.

(** At the name the pattern matches as soon as something other than
    line feeds follows, and the trimmed capture is the header value. *)
Lemma header_value_match (head after value : str) :
  PyStr.lower head = PyStr.lower (lit name) ->
  ~ Spec.only_line_feeds after ->
  Spec.header_value after value ->
  exists (t rest capture : str) (g : Re.groups),
    Re.match_at Re.I (Utils.header_pattern name) (head ++ after)
    = Some (t, rest, g)
    /\ Re.group 1 g = Some capture
    /\ PyStr.strip capture = value.
Proof.
  intros Hh Hnl (ws & line & rest & -> & Hws & Hahead & Hlf & Hend & Htrim).
  destruct line as [|c line].
  - (* only whitespace follows the name *)
    assert (Er : rest = []).
    { destruct rest as [|x rest]; [reflexivity|].
      simpl in Hahead, Hend. subst x. discriminate. }
    subst rest. apply trimmed_nil in Htrim. subst value.
    cbn [app] in *. rewrite app_nil_r in *.
    destruct (@not_only_line_feeds ws Hnl) as (w1 & c & w2 & E & Hc).
    assert (Hw1 : forallb PyStr.isspace w1 = true).
    { rewrite E, forallb_app in Hws. apply andb_true_iff in Hws. tauto. }
    assert (Hm : Re.matches Re.I (Utils.header_pattern name)
                            (head ++ w1 ++ [c] ++ [])).
    { unfold Utils.header_pattern, Re.Seq, Re.Text. cbn [fold_right].
      apply Re.M_Cat; [apply matches_lit_lower_intro; exact Hh|].
      apply Re.M_Cat; [apply Re.M_Star; exact Hw1|].
      apply Re.M_Cat; [|apply Re.M_Eps]. apply Re.M_Group.
      apply matches_plus_intro; [discriminate|].
      apply no_line_feed. intros [Hin|[]]. exact (Hc Hin). }
    apply (@match_at_complete Re.I (Utils.header_pattern name) _ w2) in Hm.
    replace ((head ++ w1 ++ [c] ++ []) ++ w2) with (head ++ ws) in Hm
      by (rewrite E; repeat rewrite <- app_assoc; reflexivity).
    destruct (Re.match_at Re.I (Utils.header_pattern name) (head ++ ws))
      as [[[t rest'] g]|] eqn:Em; [|contradiction].
    destruct (@header_match_parts _ _ _ _ Em)
      as (h & ws' & capture & Et & Hh' & _ & _ & _ & Hg).
    exists t, rest', capture, g. split; [reflexivity|]. split; [exact Hg|].
    apply strip_trimmed. exists capture, []. rewrite app_nil_r.
    split; [reflexivity|]. split; [|split; [reflexivity|split; [exact I|]]].
    + apply app_suffix in Et;
        [|rewrite (@lower_length _ _ Hh), (@lower_length _ _ Hh'); lia].
      destruct Et as (z & Ea & Ez).
      assert (Hz : z = []).
      { apply (f_equal (@length ascii)) in Ez.
        rewrite length_app, (@lower_length _ _ Hh), (@lower_length _ _ Hh')
          in Ez.
        destruct z; [reflexivity|simpl in Ez; lia]. }
      subst z. cbn [app] in Ea.
      rewrite Ea, !forallb_app in Hws.
      apply andb_true_iff in Hws. destruct Hws as [_ Hws].
      apply andb_true_iff in Hws. tauto.
    + intros init x Ex. destruct init; discriminate.
  - (* a line follows the whitespace *)
    destruct (@header_match_head name head ws (c :: line) rest Hh Hws
                ltac:(discriminate) Hahead Hlf Hend) as [t Hm].
    exists t, rest, (c :: line), [(1%nat, c :: line)].
    split; [exact Hm|]. split; [reflexivity|].
    apply strip_trimmed. exact Htrim.
Qed.

Lemma first_line (s : str) :
  exists line rest : str,
    s = line ++ rest /\ ~ In LF line /\ Spec.at_line_end rest.
Proof.
  induction s as [|c s IH].
  - exists [], []. split; [reflexivity|]. split; [intros []|exact I].
  - destruct (ascii_dec c LF) as [->|Hc].
    + exists [], (LF :: s). split; [reflexivity|].
      split; [intros []|reflexivity].
    + destruct IH as (line & rest & -> & Hl & Hr).
      exists (c :: line), rest. split; [reflexivity|]. split; [|exact Hr].
      intros [E|Hin]; [exact (Hc E)|exact (Hl Hin)].
Qed.

Lemma header_value_exists (after : str) :
  exists value : str, Spec.header_value after value.
Proof.
  destruct (lstrip_split after) as (ws & Ea & Hws).
  destruct (first_line (PyStr.lstrip after)) as (line & rest & El & Hl & Hr).
  exists (PyStr.strip line), ws, line, rest.
  split; [rewrite <- El; exact Ea|]. split; [exact Hws|].
  split.
  { rewrite <- El. destruct (PyStr.lstrip after) as [|c t] eqn:E; [exact I|].
    exact (@lstrip_head after c t E). }
  split; [exact Hl|]. split; [exact Hr|apply trimmed_strip].
Qed.

(** The value [extract_metadata] gives a field whose pattern is the
    header pattern of [name]. *)
Lemma header_field (default raw : str) :
  let field :=
    match Re.search Re.I (Utils.header_pattern name) raw with
    | Some m => PyStr.strip (Re.group_of 1 m)
    | None => default
    end in
  (~ Spec.occurs_ci (PyStr.lower (lit name)) raw -> field = default)
  /\ (forall pre head after : str,
         Spec.first_occurrence_ci (PyStr.lower (lit name)) raw pre head after ->
         (Spec.only_line_feeds after -> field = default)
         /\ (~ Spec.only_line_feeds after ->
             forall value : str,
               Spec.header_value after value -> field = value)).
Proof.
  intros field. split.
  - intros Hn. unfold field. rewrite (@header_no_occurrence raw Hn).
    reflexivity.
  - intros pre head after Hfirst.
    pose proof Hfirst as (_ & Hh & _).
    unfold field.
    rewrite (@header_first_occurrence raw pre head after Hfirst). split.
    + intros Hlf.
      rewrite (@header_only_line_feeds head after (length pre) Hh Hlf).
      reflexivity.
    + intros Hnl value Hv.
      destruct (@header_value_match head after value Hh Hnl Hv)
        as (t & rest & capture & g & Hm & Hg & Hs).
      erewrite search_from_at by exact Hm.
      unfold Re.group_of. cbn [Re.m_groups]. rewrite Hg. exact Hs.
Qed.

End HeaderField.

(** *** Links *)

Lemma url_char_iff (c : ascii) :
  Re.accepts Re.no_flags Detector.url_chars c = true
  <-> PyStr.isspace c = false
      /\ c <> "<"%char /\ c <> ">"%char /\ c <> dq.
Proof.
  unfold Detector.url_chars. cbn [Re.accepts existsb Re.atom_accepts
    Re.IGNORECASE Re.no_flags].
  rewrite negb_true_iff, !orb_false_iff. split.
  - intros (Hs & H1 & H2 & H3 & _). split; [exact Hs|].
    repeat split; intros ->; rewrite eqb_char_refl in *; discriminate.
  - intros (Hs & H1 & H2 & H3). split; [exact Hs|].
    repeat split;
      match goal with
      | |- PyStr.eqb_char ?a ?b = false =>
          destruct (PyStr.eqb_char a b) eqn:E; [|reflexivity];
          apply eqb_char_eq in E; congruence
      end.
Qed.


Lemma matches_lit_refl (p : str) : Re.matches Re.no_flags (Re.Lit p) p.
Proof.
  induction p as [|c p IH]; [apply Re.M_Eps|].
  change (c :: p) with ([c] ++ p). cbn [Re.Lit].
  apply Re.M_Cat; [|exact IH]. apply Re.M_Chars.
  change (PyStr.eqb_char c c = true). apply eqb_char_refl.
Qed.

Lemma http_alternative_parts (u : str) :
  Re.matches Re.no_flags Detector.http_alternative u ->
  exists prefix run : str,
    u = prefix ++ run
    /\ (prefix = lit "http://" \/ prefix = lit "https://")
    /\ run <> []
    /\ forallb (Re.accepts Re.no_flags Detector.url_chars) run = true.
Proof.
  unfold Detector.http_alternative, Re.Seq. simpl fold_right. intros H.
  inversion H as [| |r1 r2 s1 s2 H1 H2| | | |]; subst.
  inversion H2 as [| |r1 r2 s3 s4 H3 H4| | | |]; subst.
  inversion H4 as [| |r1 r2 s5 s6 H5 H6| | | |]; subst.
  inversion H6 as [| |r1 r2 s7 s8 H7 H8| | | |]; subst.
  inversion H8; subst.
  apply matches_lit_exact in H1. apply matches_lit_exact in H5. subst s1 s5.
  apply matches_plus in H7. destruct H7 as [Hne Hall].
  rewrite app_nil_r. unfold Re.Opt in H3.
  inversion H3 as [| | |r1 r2 s Hx|r1 r2 s Hx| |]; subst.
  - inversion Hx as [|cs x Hc| | | | |]; subst.
    change (PyStr.eqb_char "s" x = true) in Hc. apply eqb_char_eq in Hc.
    subst x. exists (lit "https://"), s7. auto.
  - inversion Hx; subst. exists (lit "http://"), s7. auto.
Qed.

(** The URL pattern matches somewhere exactly when the text holds one of
    the three prefixes with a URL character after it. *)
Lemma url_occurs_iff (raw : str) :
  Re.occurs Re.no_flags Detector.url_pattern raw <-> Spec.holds_url raw.
Proof.
  split.
  - intros (pre & m & post & -> & Hm). unfold Detector.url_pattern in Hm.
    assert (H : exists prefix run : str,
               m = prefix ++ run
               /\ In prefix (map lit ["http://"; "https://"; "www."]%string)
               /\ run <> []
               /\ forallb (Re.accepts Re.no_flags Detector.url_chars) run
                  = true).
    { inversion Hm as [| | |r1 r2 s Hs|r1 r2 s Hs| |]; subst.
      - apply http_alternative_parts in Hs.
        destruct Hs as (prefix & run & -> & [->| ->] & Hne & Hall);
          eexists; eexists; (split; [reflexivity|]); simpl; auto.
      - apply www_alternative_language in Hs.
        destruct Hs as (run & -> & Hne & Hall).
        eexists; eexists; (split; [reflexivity|]); simpl; auto. }
    destruct H as (prefix & run & -> & Hp & Hne & Hall).
    destruct run as [|c run]; [contradiction|].
    cbn [forallb] in Hall. apply andb_true_iff in Hall.
    destruct Hall as [Hc _]. apply url_char_iff in Hc.
    exists pre, prefix, c, (run ++ post).
    split; [rewrite <- app_assoc; reflexivity|]. split; [exact Hp|exact Hc].
  - intros (pre & prefix & c & post & -> & Hp & Hc).
    apply url_char_iff in Hc.
    assert (Hrun : Re.matches Re.no_flags (Re.Plus Detector.url_chars) [c]).
    { apply matches_plus_intro; [discriminate|].
      cbn [forallb]. rewrite Hc. reflexivity. }
    exists pre, (prefix ++ [c]), post.
    split; [rewrite <- app_assoc; reflexivity|].
    unfold Detector.url_pattern.
    destruct Hp as [<-|[<-|[<-|[]]]].
    + apply Re.M_AltL. unfold Detector.http_alternative, Re.Seq, Re.Text.
      cbn [fold_right].
      change (lit "http://" ++ [c])
        with (lit "http" ++ [] ++ lit "://" ++ [c] ++ []).
      apply Re.M_Cat; [apply matches_lit_refl|].
      apply Re.M_Cat; [apply Re.M_AltR; apply Re.M_Eps|].
      apply Re.M_Cat; [apply matches_lit_refl|].
      apply Re.M_Cat; [exact Hrun|apply Re.M_Eps].
    + apply Re.M_AltL. unfold Detector.http_alternative, Re.Seq, Re.Text.
      cbn [fold_right].
      change (lit "https://" ++ [c])
        with (lit "http" ++ ["s"%char] ++ lit "://" ++ [c] ++ []).
      apply Re.M_Cat; [apply matches_lit_refl|].
      apply Re.M_Cat; [apply Re.M_AltL; apply Re.M_Chars; reflexivity|].
      apply Re.M_Cat; [apply matches_lit_refl|].
      apply Re.M_Cat; [exact Hrun|apply Re.M_Eps].
    + apply Re.M_AltR. unfold Detector.www_alternative, Re.Seq, Re.Text.
      cbn [fold_right].
      change (lit "www." ++ [c])
        with (lit "www" ++ ["."%char] ++ [c] ++ []).
      apply Re.M_Cat; [apply matches_lit_refl|].
      apply Re.M_Cat; [apply Re.M_Chars; reflexivity|].
      apply Re.M_Cat; [exact Hrun|apply Re.M_Eps].
Qed.

Lemma only_line_feeds_dec (s : str) :
  Spec.only_line_feeds s \/ ~ Spec.only_line_feeds s.
Proof.
  induction s as [|c s IH].
  - left. intros c [].
  - destruct (ascii_dec c LF) as [->|Hc].
    + destruct IH as [IH|IH].
      * left. intros x [<-|Hx]; [reflexivity|exact (IH x Hx)].
      * right. intros H. apply IH. intros x Hx. apply H. right. exact Hx.
    + right. intros H. apply Hc. apply H. left. reflexivity.
Qed.

(** The value read after a header name is determined by the text. *)
Lemma header_value_unique (after v1 v2 : str) :
  Spec.header_value after v1 -> Spec.header_value after v2 -> v1 = v2.
Proof.
  intros H1 H2.
  destruct (only_line_feeds_dec after) as [Hlf|Hnl].
  - assert (Hnil : forall v : str, Spec.header_value after v -> v = []).
    { intros v (ws & line & rest & E & _ & _ & Hl & _ & Ht).
      destruct line as [|c line]; [exact (trimmed_nil Ht)|].
      exfalso. apply Hl. left. apply Hlf. rewrite E.
      apply in_or_app. right. left. reflexivity. }
    rewrite (Hnil v1 H1), (Hnil v2 H2). reflexivity.
  - pose proof (header_field "From:" [] (lit "from:" ++ after)) as Hf.
    cbv zeta in Hf. destruct Hf as [_ Hf].
    assert (Hfirst : Spec.first_occurrence_ci (lit "from:")
                       (lit "from:" ++ after) [] (lit "from:") after).
    { split; [reflexivity|]. split; [reflexivity|].
      intros a h b _ _. apply Nat.le_0_l. }
    destruct (Hf [] (lit "from:") after Hfirst) as [_ Hv].
    rewrite <- (Hv Hnl v1 H1). exact (Hv Hnl v2 H2).
Qed.

(** C7.  [extract_metadata] reads [from] at the first place where From:
    occurs, case disregarded: it skips all the whitespace after the name,
    line feeds included, takes the rest of the line and trims it.  The
    field is Unknown when From: does not occur, and when line feeds only
    follow its first occurrence.  [subject] is read alike at Subject:,
    with the default No Subject.  [has_links] is true exactly when the
    URL pattern matches somewhere, that is when the text holds http://,
    https:// or www. with a URL character after it; [has_attachments]
    exactly when the text holds the literal Content-Disposition:
    attachment; [date] is always None.  Every text has a first
    occurrence of a name it holds, and the value read after a name
    exists and is unique.  On the message of the specification the
    fields are a@b.com, Test, false and false; on a message whose From:
    value stands two lines below the name the field is that value
    trimmed, and a Subject: followed by a line feed alone gives
    No Subject. *)
Theorem extract_metadata_spec :
  (forall raw : str,
      let md := Utils.extract_metadata raw in
      (~ Spec.occurs_ci (lit "from:") raw -> md_from md = lit "Unknown")
      /\ (forall pre head after : str,
             Spec.first_occurrence_ci (lit "from:") raw pre head after ->
             (Spec.only_line_feeds after -> md_from md = lit "Unknown")
             /\ (~ Spec.only_line_feeds after ->
                 forall value : str,
                   Spec.header_value after value -> md_from md = value))
      /\ (~ Spec.occurs_ci (lit "subject:") raw ->
          md_subject md = lit "No Subject")
      /\ (forall pre head after : str,
             Spec.first_occurrence_ci (lit "subject:") raw pre head after ->
             (Spec.only_line_feeds after -> md_subject md = lit "No Subject")
             /\ (~ Spec.only_line_feeds after ->
                 forall value : str,
                   Spec.header_value after value -> md_subject md = value))
      /\ (md_has_links md = true
          <-> Re.occurs Re.no_flags Detector.url_pattern raw)
      /\ (md_has_links md = true <-> Spec.holds_url raw)
      /\ (md_has_attachments md = true
          <-> exists pre post : str,
                raw = pre ++ lit "Content-Disposition: attachment" ++ post)
      /\ md_date md = None)
  /\ (forall (key raw : str),
         Spec.occurs_ci key raw ->
         exists pre head after : str,
           Spec.first_occurrence_ci key raw pre head after)
  /\ (forall after : str,
         (exists value : str, Spec.header_value after value)
         /\ (forall v1 v2 : str,
                Spec.header_value after v1 -> Spec.header_value after v2 ->
                v1 = v2))
  /\ Utils.extract_metadata plain_message
     = {| md_from := lit "a@b.com"; md_subject := lit "Test";
          md_has_links := false; md_has_attachments := false;
          md_date := None |}
  /\ Utils.extract_metadata folded_message
     = {| md_from := lit "foo"; md_subject := lit "No Subject";
          md_has_links := false; md_has_attachments := false;
          md_date := None |}.
Proof.
  split; [|split; [exact first_occurrence_exists|split;
                   [|split; vm_compute; reflexivity]]].
  - intros raw md. unfold md, Utils.extract_metadata.
    cbn [md_from md_subject md_has_links md_has_attachments md_date].
    pose proof (header_field "From:" (lit "Unknown") raw) as Hf.
    pose proof (header_field "Subject:" (lit "No Subject") raw) as Hs.
    cbv zeta in Hf, Hs.
    split; [exact (proj1 Hf)|]. split; [exact (proj2 Hf)|].
    split; [exact (proj1 Hs)|]. split; [exact (proj2 Hs)|].
    assert (Hl : match Re.search Re.no_flags Utils.url_pattern raw with
                 | Some _ => true
                 | None => false
                 end = true
                 <-> Re.occurs Re.no_flags Detector.url_pattern raw).
    { unfold Utils.url_pattern.
      pose proof (search_none_iff Re.no_flags Detector.url_pattern raw) as Hn.
      destruct (Re.search Re.no_flags Detector.url_pattern raw) as [m|] eqn:E.
      - split; [intros _|reflexivity].
        eapply search_some_occurs. exact E.
      - split; [discriminate|]. intros Ho. exfalso.
        exact (proj1 Hn eq_refl Ho). }
    split; [exact Hl|].
    split; [rewrite Hl; apply url_occurs_iff|].
    split; [apply contains_iff|reflexivity].
  - intros after. split; [apply header_value_exists|].
    apply header_value_unique.
Qed.

(** C7 at the message of the specification: From: first occurs at the
    head, a space and the line [a@b.com] follow, and [from] is that
    line. *)
Lemma extract_metadata_spec_witness :
  Spec.first_occurrence_ci (lit "from:") plain_message [] (lit "From:")
    (lit " a@b.com" ++ [LF] ++ lit "Subject: Test" ++ [LF; LF]
     ++ lit "No links here")
  /\ Spec.header_value
       (lit " a@b.com" ++ [LF] ++ lit "Subject: Test" ++ [LF; LF]
        ++ lit "No links here")
       (lit "a@b.com")
  /\ md_from (Utils.extract_metadata plain_message) = lit "a@b.com".
Proof.
  assert (Hfirst : Spec.first_occurrence_ci (lit "from:") plain_message []
                     (lit "From:")
                     (lit " a@b.com" ++ [LF] ++ lit "Subject: Test"
                      ++ [LF; LF] ++ lit "No links here")).
  { split; [reflexivity|]. split; [reflexivity|].
    intros a h b _ _. apply Nat.le_0_l. }
  assert (Hvalue : Spec.header_value
                     (lit " a@b.com" ++ [LF] ++ lit "Subject: Test"
                      ++ [LF; LF] ++ lit "No links here")
                     (lit "a@b.com")).
  { exists (lit " "), (lit "a@b.com"),
      ([LF] ++ lit "Subject: Test" ++ [LF; LF] ++ lit "No links here").
    split; [reflexivity|]. split; [reflexivity|]. split; [reflexivity|].
    split; [simpl; intuition discriminate|]. split; [reflexivity|].
    exists [], []. split; [reflexivity|]. split; [reflexivity|].
    split; [reflexivity|]. split; [reflexivity|].
    intros init c E. apply (f_equal (@rev ascii)) in E.
    rewrite rev_app_distr in E. vm_compute in E. injection E as <- _.
    reflexivity. }
  split; [exact Hfirst|]. split; [exact Hvalue|].
  refine (proj2 (proj1 (proj2 (proj1 extract_metadata_spec plain_message))
                   [] (lit "From:") _ Hfirst) _ (lit "a@b.com") Hvalue).
  intros H. specialize (H " "%char (or_introl eq_refl)). discriminate H.
Defined.

(** ** The email parser *)

Section ParseEmail.

Variable html_unescape : str -> str.
Context {Message : Type} {API : MessageAPI Message}.
Variable message_from_string : str -> result Message.

Lemma parse_email_ok (raw : str) (p : ParsedEmail) :
  Utils.parse_attempt html_unescape message_from_string raw = Ok p ->
  Utils.parse_email html_unescape message_from_string raw = p.
Proof. intros H. unfold Utils.parse_email. rewrite H. reflexivity. Qed.

Lemma parse_email_raise (raw : str) (e : exn) :
  Utils.parse_attempt html_unescape message_from_string raw = Raise e ->
  Utils.parse_email html_unescape message_from_string raw
  = Spec.raw_only raw.
Proof. intros H. unfold Utils.parse_email. rewrite H. reflexivity. Qed.

Lemma parse_attempt_parser_raises (raw : str) (e : exn) :
  message_from_string raw = Raise e ->
  Utils.parse_attempt html_unescape message_from_string raw = Raise e.
Proof. intros H. unfold Utils.parse_attempt. rewrite H. reflexivity. Qed.

Lemma visit_parts_app (ps qs : list Message) :
  forall st : str * list str,
    Utils.visit_parts html_unescape st (ps ++ qs)
    = bind (Utils.visit_parts html_unescape st ps)
           (fun st' => Utils.visit_parts html_unescape st' qs).
Proof.
  induction ps as [|p ps IH]; intros st; [reflexivity|].
  simpl. destruct (Utils.visit_part html_unescape st p); [apply IH|].
  reflexivity.
Qed.

(** The payload of a text part decodes: a text part is no container. *)
Lemma text_part_payload (part : Message) :
  is_text_type (get_content_type part) = true ->
  exists t : str, payload_text part = Ok t.
Proof.
  intros Ht. apply leaf_payload.
  destruct (is_multipart part) eqn:E; [|reflexivity].
  rewrite (container_type part E) in Ht. discriminate.
Qed.

(** One turn of the loop on a text part, and on any other part. *)
Lemma visit_text_part (st : str * list str) (part : Message) :
  is_text_type (get_content_type part) = true ->
  exists t : str,
    payload_text part = Ok t
    /\ Utils.visit_part html_unescape st part
       = Ok (fst st
             ++ (if Json.str_eqb (get_content_type part) (lit "text/plain")
                 then t else Utils.html_to_text html_unescape t),
             snd st).
Proof.
  intros Ht. destruct (text_part_payload part Ht) as [t Hp].
  exists t. split; [exact Hp|].
  unfold Utils.visit_part. destruct st as [b a]. cbn [fst snd].
  unfold is_text_type in Ht.
  destruct (Json.str_eqb (get_content_type part) (lit "text/plain")).
  - rewrite Hp. reflexivity.
  - cbn [orb] in Ht. rewrite Ht, Hp. reflexivity.
Qed.

Lemma visit_other_part (st : str * list str) (part : Message) :
  is_text_type (get_content_type part) = false ->
  Utils.visit_part html_unescape st part
  = match get_filename part with
    | Ok (Some (c :: f)) => Ok (fst st, snd st ++ [c :: f])
    | Ok _ => Ok st
    | Raise e => Raise e
    end.
Proof.
  intros Ht. unfold Utils.visit_part, Utils.truthy_filename.
  destruct st as [b a]. cbn [fst snd].
  unfold is_text_type in Ht. apply orb_false_iff in Ht.
  destruct Ht as [-> ->].
  destruct (get_filename part) as [[[|c f]|]|e]; reflexivity.
Qed.

(** The loop raises when the filename of one of its parts cannot be
    read, whatever the parts before it gave. *)
Lemma visit_parts_raises (ps : list Message) (part : Message) (e : exn) :
  In part ps ->
  is_text_type (get_content_type part) = false ->
  get_filename part = Raise e ->
  forall st : str * list str,
  exists e' : exn, Utils.visit_parts html_unescape st ps = Raise e'.
Proof.
  intros Hin Ht He. induction ps as [|p ps IH]; [contradiction|].
  intros st. cbn [Utils.visit_parts].
  destruct (Utils.visit_part html_unescape st p) as [st'|e'] eqn:E;
    [|exists e'; reflexivity].
  cbn [bind]. destruct Hin as [->|Hin]; [|exact (IH Hin st')].
  rewrite (visit_other_part st part Ht), He in E. discriminate.
Qed.

(** The loop returns when every filename it asks for can be read. *)
Lemma visit_parts_returns (ps : list Message) :
  (forall part : Message,
      In part ps ->
      is_text_type (get_content_type part) = false ->
      exists o : option str, get_filename part = Ok o) ->
  forall st : str * list str,
  exists st' : str * list str,
    Utils.visit_parts html_unescape st ps = Ok st'.
Proof.
  induction ps as [|p ps IH]; intros H st; [exists st; reflexivity|].
  cbn [Utils.visit_parts].
  assert (Hp : exists st1, Utils.visit_part html_unescape st p = Ok st1).
  { destruct (is_text_type (get_content_type p)) eqn:Ht.
    - destruct (visit_text_part st p Ht) as (t & _ & E). eauto.
    - rewrite (visit_other_part st p Ht).
      destruct (H p (or_introl eq_refl) Ht) as [o Ho]. rewrite Ho.
      destruct o as [[|c f]|]; eauto. }
  destruct Hp as [st1 Hp]. rewrite Hp. cbn [bind].
  apply IH. intros part Hin. apply H. right. exact Hin.
Qed.

(** The loop over the parts appends the collected filenames. *)
Lemma visit_parts_attachments (ps : list Message) :
  forall st st' : str * list str,
    Utils.visit_parts html_unescape st ps = Ok st' ->
    snd st' = snd st ++ Spec.collected_filenames ps.
Proof.
  induction ps as [|p ps IH]; intros st st' H; simpl in H.
  - inversion H; subst. simpl. symmetry. apply app_nil_r.
  - apply bind_ok in H. destruct H as (st1 & H1 & H).
    rewrite (IH _ _ H). clear IH H.
    unfold Spec.collected_filenames. cbn [flat_map].
    fold (Spec.collected_filenames ps).
    fold (is_text_type (get_content_type p)).
    destruct (is_text_type (get_content_type p)) eqn:Ht.
    + destruct (visit_text_part st p Ht) as (t & _ & E).
      rewrite E in H1. inversion H1; subst. reflexivity.
    + rewrite (visit_other_part st p Ht) in H1.
      destruct (get_filename p) as [[[|c f]|]|e];
        inversion H1; subst; cbn [snd]; try rewrite <- app_assoc;
        try rewrite app_nil_r; reflexivity.
Qed.

Lemma parse_message_attachments (msg : Message) (p : ParsedEmail) :
  Utils.parse_message html_unescape msg = Ok p ->
  attachments p
  = if is_multipart msg then Spec.collected_filenames (walk msg) else [].
Proof.
  unfold Utils.parse_message. intros H.
  apply bind_ok in H. destruct H as (st & Hst & H).
  inversion H; subst; clear H. cbn [attachments].
  destruct (is_multipart msg).
  - rewrite (visit_parts_attachments _ _ Hst). reflexivity.
  - apply bind_ok in Hst. destruct Hst as (t & _ & Hst).
    inversion Hst; subst. reflexivity.
Qed.

(** The filenames collected are those of the parts that are neither
    text/plain nor text/html and give a non-empty filename. *)
Lemma collected_filenames_in (ps : list Message) (f : str) :
  In f (Spec.collected_filenames ps)
  <-> exists part : Message,
        In part ps
        /\ is_text_type (get_content_type part) = false
        /\ get_filename part = Ok (Some f)
        /\ f <> [].
Proof.
  unfold Spec.collected_filenames. rewrite in_flat_map. split.
  - intros (part & Hin & Hf). exists part. split; [exact Hin|].
    fold (is_text_type (get_content_type part)) in Hf.
    destruct (is_text_type (get_content_type part)); [contradiction|].
    destruct (get_filename part) as [[[|c g]|]|e]; try contradiction.
    destruct Hf as [<-|[]]. repeat split. discriminate.
  - intros (part & Hin & Ht & Hf & Hne). exists part. split; [exact Hin|].
    fold (is_text_type (get_content_type part)). rewrite Ht, Hf.
    destruct f as [|c g]; [contradiction|]. left. reflexivity.
Qed.

Lemma parse_attempt_attachments (raw : str) (msg : Message)
      (p : ParsedEmail) (f : str) :
  message_from_string raw = Ok msg ->
  Utils.parse_attempt html_unescape message_from_string raw = Ok p ->
  In f (attachments p)
  <-> is_multipart msg = true
      /\ exists part : Message,
           In part (walk msg)
           /\ is_text_type (get_content_type part) = false
           /\ get_filename part = Ok (Some f)
           /\ f <> [].
Proof.
  intros Hm H. unfold Utils.parse_attempt in H. rewrite Hm in H.
  cbn [bind] in H. rewrite (parse_message_attachments _ H).
  destruct (is_multipart msg).
  - rewrite collected_filenames_in. split; [auto|tauto].
  - split; [contradiction|]. intros [E _]. discriminate.
Qed.

(** The body of the [try] raises when the parser does, and when a
    filename of a multipart message cannot be read. *)
Lemma parse_attempt_filename_raises (raw : str) (msg part : Message)
      (e : exn) :
  message_from_string raw = Ok msg ->
  is_multipart msg = true ->
  In part (walk msg) ->
  is_text_type (get_content_type part) = false ->
  get_filename part = Raise e ->
  exists e' : exn,
    Utils.parse_attempt html_unescape message_from_string raw = Raise e'.
Proof.
  intros Hm Hmp Hin Ht He. unfold Utils.parse_attempt. rewrite Hm.
  cbn [bind]. unfold Utils.parse_message. rewrite Hmp.
  destruct (visit_parts_raises (walk msg) part Hin Ht He ([], []))
    as [e' E].
  rewrite E. exists e'. reflexivity.
Qed.

(** It returns in every other case. *)
Lemma parse_attempt_returns (raw : str) (msg : Message) :
  message_from_string raw = Ok msg ->
  (is_multipart msg = true ->
   forall part : Message,
     In part (walk msg) ->
     is_text_type (get_content_type part) = false ->
     exists o : option str, get_filename part = Ok o) ->
  exists p : ParsedEmail,
    Utils.parse_attempt html_unescape message_from_string raw = Ok p
    /\ headers p = Utils.collect_headers msg
    /\ links p = Utils.extract_links (body p).
Proof.
  intros Hm H. unfold Utils.parse_attempt. rewrite Hm. cbn [bind].
  unfold Utils.parse_message.
  destruct (is_multipart msg) eqn:Hmp.
  - destruct (visit_parts_returns (walk msg) (H eq_refl) ([], []))
      as [st E].
    rewrite E. cbn [bind]. eexists. split; [reflexivity|].
    split; reflexivity.
  - destruct (leaf_payload msg Hmp) as [t E]. rewrite E. cbn [bind].
    eexists. split; [reflexivity|]. split; reflexivity.
Qed.

End ParseEmail.

(** C5.  [parse_email] never raises.  When the parser raises, and when
    the filename of a part of a multipart message cannot be read (the
    part being neither text/plain nor text/html, so that its filename is
    asked for), the result is the raw input as body with no headers, no
    attachments and no links, whatever the parts before gave.  These are
    the only steps that fail: in every other case the result is the
    parsed record, with the allow-listed headers of the message and the
    links of its body. *)
Theorem parse_email_recovers :
  forall (html_unescape : str -> str) (Message : Type)
         (API : MessageAPI Message)
         (message_from_string : str -> result Message) (raw : str),
    (forall e : exn,
        message_from_string raw = Raise e ->
        Utils.parse_email html_unescape message_from_string raw
        = {| headers := []; body := raw; attachments := []; links := [] |})
    /\ (forall (msg part : Message) (e : exn),
           message_from_string raw = Ok msg ->
           is_multipart msg = true ->
           In part (walk msg) ->
           is_text_type (get_content_type part) = false ->
           get_filename part = Raise e ->
           Utils.parse_email html_unescape message_from_string raw
           = {| headers := []; body := raw; attachments := [];
                links := [] |})
    /\ (forall msg : Message,
           message_from_string raw = Ok msg ->
           (is_multipart msg = true ->
            forall part : Message,
              In part (walk msg) ->
              is_text_type (get_content_type part) = false ->
              exists o : option str, get_filename part = Ok o) ->
           let p := Utils.parse_email html_unescape message_from_string raw in
           headers p = Utils.collect_headers msg
           /\ links p = Utils.extract_links (body p)
           /\ (is_multipart msg = false -> payload_text msg = Ok (body p))).
Proof.
  intros html_unescape Message API message_from_string raw.
  split; [|split].
  - intros e H. eapply parse_email_raise.
    apply parse_attempt_parser_raises. exact H.
  - intros msg part e Hm Hmp Hin Ht He.
    destruct (@parse_attempt_filename_raises html_unescape Message API
                message_from_string raw msg part e Hm Hmp Hin Ht He)
      as [e' E].
    exact (parse_email_raise _ _ _ E).
  - intros msg Hm H p.
    destruct (@parse_attempt_returns html_unescape Message API
                message_from_string raw msg Hm H) as (q & E & Hh & Hl).
    unfold p. rewrite (parse_email_ok _ _ _ E).
    split; [exact Hh|]. split; [exact Hl|].
    intros Hmp. unfold Utils.parse_attempt in E. rewrite Hm in E.
    cbn [bind] in E. unfold Utils.parse_message in E. rewrite Hmp in E.
    destruct (payload_text msg) as [t|e]; [|discriminate].
    cbn [bind] in E. inversion E. reflexivity.
Qed.

(** C5 at the mail whose attachment has a filename that cannot be
    decoded: the text part is read, the filename of the second part
    raises, and the result is the raw input alone. *)
Lemma parse_email_recovers_witness :
  Utils.parse_email (fun s => s)
                    (fun _ => Ok mail_with_unreadable_filename) raw_sample
  = {| headers := []; body := raw_sample; attachments := []; links := [] |}.
Proof.
  apply (proj1 (proj2 (parse_email_recovers
                         (fun s => s) mime_api
                         (fun _ => Ok mail_with_unreadable_filename)
                         raw_sample))
               mail_with_unreadable_filename unreadable_part
               undecodable_filename).
  - reflexivity.
  - reflexivity.
  - simpl. auto.
  - reflexivity.
  - reflexivity.
Defined.

(** C6.  On the multipart mail with two attachments the filename
    [notes.txt], declared by a part of type text/plain, is not collected:
    the attachments hold [invoice.pdf] only.  On the mail that is a single
    attachment, not multipart, the declared filename [invoice.pdf] is not
    collected either: the attachments are empty.  Both whatever the
    platform.  In general the attachments of a mail that parses hold a
    filename exactly when the mail is multipart and one of its parts,
    neither text/plain nor text/html, gives that filename, not empty. *)
Theorem text_attachment_not_collected :
  (forall (html_unescape : str -> str)
          (message_from_string : str -> result Mime) (raw : str),
      message_from_string raw = Ok mail_with_attachments ->
      In notes_part (walk mail_with_attachments)
      /\ get_filename notes_part = Ok (Some (lit "notes.txt"))
      /\ attachments (Utils.parse_email html_unescape message_from_string raw)
         = [lit "invoice.pdf"]
      /\ ~ In (lit "notes.txt")
              (attachments
                 (Utils.parse_email html_unescape message_from_string raw)))
  /\ (forall (html_unescape : str -> str)
             (message_from_string : str -> result Mime) (raw : str),
         message_from_string raw = Ok single_attachment ->
         get_filename single_attachment = Ok (Some (lit "invoice.pdf"))
         /\ attachments
              (Utils.parse_email html_unescape message_from_string raw)
            = [])
  /\ (forall (html_unescape : str -> str) (Message : Type)
             (API : MessageAPI Message)
             (message_from_string : str -> result Message) (raw : str)
             (msg : Message) (p : ParsedEmail) (f : str),
         message_from_string raw = Ok msg ->
         Utils.parse_attempt html_unescape message_from_string raw = Ok p ->
         Utils.parse_email html_unescape message_from_string raw = p
         /\ (In f (attachments p)
             <-> is_multipart msg = true
                 /\ exists part : Message,
                      In part (walk msg)
                      /\ is_text_type (get_content_type part) = false
                      /\ get_filename part = Ok (Some f)
                      /\ f <> [])).
Proof.
  split; [|split].
  3:{ intros html_unescape Message API message_from_string raw msg p f Hm H.
      split; [exact (parse_email_ok _ _ _ H)|].
      exact (@parse_attempt_attachments html_unescape Message API
               message_from_string raw msg p f Hm H). }
  - intros html_unescape message_from_string raw Hm.
    split; [simpl; auto|]. split; [reflexivity|].
    assert (E : attachments
                  (Utils.parse_email html_unescape message_from_string raw)
                = [lit "invoice.pdf"]).
    { unfold Utils.parse_email, Utils.parse_attempt. rewrite Hm.
      reflexivity. }
    split; [exact E|]. rewrite E. intros [H|[]]. discriminate.
  - intros html_unescape message_from_string raw Hm.
    split; [reflexivity|].
    unfold Utils.parse_email, Utils.parse_attempt. rewrite Hm.
    reflexivity.
Qed.

(* ================================================================== *)
(** * Part III: further properties of the code *)
(* ================================================================== *)

(** ** Occurrence without regard to case *)

(** ** The header analysis *)

(** X1.  [analyze_headers] reports SPF as passed exactly when the text
    spf=pass occurs in the headers, case disregarded, and DKIM likewise
    with dkim=pass.  It never reports DMARC as passed and never fills the
    sender IP or the mail server, whatever the headers say. *)
Theorem analyze_headers_spec :
  forall headers : str,
    let a := Detector.analyze_headers headers in
    (spf_pass a = true <-> Spec.occurs_ci (lit "spf=pass") headers)
    /\ (dkim_pass a = true <-> Spec.occurs_ci (lit "dkim=pass") headers)
    /\ dmarc_pass a = false
    /\ sender_ip a = None
    /\ mail_server a = None.
Proof.
  intros headers a. unfold a, Detector.analyze_headers.
  rewrite <- (contains_lower_iff (lit "spf=pass") headers).
  rewrite <- (contains_lower_iff (lit "dkim=pass") headers).
  destruct (PyStr.contains (lit "spf=pass") (PyStr.lower headers));
    destruct (PyStr.contains (lit "dkim=pass") (PyStr.lower headers));
    cbn [spf_pass dkim_pass dmarc_pass sender_ip mail_server];
    repeat split; auto; discriminate.
Qed.

(** ** The shortener check and the redirect count *)

(** X2.  [_is_shortened_url] is true exactly when one of the five
    shortener names occurs somewhere in the URL, case disregarded: in the
    host, but also in the path or the query. *)
Theorem is_shortened_url_spec :
  forall url : str,
    Detector._is_shortened_url url = true
    <-> exists shortener : str,
          In shortener Detector.shorteners
          /\ Spec.occurs_ci shortener url.
Proof.
  intros url. unfold Detector._is_shortened_url.
  rewrite existsb_exists. split.
  - intros (sh & Hin & H). exists sh. split; [exact Hin|].
    apply contains_lower_iff. exact H.
  - intros (sh & Hin & H). exists sh. split; [exact Hin|].
    apply contains_lower_iff. exact H.
Qed.

Lemma filter_length_le (A : Type) (p : A -> bool) (l : list A) :
  (length (filter p l) <= length l)%nat.
Proof.
  induction l as [|x l IH]; simpl; [lia|].
  destruct (p x); simpl; lia.
Qed.

Lemma filter_nil_iff (A : Type) (p : A -> bool) (l : list A) :
  filter p l = [] <-> forall x, In x l -> p x = false.
Proof.
  induction l as [|x l IH]; simpl.
  - split; [intros _ x []|reflexivity].
  - destruct (p x) eqn:E.
    + split; [discriminate|]. intros H.
      rewrite (H x (or_introl eq_refl)) in E. discriminate.
    + rewrite IH. split.
      * intros H y [<-|Hy]; auto.
      * intros H y Hy. apply H. right. exact Hy.
Qed.

(** X3.  The redirect depth of a URL is the number of the five redirect
    keywords that occur in it, case disregarded, each counted once: it
    lies between 0 and 5, and it is 0 exactly when none of them occurs. *)
Theorem check_redirect_possibility_bounds :
  forall url : str,
    (0 <= Detector._check_redirect_possibility url <= 5)%Z
    /\ (Detector._check_redirect_possibility url = 0%Z
        <-> forall keyword : str,
              In keyword Detector.redirect_keywords ->
              ~ Spec.occurs_ci keyword url).
Proof.
  intros url. unfold Detector._check_redirect_possibility.
  rewrite count_if_length.
  set (p := fun keyword => PyStr.contains keyword (PyStr.lower url)).
  pose proof (filter_length_le p Detector.redirect_keywords) as Hle.
  change (length Detector.redirect_keywords) with 5%nat in Hle.
  split; [lia|].
  split.
  - intros H k Hk Ho.
    assert (Hnil : filter p Detector.redirect_keywords = [])
      by (destruct (filter p Detector.redirect_keywords);
          [reflexivity|simpl in H; lia]).
    rewrite filter_nil_iff in Hnil. specialize (Hnil k Hk).
    apply contains_lower_iff in Ho. unfold p in Hnil. congruence.
  - intros H.
    assert (Hnil : filter p Detector.redirect_keywords = []).
    { apply filter_nil_iff. intros k Hk. unfold p.
      destruct (PyStr.contains k (PyStr.lower url)) eqn:E; [|reflexivity].
      exfalso. apply (H k Hk). apply contains_lower_iff. exact E. }
    rewrite Hnil. reflexivity.
Qed.

(** ** The indicator score of utils.py *)

Lemma fold_add_if (A : Type) (p : A -> bool) (w : Z) (l : list A) :
  forall acc : Z,
    fold_left (fun score x => if p x then (score + w)%Z else score) l acc
    = (acc + w * Z.of_nat (length (filter p l)))%Z.
Proof.
  induction l as [|x l IH]; intros acc; simpl fold_left.
  - simpl. lia.
  - rewrite IH. simpl filter. destruct (p x); simpl length; lia.
Qed.

(** X4.  [calculate_risk_score] is 10 for each of the five content
    keywords that occurs in the content (case disregarded), 20 for each URL
    that holds one of the four suspicious suffixes anywhere in it, 30 when
    the sender analysis holds the word mismatch, capped at 100; a missing
    key counts as empty.  The score lies between 0 and 100, is at most 80
    when no URL counts, and never decreases when a URL is added. *)
Theorem calculate_risk_score_spec :
  forall (content sender : option str) (urls : option (list str)),
    let keywords :=
      Z.of_nat
        (length
           (filter (fun keyword =>
                      PyStr.contains keyword
                                     (PyStr.lower (get_or content [])))
                   Utils.content_keywords)) in
    let flagged (us : list str) :=
      Z.of_nat
        (length
           (filter (fun url =>
                      existsb (fun domain => PyStr.contains domain url)
                              Utils.suspicious_domains)
                   us)) in
    let mismatch :=
      if PyStr.contains (lit "mismatch") (get_or sender [])
      then 1%Z else 0%Z in
    let score (us : option (list str)) :=
      Utils.calculate_risk_score
        {| ind_content := content; ind_urls := us;
           ind_sender_analysis := sender |} in
    score urls
    = Z.min (10 * keywords + 20 * flagged (get_or urls []) + 30 * mismatch)
            100
    /\ (0 <= score urls <= 100)%Z
    /\ (flagged (get_or urls []) = 0%Z -> (score urls <= 80)%Z)
    /\ (forall url : str,
           (score urls <= score (Some (get_or urls [] ++ [url])))%Z)
    /\ Utils.calculate_risk_score
         {| ind_content := None; ind_urls := None;
            ind_sender_analysis := None |} = 0%Z.
Proof.
  intros content sender urls keywords flagged mismatch score.
  assert (Hk : (0 <= keywords <= 5)%Z).
  { unfold keywords.
    pose proof (filter_length_le
                  (fun keyword =>
                     PyStr.contains keyword
                                    (PyStr.lower (get_or content [])))
                  Utils.content_keywords) as H.
    change (length Utils.content_keywords) with 5%nat in H. lia. }
  assert (Hf : forall us, (0 <= flagged us)%Z)
    by (intros us; unfold flagged; lia).
  assert (Hm : (0 <= mismatch <= 1)%Z)
    by (unfold mismatch;
        destruct (PyStr.contains (lit "mismatch") (get_or sender [])); lia).
  assert (Hscore : forall us,
             score us
             = Z.min (10 * keywords + 20 * flagged (get_or us [])
                      + 30 * mismatch) 100).
  { intros us. unfold score, Utils.calculate_risk_score.
    cbn [ind_content ind_urls ind_sender_analysis].
    rewrite !fold_add_if. fold keywords. fold (flagged (get_or us [])).
    unfold mismatch.
    destruct (PyStr.contains (lit "mismatch") (get_or sender []));
      f_equal; lia. }
  split; [apply Hscore|].
  split; [rewrite Hscore; specialize (Hf (get_or urls [])); lia|].
  split; [intros H0; rewrite Hscore, H0; lia|].
  split; [|reflexivity].
  intros url. rewrite !Hscore. cbn [get_or].
  assert (Hmono : (flagged (get_or urls [])
                   <= flagged (get_or urls [] ++ [url]))%Z).
  { unfold flagged. rewrite filter_app, length_app. lia. }
  lia.
Qed.

(** ** The findings of [extract_urls] *)

(** A match of the URL pattern begins with one of the three prefixes and
    consists of URL characters. *)
Lemma url_pattern_language (u : str) :
  Re.matches Re.no_flags Detector.url_pattern u ->
  (PyStr.startswith (lit "http://") u = true
   \/ PyStr.startswith (lit "https://") u = true
   \/ PyStr.startswith (lit "www.") u = true)
  /\ forallb (Re.accepts Re.no_flags Detector.url_chars) u = true.
Proof.
  unfold Detector.url_pattern. intros H.
  inversion H as [| | |r1 r2 s Hs|r1 r2 s Hs| |]; subst.
  - split; [destruct (http_alternative_language Hs); auto|].
    unfold Detector.http_alternative, Re.Seq in Hs. simpl fold_right in Hs.
    inversion Hs as [| |r1 r2 s1 s2 H1 H2| | | |]; subst.
    inversion H2 as [| |r1 r2 s3 s4 H3 H4| | | |]; subst.
    inversion H4 as [| |r1 r2 s5 s6 H5 H6| | | |]; subst.
    inversion H6 as [| |r1 r2 s7 s8 H7 H8| | | |]; subst.
    inversion H8; subst.
    apply matches_lit_exact in H1. apply matches_lit_exact in H5.
    subst s1 s5. apply matches_plus in H7. destruct H7 as [_ H7].
    rewrite app_nil_r. rewrite !forallb_app. rewrite H7.
    unfold Re.Opt in H3.
    inversion H3 as [| | |r1 r2 s Hx|r1 r2 s Hx| |]; subst.
    + inversion Hx as [|cs x Hc| | | | |]; subst.
      change (PyStr.eqb_char "s" x = true) in Hc. apply eqb_char_eq in Hc.
      subst x. reflexivity.
    + inversion Hx; subst. reflexivity.
  - apply www_alternative_language in Hs.
    destruct Hs as (rest & -> & _ & Hall).
    split; [right; right; apply startswith_app|].
    rewrite forallb_app, Hall. reflexivity.
Qed.

(** The strings of [re.findall] are substrings of the subject. *)
Lemma findall_from_substring (fl : Re.flags) (r : Re.regex) (u : str)
      (s : str) :
  forall skip : nat,
    In u (Re.findall_from fl r skip s) ->
    exists pre post, s = pre ++ u ++ post.
Proof.
  induction s as [|c s IH]; intros skip H.
  - destruct skip; simpl in H; [|contradiction].
    destruct (Re.match_at fl r []) as [[[t rest] g]|] eqn:E;
      [|contradiction].
    destruct H as [<-|[]]. apply match_at_sound in E.
    destruct E as [E _]. exists [], rest. exact E.
  - assert (Hrec : forall n, In u (Re.findall_from fl r n s) ->
                             exists pre post, c :: s = pre ++ u ++ post).
    { intros n Hn. destruct (IH n Hn) as (pre & post & ->).
      exists (c :: pre), post. reflexivity. }
    destruct skip; simpl in H; [|exact (Hrec _ H)].
    destruct (Re.match_at fl r (c :: s)) as [[[t rest] g]|] eqn:E;
      [|exact (Hrec _ H)].
    destruct H as [<-|H]; [|exact (Hrec _ H)].
    apply match_at_sound in E. destruct E as [E _].
    exists [], rest. exact E.
Qed.

Lemma mapM_map (A B : Type) (f : A -> result B) (g : B -> A)
      (xs : list A) :
  (forall x y, f x = Ok y -> g y = x) ->
  forall ys : list B, mapM f xs = Ok ys -> map g ys = xs.
Proof.
  intros Hg. induction xs as [|x xs IH]; intros ys H; simpl in H.
  - inversion H. reflexivity.
  - apply bind_ok in H. destruct H as (y & Hy & H).
    apply bind_ok in H. destruct H as (ys' & Hys & H).
    inversion H; subst; clear H. simpl.
    rewrite (Hg _ _ Hy), (IH _ Hys). reflexivity.
Qed.

Lemma analyze_url_fields (chk : str -> option string) (u : str)
      (f : UrlFinding) :
  Detector.analyze_url chk u = Ok f ->
  url f = u
  /\ is_shortened f = Detector._is_shortened_url u
  /\ Detector._has_suspicious_tld chk u = Ok (suspicious_tld f)
  /\ redirect_depth f = Detector._check_redirect_possibility u.
Proof.
  unfold Detector.analyze_url. intros H. apply bind_ok in H.
  destruct H as (b & Hb & H). inversion H; subst; clear H.
  cbn [url is_shortened suspicious_tld redirect_depth]. auto.
Qed.

(** X5.  When [extract_urls] returns, its findings are the matches of the
    URL pattern in the text, one finding per match, in order and with
    repetitions kept, so they list the same URLs as [extract_links] of
    utils.py.  The URL of a finding is a piece of the text that begins with
    http://, https:// or www. and holds no whitespace, angle bracket or
    double quote, and the flags of the finding are those of that URL. *)
Theorem extract_urls_findings :
  forall (chk : str -> option string) (text : str) (findings : list UrlFinding),
    Detector.extract_urls chk text = Ok findings ->
    map url findings = Utils.extract_links text
    /\ forall f : UrlFinding,
         In f findings ->
         (exists pre post : str, text = pre ++ url f ++ post)
         /\ (PyStr.startswith (lit "http://") (url f) = true
             \/ PyStr.startswith (lit "https://") (url f) = true
             \/ PyStr.startswith (lit "www.") (url f) = true)
         /\ (forall c : ascii,
                In c (url f) ->
                PyStr.isspace c = false
                /\ c <> "<"%char /\ c <> ">"%char /\ c <> dq)
         /\ is_shortened f = Detector._is_shortened_url (url f)
         /\ Detector._has_suspicious_tld chk (url f)
            = Ok (suspicious_tld f)
         /\ redirect_depth f = Detector._check_redirect_possibility (url f).
Proof.
  intros chk text findings H. unfold Detector.extract_urls in H.
  split.
  - unfold Utils.extract_links, Utils.url_pattern.
    apply (mapM_map (Detector.analyze_url chk) url); [|exact H].
    intros u f Hf. apply analyze_url_fields in Hf. tauto.
  - intros f Hin.
    destruct (mapM_in _ _ _ H Hin) as (u & Hu & Hf).
    apply analyze_url_fields in Hf.
    destruct Hf as (Eu & Hs & Ht & Hr). subst u.
    pose proof (findall_sound _ _ _ _ Hu) as Hm.
    apply url_pattern_language in Hm. destruct Hm as [Hpre Hall].
    split; [exact (findall_from_substring _ _ _ _ _ Hu)|].
    split; [exact Hpre|].
    split; [|auto].
    intros c Hc. apply url_char_iff.
    rewrite forallb_forall in Hall. exact (Hall c Hc).
Qed.

(** X5 at the text of the specification's example. *)
Lemma extract_urls_findings_witness :
  exists findings : list UrlFinding,
    Detector.extract_urls (fun _ => None) sample_text = Ok findings
    /\ map url findings = Utils.extract_links sample_text.
Proof.
  eexists.
  assert (H : Detector.extract_urls (fun _ => None) sample_text
              = Ok [ {| url := lit "http://secure-login-bank.xyz/verify";
                        is_shortened := false; suspicious_tld := true;
                        has_ip_address := false; redirect_depth := 3 |};
                     {| url := lit "http://192.168.1.1/login";
                        is_shortened := false; suspicious_tld := false;
                        has_ip_address := true; redirect_depth := 1 |} ])
    by (vm_compute; reflexivity).
  split; [exact H|].
  exact (proj1 (extract_urls_findings (fun _ => None) sample_text H)).
Defined.

(** ** The metadata and the links *)

Lemma findall_from_nil_iff (fl : Re.flags) (r : Re.regex) (s : str) :
  forall pos : nat,
    Re.findall_from fl r 0 s = [] <-> Re.search_from fl r pos s = None.
Proof.
  induction s as [|c s IH]; intros pos; simpl.
  - destruct (Re.match_at fl r []) as [[[t rest] g]|];
      split; intros H; try discriminate; reflexivity.
  - destruct (Re.match_at fl r (c :: s)) as [[[t rest] g]|].
    + split; intros H; discriminate.
    + apply IH.
Qed.

(** X6.  The [has_links] flag of [extract_metadata] agrees with the URL
    extraction: it is true exactly when [extract_links] of the same text
    finds a URL, and exactly when the URL analysis of the same text, if it
    returns, has a finding. *)
Theorem has_links_agrees :
  forall raw : str,
    (md_has_links (Utils.extract_metadata raw) = true
     <-> Utils.extract_links raw <> [])
    /\ (forall (chk : str -> option string) (findings : list UrlFinding),
           Detector.extract_urls chk raw = Ok findings ->
           (md_has_links (Utils.extract_metadata raw) = true
            <-> findings <> [])).
Proof.
  intros raw.
  assert (H : md_has_links (Utils.extract_metadata raw) = true
              <-> Utils.extract_links raw <> []).
  { unfold Utils.extract_metadata, Utils.extract_links. cbn [md_has_links].
    pose proof (findall_from_nil_iff Re.no_flags Utils.url_pattern raw 0)
      as Hn.
    unfold Re.findall, Re.search.
    destruct (Re.search_from Re.no_flags Utils.url_pattern 0 raw).
    - split; [intros _ E|reflexivity].
      apply Hn in E. discriminate.
    - split; [discriminate|]. intros E. exfalso. apply E.
      apply Hn. reflexivity. }
  split; [exact H|].
  intros chk findings Hf. rewrite H.
  unfold Detector.extract_urls in Hf.
  apply (mapM_map (Detector.analyze_url chk) url) in Hf.
  - unfold Utils.extract_links, Utils.url_pattern. rewrite <- Hf.
    destruct findings; simpl; split; intros E; congruence.
  - intros u f Hu. apply analyze_url_fields in Hu. tauto.
Qed.

(** X6 at the text of the specification's example. *)
Lemma has_links_agrees_witness :
  exists findings : list UrlFinding,
    Detector.extract_urls (fun _ => None) sample_text = Ok findings
    /\ (md_has_links (Utils.extract_metadata sample_text) = true
        <-> findings <> []).
Proof.
  eexists.
  assert (H : Detector.extract_urls (fun _ => None) sample_text
              = Ok [ {| url := lit "http://secure-login-bank.xyz/verify";
                        is_shortened := false; suspicious_tld := true;
                        has_ip_address := false; redirect_depth := 3 |};
                     {| url := lit "http://192.168.1.1/login";
                        is_shortened := false; suspicious_tld := false;
                        has_ip_address := true; redirect_depth := 1 |} ])
    by (vm_compute; reflexivity).
  split; [exact H|].
  exact (proj2 (has_links_agrees sample_text) (fun _ => None) _ H).
Defined.

(** ** The levels of the heuristic scorer *)

Lemma keyword_matches_bounds (content : str) :
  (0 <= Spec.keyword_matches content <= 9)%Z.
Proof.
  unfold Spec.keyword_matches.
  pose proof (filter_length_le
                (fun keyword =>
                   PyStr.contains (PyStr.lower keyword)
                                  (PyStr.lower content))
                Detector.phishing_keywords) as H.
  change (length Detector.phishing_keywords) with 9%nat in H. lia.
Qed.

Lemma suspicious_urls_nonneg (findings : list UrlFinding) :
  (0 <= Spec.suspicious_urls findings)%Z.
Proof. unfold Spec.suspicious_urls. lia. Qed.

(** X7.  The level of the heuristic scorer is HIGH exactly when at least
    three keywords come with at least two suspicious URLs, or at least four
    keywords with at least one; it is LOW exactly when at most two keywords
    come with no suspicious URL, or no keyword with at most one.  Keywords
    alone never give HIGH, and suspicious URLs alone never give more than a
    score of 40. *)
Theorem fallback_level_cases :
  forall (chk : str -> option string) (content : str) (md : EmailMetadata)
         (findings : list UrlFinding) (r : AnalysisResult),
    Detector.extract_urls chk content = Ok findings ->
    Detector._fallback_analysis chk content md = Ok r ->
    let km := Spec.keyword_matches content in
    let su := Spec.suspicious_urls findings in
    (Json.get "risk_level" r = Some (JStr (lit "HIGH"))
     <-> (3 <= km /\ 2 <= su)%Z \/ (4 <= km /\ 1 <= su)%Z)
    /\ (Json.get "risk_level" r = Some (JStr (lit "LOW"))
        <-> (km <= 2 /\ su = 0)%Z \/ (km = 0 /\ su <= 1)%Z)
    /\ (su = 0%Z -> Json.get "risk_level" r <> Some (JStr (lit "HIGH")))
    /\ (km = 0%Z ->
        exists score : Z,
          Json.get "risk_score" r = Some (JInt score) /\ (score <= 40)%Z).
Proof.
  intros chk content md findings r Hf Hr km su.
  rewrite (fallback_analysis_spec chk content md Hf) in Hr.
  inversion Hr; subst r; clear Hr. fold km su.
  rewrite get_risk_level, get_risk_score.
  pose proof (keyword_matches_bounds content) as Hk. fold km in Hk.
  pose proof (suspicious_urls_nonneg findings) as Hs. fold su in Hs.
  destruct (level_of_matches (Spec.risk_score km su))
    as (Hhigh & _ & Hlow).
  assert (Hinj : forall l,
             Some (JStr (Detector.level_of (Spec.risk_score km su)))
             = Some (JStr l)
             <-> Detector.level_of (Spec.risk_score km su) = l)
    by (intros l; split;
        [intros E; inversion E; reflexivity|intros ->; reflexivity]).
  rewrite !Hinj, Hhigh, Hlow.
  unfold Spec.risk_score, Spec.content_score_component,
    Spec.url_score_component.
  split; [lia|]. split; [lia|]. split; [intros H0; lia|].
  intros H0. eexists. split; [reflexivity|lia].
Qed.

(** X7 at a text with two keywords and one URL on an IP address. *)
Lemma fallback_level_cases_witness :
  exists (findings : list UrlFinding) (r : AnalysisResult),
    Detector.extract_urls (fun _ => None) two_keywords_one_ip = Ok findings
    /\ Detector._fallback_analysis (fun _ => None) two_keywords_one_ip
                                   sample_metadata = Ok r
    /\ (Json.get "risk_level" r = Some (JStr (lit "HIGH"))
        <-> (3 <= Spec.keyword_matches two_keywords_one_ip
             /\ 2 <= Spec.suspicious_urls findings)%Z
            \/ (4 <= Spec.keyword_matches two_keywords_one_ip
                /\ 1 <= Spec.suspicious_urls findings)%Z).
Proof.
  assert (H : exists findings,
             Detector.extract_urls (fun _ => None) two_keywords_one_ip
             = Ok findings)
    by (eexists; vm_compute; reflexivity).
  destruct H as [findings H].
  assert (Hr : exists r,
             Detector._fallback_analysis (fun _ => None) two_keywords_one_ip
                                         sample_metadata = Ok r)
    by (eexists; vm_compute; reflexivity).
  destruct Hr as [r Hr].
  exists findings, r. split; [exact H|]. split; [exact Hr|].
  exact (proj1 (fallback_level_cases (fun _ => None) two_keywords_one_ip
                  sample_metadata H Hr)).
Defined.

(** ** The JSON path of [analyze_with_ai] *)

Lemma in_split_last (c : ascii) (s : str) :
  In c s -> exists a r, s = a ++ c :: r.
Proof. apply in_split. Qed.

(** Greedy [.*] under DOTALL before a closing brace stops at the last
    closing brace. *)
Lemma run_until_last_brace (X : Type) (s : str) (g : Re.groups)
      (k : Re.cont X) (x : X) :
  (forall s' g', k s' g' <> None) ->
  Re.run Re.S_ (Re.Cat (Re.Star true Re.Dot) (Re.Cat (Re.chr "}") Re.Eps))
         s g k = Some x ->
  exists b r, s = b ++ "}"%char :: r /\ ~ In "}"%char r /\ k r g = Some x.
Proof.
  intros Hk. cbn [Re.run Re.chr].
  set (K := fun (s1 : str) (g1 : Re.groups) =>
              match s1 with
              | c :: s' =>
                  if Re.accepts Re.S_ (Re.Single (Re.AChr "}")) c
                  then k s' g1 else None
              | [] => None
              end).
  induction s as [|c s IH]; intros H; cbn [Re.star] in H; [discriminate|].
  change (Re.accepts Re.S_ Re.Dot c) with true in H. cbv iota in H.
  apply orelse_some in H. destruct H as [H|[Hnone H]].
  - destruct (IH H) as (b & r & -> & Hr & Hx).
    exists (c :: b), r. auto.
  - unfold K in H.
    destruct (Re.accepts Re.S_ (Re.Single (Re.AChr "}")) c) eqn:Hc;
      [|discriminate].
    change (PyStr.eqb_char "}" c = true) in Hc. apply eqb_char_eq in Hc.
    subst c. exists [], s. split; [reflexivity|]. split; [|exact H].
    intros Hin. apply in_split in Hin. destruct Hin as (a & r & ->).
    revert Hnone. apply star_complete.
    + clear. induction a as [|y a IH]; [reflexivity|exact IH].
    + unfold K. change (Re.accepts Re.S_ (Re.Single (Re.AChr "}")) "}")
        with true. cbv iota. apply Hk.
Qed.

Lemma json_match_at (s t rest : str) (g : Re.groups) :
  Re.match_at Re.S_ Detector.json_pattern s = Some (t, rest, g) ->
  exists b : str,
    t = "{"%char :: b ++ ["}"%char]
    /\ s = t ++ rest
    /\ ~ In "}"%char rest.
Proof.
  intros H. destruct (match_at_sound _ _ _ H) as [Es Hm].
  apply json_pattern_language in Hm. destruct Hm as [b ->].
  exists b. split; [reflexivity|]. split; [exact Es|].
  unfold Re.match_at, Detector.json_pattern, Re.Seq in H.
  simpl fold_right in H.
  apply run_cat_sound in H. destruct H as (a & s2 & g' & E & Ha & H).
  inversion Ha as [|cs c Hc| | | | |]; subst.
  apply run_until_last_brace in H; [|intros s' g''; discriminate].
  destruct H as (b' & r & -> & Hr & H).
  inversion H; subst. exact Hr.
Qed.

(** The object [re.search] hands to the decoder runs from the first
    opening brace of the text to its last closing brace. *)
Lemma json_search_extent (text : str) (m : Re.match_) :
  Re.search Re.S_ Detector.json_pattern text = Some m ->
  exists pre b post : str,
    text = pre ++ "{"%char :: b ++ "}"%char :: post
    /\ ~ In "{"%char pre
    /\ ~ In "}"%char post
    /\ Re.group_of 0 m = "{"%char :: b ++ ["}"%char].
Proof.
  intros H. apply search_from_first in H.
  destruct H as (pre & rest & E & Hm & Hfirst).
  apply json_match_at in Hm. destruct Hm as (b & Et & _ & Hrest).
  exists pre, b, rest. rewrite Et in E, Hfirst.
  split; [rewrite E; simpl; rewrite <- app_assoc; reflexivity|].
  split; [|split; [exact Hrest|exact Et]].
  intros Hin. apply in_split in Hin. destruct Hin as (p1 & p2 & ->).
  apply (Hfirst p1 "{"%char p2
                ("{"%char :: (p2 ++ "{"%char :: b) ++ ["}"%char]) rest
                eq_refl).
  - simpl. rewrite <- !app_assoc. reflexivity.
  - apply json_pattern_language. eexists. reflexivity.
Qed.

(** X8.  When the answer of the provider has a brace pair, the text handed
    to the JSON decoder runs from the first opening brace to the last
    closing brace of the answer.  What the decoder returns is the result;
    when the decoder rejects that text, the outcome is the one of the
    heuristic scorer: the text-scrape parser is not tried. *)
Theorem json_path_extent :
  forall (key : str) (chk : str -> option string) (loads : str -> result json)
         (post : Request -> result Response) (content : str)
         (md : EmailMetadata) (text : str),
    Detector.ai_call key loads post content md = Ok (JStr text) ->
    Spec.has_brace_pair text ->
    exists pre b post' : str,
      text = pre ++ "{"%char :: b ++ "}"%char :: post'
      /\ ~ In "{"%char pre
      /\ ~ In "}"%char post'
      /\ Detector.analyze_with_ai key chk loads post content md
         = match loads ("{"%char :: b ++ ["}"%char]) with
           | Ok r => Ok r
           | Raise _ => Detector._fallback_analysis chk content md
           end.
Proof.
  intros key chk loads post content md text Hcall Hbrace.
  destruct (Re.search Re.S_ Detector.json_pattern text) as [m|] eqn:E.
  - destruct (json_search_extent _ E) as (pre & b & post' & Et & H1 & H2 & Hg).
    exists pre, b, post'. split; [exact Et|]. split; [exact H1|].
    split; [exact H2|].
    unfold Detector.analyze_with_ai, Detector.ai_attempt,
      Detector.read_ai_response.
    rewrite Hcall. cbn [bind Detector.as_str]. rewrite E, Hg.
    destruct (loads ("{"%char :: b ++ ["}"%char])); reflexivity.
  - exfalso. apply json_search_none_iff in E. exact (E Hbrace).
Qed.

(** X8 at an answer with two objects: the decoder is handed both with the
    prose between them, rejects it, and the heuristic scorer answers. *)
Lemma json_path_extent_witness :
  Detector.ai_call sample_key Json.loads (answering two_objects_answer)
                   one_keyword sample_metadata = Ok (JStr two_objects_answer)
  /\ Spec.has_brace_pair two_objects_answer
  /\ (exists pre b post' : str,
         two_objects_answer = pre ++ "{"%char :: b ++ "}"%char :: post'
         /\ ~ In "{"%char pre
         /\ ~ In "}"%char post'
         /\ Detector.analyze_with_ai sample_key (fun _ => None) Json.loads
                                     (answering two_objects_answer)
                                     one_keyword sample_metadata
            = match Json.loads ("{"%char :: b ++ ["}"%char]) with
              | Ok r => Ok r
              | Raise _ =>
                  Detector._fallback_analysis (fun _ => None) one_keyword
                                              sample_metadata
              end)
  /\ Detector.analyze_with_ai sample_key (fun _ => None) Json.loads
                              (answering two_objects_answer)
                              one_keyword sample_metadata
     = Detector._fallback_analysis (fun _ => None) one_keyword
                                   sample_metadata.
Proof.
  assert (Hcall : Detector.ai_call sample_key Json.loads
                    (answering two_objects_answer) one_keyword
                    sample_metadata
                  = Ok (JStr two_objects_answer))
    by (vm_compute; reflexivity).
  assert (Hbrace : Spec.has_brace_pair two_objects_answer).
  { destruct (Re.search Re.S_ Detector.json_pattern two_objects_answer)
      as [m|] eqn:E; [|vm_compute in E; discriminate].
    apply search_some_occurs in E. destruct E as (pre & t & post & E & Hm).
    apply json_pattern_language in Hm. destruct Hm as [b ->].
    exists pre, b, post. rewrite E. simpl. rewrite <- app_assoc.
    reflexivity. }
  split; [exact Hcall|]. split; [exact Hbrace|].
  split; [|vm_compute; reflexivity].
  exact (json_path_extent sample_key (fun _ => None) Json.loads
           (answering two_objects_answer) one_keyword sample_metadata
           Hcall Hbrace).
Defined.

(** ** What [analyze_with_ai] raises, and when it returns *)

Lemma mapM_raise (A B : Type) (f : A -> result B) (xs : list A) (e : exn) :
  mapM f xs = Raise e -> exists x, In x xs /\ f x = Raise e.
Proof.
  induction xs as [|x xs IH]; simpl; intros H; [discriminate|].
  destruct (f x) as [y|e'] eqn:Ef.
  - cbn [bind] in H. destruct (mapM f xs) as [ys|e''] eqn:Em.
    + discriminate.
    + cbn [bind] in H. inversion H; subst.
      destruct (IH eq_refl) as (x' & Hin & Hx). exists x'. auto.
  - cbn [bind] in H. inversion H; subst. exists x. auto.
Qed.

Lemma netloc_raise (chk : str -> option string) (u : str) (e : exn) :
  UrlParse.netloc chk u = Raise e ->
  exists msg : string, e = ValueError msg.
Proof.
  unfold UrlParse.netloc.
  repeat match goal with
         | |- context [if ?b then _ else _] => destruct b
         | |- context [match chk ?n with _ => _ end] => destruct (chk n)
         end; intros H; inversion H; eauto.
Qed.

(** X9.  On a content without square brackets, of characters below
    U+0100, [analyze_with_ai] always returns a result, whatever the
    provider, the decoder and the platform do.  An exception that leaves
    [analyze_with_ai] is never the one of the exchange: it is a
    [ValueError] that [urlparse] raised on one of the URLs of the content,
    while the heuristic scorer ran in the handler.  Its message is the one
    [urlparse] gave: Invalid IPv6 URL on [http://[], and what the platform
    says of the host on [http://[abc]/]. *)
Theorem analyze_with_ai_outcomes :
  forall (key : str) (chk : str -> option string) (loads : str -> result json)
         (post : Request -> result Response) (content : str)
         (md : EmailMetadata),
    (PyStr.has_char "[" content = false ->
     PyStr.has_char "]" content = false ->
     exists r : AnalysisResult,
       Detector.analyze_with_ai key chk loads post content md = Ok r)
    /\ (forall e : exn,
           Detector.analyze_with_ai key chk loads post content md = Raise e ->
           (exists msg : string, e = ValueError msg)
           /\ (exists e' : exn,
                  Detector.ai_attempt key loads post content md = Raise e')
           /\ exists u : str,
                In u (Utils.extract_links content)
                /\ UrlParse.netloc chk u = Raise e)
    /\ Detector.analyze_with_ai key chk loads unreachable unmatched_bracket md
       = Raise (ValueError "Invalid IPv6 URL")
    /\ Detector.analyze_with_ai key strict_hosts loads unreachable
                                bracketed_word md
       = Raise (ValueError
                  "'abc' does not appear to be an IPv4 or IPv6 address").
Proof.
  intros key chk loads post content md.
  split; [|split; [|split; vm_compute; reflexivity]];
    unfold Detector.analyze_with_ai, try_except;
    destruct (Detector.ai_attempt key loads post content md) as [r|e0] eqn:E.
  - intros _ _; eauto.
  - intros Hl Hr.
    destruct (fallback_analysis_returns chk content md Hl Hr)
      as (f & r & _ & H & _).
    exists r. exact H.
  - intros e H. discriminate.
  - intros e H.
    assert (Hu : Detector.extract_urls chk content = Raise e).
    { destruct (extract_urls_total_or_raises chk content)
        as [[f Hf]|[e1 He1]].
      - rewrite (fallback_analysis_spec chk content md Hf) in H.
        discriminate.
      - rewrite (fallback_analysis_raises chk content md He1) in H.
        inversion H; subst. exact He1. }
    unfold Detector.extract_urls in Hu. apply mapM_raise in Hu.
    destruct Hu as (u & Hin & Hu).
    unfold Detector.analyze_url, Detector._has_suspicious_tld in Hu.
    destruct (UrlParse.netloc chk u) as [n|e1] eqn:En;
      [discriminate|].
    cbn [bind] in Hu. inversion Hu; subst e1.
    split; [exact (netloc_raise _ _ En)|].
    split; [eauto|]. exists u. auto.
Qed.

(** X9 with an unreachable provider, at a content without brackets. *)
Lemma analyze_with_ai_outcomes_witness :
  PyStr.has_char "[" two_keywords_one_ip = false
  /\ PyStr.has_char "]" two_keywords_one_ip = false
  /\ exists r : AnalysisResult,
       Detector.analyze_with_ai sample_key (fun _ => None) Json.loads
                                unreachable two_keywords_one_ip
                                sample_metadata = Ok r.
Proof.
  split; [reflexivity|]. split; [reflexivity|].
  exact (proj1 (analyze_with_ai_outcomes sample_key (fun _ => None)
                  Json.loads unreachable two_keywords_one_ip
                  sample_metadata) eq_refl eq_refl).
Defined.

(** ** What the provider is sent *)

(** The prompt is a text that depends on the metadata alone, the first
    2000 characters of the content, and a fixed text. *)
Lemma prompt_parts (md : EmailMetadata) :
  exists before after : str,
    forall content : str,
      Detector.prompt content md = before ++ firstn 2000 content ++ after.
Proof.
  pose (ind := lit "        ").
  pose (ind2 := lit "            ").
  pose (row := fun parts : list str => concat parts ++ [LF]).
  exists
    ([LF]
     ++ row [ind; lit "Analyze this email for phishing indicators. Be specific and technical."]
     ++ row [ind]
     ++ row [ind; lit "EMAIL METADATA:"]
     ++ row [ind; lit "- From: "; md_from md]
     ++ row [ind; lit "- Subject: "; md_subject md]
     ++ row [ind; lit "- Has Links: "; str_of_bool (md_has_links md)]
     ++ row [ind; lit "- Has Attachments: ";
             str_of_bool (md_has_attachments md)]
     ++ row [ind]
     ++ row [ind; lit "EMAIL CONTENT (truncated):"]
     ++ ind).
  exists
    ([LF]
     ++ row [ind]
     ++ row [ind; lit "Analyze:"]
     ++ row [ind; lit "1. Linguistic Analysis: Urgency, authority, emotional manipulation"]
     ++ row [ind; lit "2. Technical Indicators: Suspicious links, sender mismatch, spoofing signs"]
     ++ row [ind; lit "3. Social Engineering Tactics: Pretexting, baiting, scare tactics"]
     ++ row [ind; lit "4. Overall Risk Score: 0-100 (with justification)"]
     ++ row [ind; lit "5. Recommendations: What to check/do"]
     ++ row [ind]
     ++ row [ind; lit "Return JSON format:"]
     ++ row [ind; lit "{"]
     ++ row [ind2; quoted "risk_score"; lit ": 85,"]
     ++ row [ind2; quoted "risk_level"; lit ": "; quoted "HIGH"; lit ","]
     ++ row [ind2; quoted "indicators_found"; lit ": [";
             quoted "urgent language"; lit ", "; quoted "suspicious link";
             lit "],"]
     ++ row [ind2; quoted "technical_analysis"; lit ": ";
             quoted "Detailed explanation..."; lit ","]
     ++ row [ind2; quoted "social_engineering_analysis"; lit ": ";
             quoted "How attacker manipulates..."; lit ","]
     ++ row [ind2; quoted "recommendations"; lit ": [";
             quoted "Don't click links"; lit ", "; quoted "Verify sender";
             lit "],"]
     ++ row [ind2; quoted "confidence"; lit ": 0.95"]
     ++ row [ind; lit "}"]
     ++ ind).
  intros content. unfold Detector.prompt, PyStr.slice_to, row. cbv zeta.
  fold ind ind2. cbn [concat]. rewrite ?app_nil_r.
  repeat rewrite <- app_assoc. reflexivity.
Qed.

(** X10.  The request sent to the provider holds the content only through
    its first 2000 characters: the prompt is a text drawn from the
    metadata, then these characters, then a fixed text, and two contents
    lead to the same request exactly when they agree on their first 2000
    characters. *)
Theorem request_truncates_content :
  forall (key : str) (md : EmailMetadata),
    (exists before after : str,
        forall content : str,
          Json.get "messages" (req_json (Detector.request key content md))
          = Some (JArr [ JObj [ (lit "role", JStr (lit "system"));
                                (lit "content",
                                  JStr Detector.system_persona) ];
                         JObj [ (lit "role", JStr (lit "user"));
                                (lit "content",
                                  JStr (before ++ firstn 2000 content
                                        ++ after)) ] ]))
    /\ (forall c1 c2 : str,
           firstn 2000 c1 = firstn 2000 c2
           <-> Detector.request key c1 md = Detector.request key c2 md).
Proof.
  intros key md. destruct (prompt_parts md) as (before & after & Hp).
  split.
  - exists before, after. intros content. rewrite <- Hp. reflexivity.
  - intros c1 c2. split.
    + intros H. unfold Detector.request. rewrite !Hp, H. reflexivity.
    + intros H.
      pose (user_prompt :=
              fun r : Request =>
                match req_json r with
                | JObj [_; (_, JArr [_; JObj [_; (_, JStr s)]]); _; _] => s
                | _ => []
                end).
      apply (f_equal user_prompt) in H.
      change (Detector.prompt c1 md = Detector.prompt c2 md) in H.
      rewrite !Hp in H. apply app_inv_head in H.
      apply app_inv_tail in H. exact H.
Qed.

(** X10 at two contents of more than 2000 characters that differ only
    after the 2000th. *)
Lemma request_truncates_content_witness :
  firstn 2000 long_content = firstn 2000 long_content'
  /\ long_content <> long_content'
  /\ Detector.request sample_key long_content sample_metadata
     = Detector.request sample_key long_content' sample_metadata.
Proof.
  assert (H : firstn 2000 long_content = firstn 2000 long_content')
    by (vm_compute; reflexivity).
  split; [exact H|]. split.
  - intros E. apply (f_equal (skipn 2001)) in E. vm_compute in E.
    discriminate.
  - exact (proj1 (proj2 (request_truncates_content sample_key
                           sample_metadata) long_content long_content') H).
Defined.

(** ** Trimmed header values *)

(** A value that is its own [strip] and holds no line feed. *)
Lemma header_value_trimmed (name : string) (raw : str) (default : str) :
  PyStr.strip default = default ->
  ~ In LF default ->
  let value :=
    match Re.search Re.I
                    (Re.Seq [Re.Text name;
                             Re.Star true (Re.Single Re.ASpace);
                             Re.Group 1 (Re.Plus Re.Dot)]) raw with
    | Some m => PyStr.strip (Re.group_of 1 m)
    | None => default
    end in
  PyStr.strip value = value /\ ~ In LF value.
Proof.
  intros Hd Hn value. unfold value.
  pose proof (header_search name raw) as H. cbv zeta in H.
  destruct (Re.search Re.I _ raw) as [m|]; [|auto].
  split; [apply strip_fixed|].
  destruct H as (pre & head & ws & capture & post & _ & _ & _ & _ & Hcap
                 & _ & _ & Hv).
  rewrite Hv. intros Hin. apply strip_incl in Hin.
  rewrite forallb_forall in Hcap. specialize (Hcap LF Hin).
  rewrite eqb_char_refl in Hcap. discriminate.
Qed.

(** X11.  The [from] and [subject] values of [extract_metadata] are
    trimmed and stay on one line: stripping them again changes nothing,
    they neither begin nor end with whitespace, and they hold no line
    feed. *)
Theorem metadata_values_trimmed :
  forall raw : str,
    let md := Utils.extract_metadata raw in
    (PyStr.strip (md_from md) = md_from md
     /\ ~ In LF (md_from md)
     /\ (forall c rest, md_from md = c :: rest -> PyStr.isspace c = false)
     /\ (forall c init, md_from md = init ++ [c] -> PyStr.isspace c = false))
    /\ (PyStr.strip (md_subject md) = md_subject md
        /\ ~ In LF (md_subject md)
        /\ (forall c rest,
               md_subject md = c :: rest -> PyStr.isspace c = false)
        /\ (forall c init,
               md_subject md = init ++ [c] -> PyStr.isspace c = false)).
Proof.
  intros raw md.
  assert (Hends : forall v : str,
             PyStr.strip v = v ->
             (forall c rest, v = c :: rest -> PyStr.isspace c = false)
             /\ (forall c init, v = init ++ [c] -> PyStr.isspace c = false)).
  { intros v Hv. rewrite <- Hv. apply strip_ends. }
  assert (Hf : PyStr.strip (md_from md) = md_from md /\ ~ In LF (md_from md)).
  { apply (@header_value_trimmed "From:" raw (lit "Unknown")).
    - reflexivity.
    - simpl. intros H. repeat (destruct H as [H|H]; [discriminate|]).
      exact H. }
  assert (Hs : PyStr.strip (md_subject md) = md_subject md
               /\ ~ In LF (md_subject md)).
  { apply (@header_value_trimmed "Subject:" raw (lit "No Subject")).
    - reflexivity.
    - simpl. intros H. repeat (destruct H as [H|H]; [discriminate|]).
      exact H. }
  destruct Hf as [Hf1 Hf2]. destruct Hs as [Hs1 Hs2].
  destruct (Hends _ Hf1) as [Hf3 Hf4]. destruct (Hends _ Hs1) as [Hs3 Hs4].
  repeat split; assumption.
Qed.

(** ** The structure of a parsed email *)

Section ParsedStructure.

Variable html_unescape : str -> str.
Context {Message : Type} {API : MessageAPI Message}.
Variable message_from_string : str -> result Message.

Lemma collect_headers_keys (msg : Message) :
  map fst (Utils.collect_headers msg)
  = filter (fun header =>
              match get_header msg header with
              | Some _ => true
              | None => false
              end)
           Utils.header_names.
Proof.
  unfold Utils.collect_headers.
  induction Utils.header_names as [|h hs IH]; [reflexivity|].
  simpl. destruct (get_header msg h); simpl; rewrite IH; reflexivity.
Qed.

Lemma collect_headers_in (msg : Message) (k v : str) :
  In (k, v) (Utils.collect_headers msg)
  <-> In k Utils.header_names /\ get_header msg k = Some v.
Proof.
  unfold Utils.collect_headers. rewrite in_flat_map. split.
  - intros (h & Hh & Hin). destruct (get_header msg h) eqn:E.
    + destruct Hin as [Hin|[]]. inversion Hin; subst. auto.
    + contradiction.
  - intros [Hk Hv]. exists k. split; [exact Hk|]. rewrite Hv.
    left. reflexivity.
Qed.

Lemma header_names_nodup : NoDup Utils.header_names.
Proof.
  unfold Utils.header_names.
  repeat (constructor;
          [simpl; intros H;
           repeat (destruct H as [H|H]; [discriminate|]); exact H|]).
  constructor.
Qed.

(** The loop over the parts appends the text of each part. *)
Lemma visit_parts_body (ps : list Message) :
  forall st st' : str * list str,
    Utils.visit_parts html_unescape st ps = Ok st' ->
    fst st' = fst st ++ concat (map (Spec.part_text html_unescape) ps).
Proof.
  induction ps as [|p ps IH]; intros st st' H; simpl in H.
  - inversion H; subst. simpl. symmetry. apply app_nil_r.
  - apply bind_ok in H. destruct H as (st1 & H1 & H).
    rewrite (IH _ _ H). clear IH H. cbn [map concat].
    unfold Utils.visit_part in H1. destruct st as [b a].
    unfold Spec.part_text.
    destruct (Json.str_eqb (get_content_type p) (lit "text/plain")).
    + apply bind_ok in H1. destruct H1 as (t & Ht & H1).
      inversion H1; subst. rewrite Ht. cbn [fst].
      rewrite <- app_assoc. reflexivity.
    + destruct (Json.str_eqb (get_content_type p) (lit "text/html")).
      * apply bind_ok in H1. destruct H1 as (t & Ht & H1).
        inversion H1; subst. rewrite Ht. cbn [fst].
        rewrite <- app_assoc. reflexivity.
      * apply bind_ok in H1. destruct H1 as (filename & _ & H1).
        destruct filename; inversion H1; subst; reflexivity.
Qed.

Lemma parse_message_structure (msg : Message) (p : ParsedEmail) :
  Utils.parse_message html_unescape msg = Ok p ->
  headers p = Utils.collect_headers msg
  /\ (if is_multipart msg
      then body p = concat (map (Spec.part_text html_unescape) (walk msg))
      else payload_text msg = Ok (body p))
  /\ links p = Utils.extract_links (body p).
Proof.
  unfold Utils.parse_message. intros H.
  apply bind_ok in H. destruct H as (st & Hst & H).
  inversion H; subst; clear H. cbn [headers body links].
  split; [reflexivity|]. split; [|reflexivity].
  destruct (is_multipart msg).
  - rewrite (visit_parts_body _ _ Hst). reflexivity.
  - apply bind_ok in Hst. destruct Hst as (t & Ht & Hst).
    inversion Hst; subst. exact Ht.
Qed.

End ParsedStructure.

(** X12.  For a raw email that parses, the headers of the result are the
    fields of the message whose names are on the allow-list of eight, each
    name at most once and with the value the message gives it; no other
    header is ever copied. *)
Theorem parse_email_headers :
  forall (html_unescape : str -> str) (Message : Type)
         (API : MessageAPI Message)
         (message_from_string : str -> result Message) (raw : str)
         (msg : Message) (p : ParsedEmail),
    message_from_string raw = Ok msg ->
    Utils.parse_attempt html_unescape message_from_string raw = Ok p ->
    (forall k v : str,
        In (k, v) (headers p)
        <-> In k Utils.header_names /\ get_header msg k = Some v)
    /\ NoDup (map fst (headers p))
    /\ (length (headers p) <= 8)%nat.
Proof.
  intros html_unescape Message API message_from_string raw msg p Hm H.
  unfold Utils.parse_attempt in H. rewrite Hm in H. cbn [bind] in H.
  apply parse_message_structure in H. destruct H as (Hh & _ & _).
  rewrite Hh. split; [intros k v; apply collect_headers_in|].
  split.
  - rewrite collect_headers_keys. apply NoDup_filter.
    apply header_names_nodup.
  - rewrite <- (length_map fst), collect_headers_keys.
    pose proof (filter_length_le
                  (fun header =>
                     match get_header msg header with
                     | Some _ => true
                     | None => false
                     end) Utils.header_names) as Hle.
    change (length Utils.header_names) with 8%nat in Hle. exact Hle.
Qed.

(** X12 at the multipart mail with two attachments. *)
Lemma parse_email_headers_witness :
  exists p : ParsedEmail,
    Utils.parse_attempt (fun s => s) (fun _ => Ok mail_with_attachments)
                        raw_sample = Ok p
    /\ NoDup (map fst (headers p))
    /\ (length (headers p) <= 8)%nat.
Proof.
  eexists.
  assert (H : Utils.parse_attempt (fun s => s)
                (fun _ => Ok mail_with_attachments) raw_sample
              = Ok (Utils.parse_email (fun s => s)
                      (fun _ => Ok mail_with_attachments) raw_sample))
    by (vm_compute; reflexivity).
  split; [exact H|].
  exact (proj2 (parse_email_headers (fun s => s) mime_api
                  (fun _ => Ok mail_with_attachments) raw_sample
                  eq_refl H)).
Defined.

(** X13.  For a raw email that parses, the body of a multipart message is
    the concatenation, in the order of the walk, of the decoded text/plain
    parts and the converted text/html parts.  The body of a message that
    is not multipart is its decoded payload as it is, whatever its content
    type: an HTML mail that is not multipart is not converted.  In both
    cases the links are the URLs of the body. *)
Theorem parse_email_body :
  forall (html_unescape : str -> str) (Message : Type)
         (API : MessageAPI Message)
         (message_from_string : str -> result Message) (raw : str)
         (msg : Message) (p : ParsedEmail),
    message_from_string raw = Ok msg ->
    Utils.parse_attempt html_unescape message_from_string raw = Ok p ->
    (is_multipart msg = true ->
     body p = concat (map (Spec.part_text html_unescape) (walk msg)))
    /\ (is_multipart msg = false -> payload_text msg = Ok (body p))
    /\ links p = Utils.extract_links (body p).
Proof.
  intros html_unescape Message API message_from_string raw msg p Hm H.
  unfold Utils.parse_attempt in H. rewrite Hm in H. cbn [bind] in H.
  apply parse_message_structure in H. destruct H as (_ & Hb & Hl).
  destruct (is_multipart msg).
  - split; [intros _; exact Hb|]. split; [discriminate|exact Hl].
  - split; [discriminate|]. split; [intros _; exact Hb|exact Hl].
Qed.

(** X13 at a mail that is a single HTML document: the body keeps the
    tags. *)
Lemma parse_email_body_witness :
  exists p : ParsedEmail,
    Utils.parse_attempt (fun s => s) (fun _ => Ok html_mail) raw_sample
    = Ok p
    /\ is_multipart html_mail = false
    /\ payload_text html_mail = Ok (body p)
    /\ body p = lit "<p>Visit <b>www.example.com</b></p>"
    /\ links p = Utils.extract_links (body p).
Proof.
  eexists.
  assert (H : Utils.parse_attempt (fun s => s) (fun _ => Ok html_mail)
                raw_sample
              = Ok (Utils.parse_email (fun s => s) (fun _ => Ok html_mail)
                      raw_sample))
    by (vm_compute; reflexivity).
  destruct (parse_email_body (fun s => s) mime_api (fun _ => Ok html_mail)
              raw_sample eq_refl H) as (_ & Hb & Hl).
  split; [exact H|]. split; [reflexivity|].
  split; [exact (Hb eq_refl)|]. split; [vm_compute; reflexivity|exact Hl].
Defined.

(** ** The TLD check on http and https URLs *)

(** The network location of an http or https URL without whitespace: the
    text between the two slashes and the first of slash, question mark and
    hash. *)
Lemma netloc_http (chk : str -> option string) (secure : bool)
      (authority rest : str) :
  forallb (Re.accepts Re.no_flags Detector.url_chars) (authority ++ rest)
  = true ->
  forallb (fun c => negb (PyStr.eqb_char c "/" || PyStr.eqb_char c "?"
                          || PyStr.eqb_char c "#")%bool) authority = true ->
  PyStr.has_char "[" authority = false ->
  PyStr.has_char "]" authority = false ->
  match rest with
  | [] => True
  | c :: _ => (PyStr.eqb_char c "/" || PyStr.eqb_char c "?"
               || PyStr.eqb_char c "#")%bool = true
  end ->
  UrlParse.netloc chk
    ((if secure then lit "https://" else lit "http://") ++ authority ++ rest)
  = Ok authority.
Proof.
  intros Hall Ha Hl Hr Hrest. unfold UrlParse.netloc.
  assert (Hsafe : UrlParse.remove_unsafe (authority ++ rest)
                  = authority ++ rest)
    by (apply remove_unsafe_url_chars; exact Hall).
  assert (Hu : UrlParse.after_scheme
                 (UrlParse.remove_unsafe
                    (UrlParse.lstrip_c0
                       ((if secure then lit "https://" else lit "http://")
                        ++ authority ++ rest)))
               = lit "//" ++ authority ++ rest).
  { destruct secure.
    - change (UrlParse.lstrip_c0 (lit "https://" ++ authority ++ rest))
        with (lit "https://" ++ authority ++ rest).
      change (UrlParse.remove_unsafe (lit "https://" ++ authority ++ rest))
        with (lit "https://" ++ UrlParse.remove_unsafe (authority ++ rest)).
      rewrite Hsafe. reflexivity.
    - change (UrlParse.lstrip_c0 (lit "http://" ++ authority ++ rest))
        with (lit "http://" ++ authority ++ rest).
      change (UrlParse.remove_unsafe (lit "http://" ++ authority ++ rest))
        with (lit "http://" ++ UrlParse.remove_unsafe (authority ++ rest)).
      rewrite Hsafe. reflexivity. }
  rewrite Hu.
  change (PyStr.startswith (lit "//") (lit "//" ++ authority ++ rest))
    with true. cbv iota.
  change (skipn 2 (lit "//" ++ authority ++ rest)) with (authority ++ rest).
  rewrite (upto_delim_app authority rest Ha Hrest), Hl, Hr. reflexivity.
Qed.

(** A suffix of the list ends with one of the letters a, f, k, l, p, z. *)
Lemma suspicious_tld_last (n h : str) (c : ascii) :
  n = h ++ [c] ->
  ~ In c (lit "afklpz") ->
  existsb (fun tld => PyStr.endswith tld n) Detector.suspicious_tlds = false.
Proof.
  intros -> Hc.
  destruct (existsb (fun tld => PyStr.endswith tld (h ++ [c]))
                    Detector.suspicious_tlds) eqn:E; [|reflexivity].
  exfalso. apply existsb_exists in E. destruct E as (tld & Hin & He).
  apply endswith_iff in He. destruct He as [h' He].
  apply Hc. apply (f_equal (@rev ascii)) in He.
  rewrite !rev_app_distr in He. simpl in Hin.
  repeat (destruct Hin as [<-|Hin];
          [simpl in He; inversion He; subst; simpl; auto 10|]).
  contradiction.
Qed.

(** X14.  For an http or https URL without whitespace whose network
    location holds no bracket, [_has_suspicious_tld] looks at the text
    between [://] and the first slash, question mark or hash: the URL is
    flagged exactly when that text ends with one of the six suffixes.  In
    particular a URL is not flagged when that text ends with a character
    other than a, f, k, l, p, z: a port number, an upper-case suffix or a
    trailing dot hide the TLD. *)
Theorem has_suspicious_tld_http :
  forall (chk : str -> option string) (secure : bool) (authority rest : str),
    forallb (Re.accepts Re.no_flags Detector.url_chars) (authority ++ rest)
    = true ->
    forallb (fun c => negb (PyStr.eqb_char c "/" || PyStr.eqb_char c "?"
                            || PyStr.eqb_char c "#")%bool) authority = true ->
    PyStr.has_char "[" authority = false ->
    PyStr.has_char "]" authority = false ->
    match rest with
    | [] => True
    | c :: _ => (PyStr.eqb_char c "/" || PyStr.eqb_char c "?"
                 || PyStr.eqb_char c "#")%bool = true
    end ->
    let url :=
      (if secure then lit "https://" else lit "http://")
      ++ authority ++ rest in
    (Detector._has_suspicious_tld chk url = Ok true
     <-> exists (tld h : str),
           In tld Detector.suspicious_tlds /\ authority = h ++ tld)
    /\ (Detector._has_suspicious_tld chk url = Ok true
        \/ Detector._has_suspicious_tld chk url = Ok false)
    /\ (forall (h : str) (c : ascii),
           authority = h ++ [c] ->
           ~ In c (lit "afklpz") ->
           Detector._has_suspicious_tld chk url = Ok false).
Proof.
  intros chk secure authority rest Hall Ha Hl Hr Hrest url.
  unfold Detector._has_suspicious_tld, url.
  rewrite (netloc_http chk secure authority rest Hall Ha Hl Hr Hrest).
  cbn [bind].
  pose proof (existsb_exists (fun tld => PyStr.endswith tld authority)
                             Detector.suspicious_tlds) as Hex.
  pose proof (@suspicious_tld_last authority) as Hlast.
  set (b := existsb (fun tld => PyStr.endswith tld authority)
                    Detector.suspicious_tlds) in *.
  split; [|split].
  - split.
    + intros H. assert (E : b = true) by congruence.
      apply Hex in E. destruct E as (tld & Hin & He).
      apply endswith_iff in He. destruct He as [h He]. exists tld, h. auto.
    + intros (tld & h & Hin & He). f_equal. apply Hex.
      exists tld. split; [exact Hin|]. apply endswith_iff. eauto.
  - destruct b; auto.
  - intros h c He Hc. f_equal. exact (Hlast h c He Hc).
Qed.

(** X14 at [http://evil.xyz:8080/login]: the port hides the suffix. *)
Lemma has_suspicious_tld_http_witness :
  forallb (Re.accepts Re.no_flags Detector.url_chars)
          (host_with_port ++ lit "/login") = true
  /\ Detector._has_suspicious_tld (fun _ => None)
       (lit "http://" ++ host_with_port ++ lit "/login") = Ok false.
Proof.
  assert (Hall : forallb (Re.accepts Re.no_flags Detector.url_chars)
                         (host_with_port ++ lit "/login") = true)
    by (vm_compute; reflexivity).
  split; [exact Hall|].
  refine (proj2 (proj2 (has_suspicious_tld_http (fun _ => None) false
                          host_with_port (lit "/login") Hall _ _ _ _))
                (lit "evil.xyz:808") "0"%char _ _).
  - vm_compute. reflexivity.
  - vm_compute. reflexivity.
  - vm_compute. reflexivity.
  - vm_compute. reflexivity.
  - reflexivity.
  - simpl. intros H. repeat (destruct H as [H|H]; [discriminate|]). exact H.
Defined.

(** ** The IP address check *)

Lemma matches_dot (m : str) :
  Re.matches Re.no_flags (Re.chr ".") m <-> m = lit ".".
Proof.
  split.
  - intros H. inversion H as [|cs c Hc| | | | |]; subst.
    change (PyStr.eqb_char "." c = true) in Hc. apply eqb_char_eq in Hc.
    subst. reflexivity.
  - intros ->. constructor. reflexivity.
Qed.

Lemma ip_pattern_language (m : str) :
  Re.matches Re.no_flags Detector.ip_pattern m <-> Spec.dotted_quad m.
Proof.
  unfold Detector.ip_pattern, Re.Seq, Spec.dotted_quad, Spec.digit_run.
  simpl fold_right. split.
  - intros H.
    inversion H as [| |? ? a r1 Ha H1| | | |]; subst.
    inversion H1 as [| |? ? p1 r2 Hp1 H2| | | |]; subst.
    inversion H2 as [| |? ? b r3 Hb H3| | | |]; subst.
    inversion H3 as [| |? ? p2 r4 Hp2 H4| | | |]; subst.
    inversion H4 as [| |? ? c r5 Hc H5| | | |]; subst.
    inversion H5 as [| |? ? p3 r6 Hp3 H6| | | |]; subst.
    inversion H6 as [| |? ? d r7 Hd H7| | | |]; subst.
    inversion H7; subst.
    apply matches_dot in Hp1, Hp2, Hp3. subst p1 p2 p3.
    apply matches_plus in Ha, Hb, Hc, Hd.
    exists a, b, c, d. rewrite app_nil_r. auto.
  - intros (a & b & c & d & -> & Ha & Hb & Hc & Hd).
    destruct Ha as [Ha1 Ha2]. destruct Hb as [Hb1 Hb2].
    destruct Hc as [Hc1 Hc2]. destruct Hd as [Hd1 Hd2].
    rewrite <- (app_nil_r d).
    repeat (constructor;
            [first [apply matches_plus_intro; assumption
                   |apply matches_dot; reflexivity]|]).
    constructor.
Qed.

(** X15.  The [has_ip_address] flag of a finding is true exactly when its
    URL holds, anywhere in it, four non-empty runs of digits separated by
    dots; the numbers are not bounded, and the runs need not be the host. *)
Theorem has_ip_address_spec :
  forall (chk : str -> option string) (u : str) (f : UrlFinding),
    Detector.analyze_url chk u = Ok f ->
    (has_ip_address f = true
     <-> exists pre m post : str,
           u = pre ++ m ++ post /\ Spec.dotted_quad m).
Proof.
  intros chk u f H. unfold Detector.analyze_url in H.
  apply bind_ok in H. destruct H as (b & _ & H).
  inversion H; subst; clear H. cbn [has_ip_address].
  pose proof (search_none_iff Re.no_flags Detector.ip_pattern u) as Hn.
  destruct (Re.search Re.no_flags Detector.ip_pattern u) as [m|] eqn:E.
  - split; [intros _|reflexivity].
    apply search_some_occurs in E.
    destruct E as (pre & t & post & E & Hm).
    exists pre, t, post. split; [exact E|].
    apply ip_pattern_language. exact Hm.
  - split; [discriminate|].
    intros (pre & t & post & Eu & Hq). exfalso.
    apply (proj1 Hn eq_refl). exists pre, t, post.
    split; [exact Eu|]. apply ip_pattern_language. exact Hq.
Qed.

(** X15 at a URL whose path holds a version number with four parts. *)
Lemma has_ip_address_spec_witness :
  exists f : UrlFinding,
    Detector.analyze_url (fun _ => None)
                         (lit "http://example.com/v/999.1.2.3000") = Ok f
    /\ has_ip_address f = true
    /\ exists pre m post : str,
         lit "http://example.com/v/999.1.2.3000" = pre ++ m ++ post
         /\ Spec.dotted_quad m.
Proof.
  eexists.
  assert (H : Detector.analyze_url (fun _ => None)
                (lit "http://example.com/v/999.1.2.3000")
              = Ok {| url := lit "http://example.com/v/999.1.2.3000";
                      is_shortened := false; suspicious_tld := false;
                      has_ip_address := true; redirect_depth := 0 |})
    by (vm_compute; reflexivity).
  split; [exact H|]. split; [reflexivity|].
  exact (proj1 (has_ip_address_spec (fun _ => None) _ H) eq_refl).
Defined.

(** ** Substitution *)

Section SubFacts.

Variable fl : Re.flags.
Variable r : Re.regex.
Variable repl : str.

Lemma sub_from_skip (n : nat) :
  forall s : str,
    Re.sub_from fl r repl n s = Re.sub_from fl r repl 0 (skipn n s).
Proof.
  induction n as [|n IH]; intros s; [reflexivity|].
  destruct s as [|c s]; [reflexivity|]. simpl skipn. rewrite <- IH.
  reflexivity.
Qed.

Lemma sub_nil : Re.sub fl r repl [] = [].
Proof. reflexivity. Qed.

Lemma sub_cons_none (c : ascii) (s : str) :
  Re.match_at fl r (c :: s) = None ->
  Re.sub fl r repl (c :: s) = c :: Re.sub fl r repl s.
Proof.
  intros H. unfold Re.sub. cbn [Re.sub_from]. rewrite H. reflexivity.
Qed.

Lemma sub_cons_some (c : ascii) (s t rest : str) (g : Re.groups) :
  Re.match_at fl r (c :: s) = Some (t, rest, g) ->
  t <> [] ->
  Re.sub fl r repl (c :: s) = repl ++ Re.sub fl r repl rest.
Proof.
  intros H Hne. unfold Re.sub. cbn [Re.sub_from]. rewrite H.
  apply match_at_sound in H. destruct H as [E _].
  destruct t as [|x t]; [contradiction|].
  simpl in E. inversion E; subst. cbn [length].
  rewrite sub_from_skip. rewrite skipn_app, Nat.sub_diag, skipn_all.
  reflexivity.
Qed.


End SubFacts.

(** ** HTML to text *)

(** A repetition [cs+] at the head of the subject fails when the first
    character is outside the class, and takes the longest run
    otherwise. *)
Lemma match_at_plus (fl : Re.flags) (cs : Re.cset) (s : str) :
  match s with
  | [] => Re.match_at fl (Re.Plus cs) s = None
  | c :: s' =>
      if Re.accepts fl cs c
      then exists run_ rest : str,
             s' = run_ ++ rest
             /\ forallb (Re.accepts fl cs) run_ = true
             /\ match rest with
                | c' :: _ => Re.accepts fl cs c' = false
                | [] => True
                end
             /\ Re.match_at fl (Re.Plus cs) s = Some (c :: run_, rest, [])
      else Re.match_at fl (Re.Plus cs) s = None
  end.
Proof.
  unfold Re.match_at, Re.Plus. cbn [Re.run].
  destruct s as [|c s']; [reflexivity|].
  destruct (Re.accepts fl cs c) eqn:Hc; [|reflexivity].
  destruct (star_greedy_longest fl cs s' []
              (fun rest g =>
                 Some (firstn (length (c :: s') - length rest) (c :: s'),
                       rest, g)))
    as (ds & s2 & E & Hds & Hnext & Hstar).
  { intros; discriminate. }
  exists ds, s2. split; [exact E|]. split; [exact Hds|].
  split; [exact Hnext|]. rewrite Hstar. subst s'.
  change (c :: ds ++ s2) with ((c :: ds) ++ s2).
  rewrite firstn_length_app. reflexivity.
Qed.

(** *** Whitespace *)

Lemma spaces_skip (c : ascii) (s : str) :
  PyStr.isspace c = false ->
  Re.sub Re.no_flags Utils.spaces_pattern (lit " ") (c :: s)
  = c :: Re.sub Re.no_flags Utils.spaces_pattern (lit " ") s.
Proof.
  intros Hc. apply sub_cons_none.
  pose proof (match_at_plus Re.no_flags (Re.Single Re.ASpace) (c :: s)) as H.
  cbn beta iota in H.
  change (Re.accepts Re.no_flags (Re.Single Re.ASpace) c)
    with (PyStr.isspace c) in H.
  rewrite Hc in H. exact H.
Qed.

Lemma spaces_run (c : ascii) (s : str) :
  PyStr.isspace c = true ->
  exists run_ rest : str,
    s = run_ ++ rest
    /\ forallb PyStr.isspace run_ = true
    /\ Spec.no_space_ahead rest
    /\ Re.sub Re.no_flags Utils.spaces_pattern (lit " ") (c :: s)
       = " "%char :: Re.sub Re.no_flags Utils.spaces_pattern (lit " ") rest.
Proof.
  intros Hc.
  pose proof (match_at_plus Re.no_flags (Re.Single Re.ASpace) (c :: s)) as H.
  cbn beta iota in H.
  change (Re.accepts Re.no_flags (Re.Single Re.ASpace) c)
    with (PyStr.isspace c) in H.
  rewrite Hc in H. destruct H as (run_ & rest & E & Hrun & Hnext & Hm).
  exists run_, rest. split; [exact E|]. split; [exact Hrun|]. split.
  - destruct rest as [|c' rest']; [exact I|]. exact Hnext.
  - rewrite (@sub_cons_some Re.no_flags Utils.spaces_pattern (lit " ")
               c s (c :: run_) rest [] Hm ltac:(discriminate)).
    reflexivity.
Qed.

Lemma single_spaced_nil : Spec.single_spaced [].
Proof.
  split.
  - intros c [].
  - intros [|x a] c1 c2 b E; discriminate.
Qed.

Lemma single_spaced_cons (c : ascii) (out : str) :
  PyStr.isspace c = false ->
  Spec.single_spaced out -> Spec.single_spaced (c :: out).
Proof.
  intros Hc [H1 H2]. split.
  - intros x [<-|Hx] Hs; [congruence|]. exact (H1 x Hx Hs).
  - intros [|x a] c1 c2 b E Hs.
    + inversion E; subst. congruence.
    + inversion E; subst. eapply H2; [reflexivity|exact Hs].
Qed.

Lemma single_spaced_space (out : str) :
  Spec.no_space_ahead out ->
  Spec.single_spaced out -> Spec.single_spaced (" "%char :: out).
Proof.
  intros Hh [H1 H2]. split.
  - intros x [<-|Hx] Hs; [reflexivity|]. exact (H1 x Hx Hs).
  - intros [|x a] c1 c2 b E Hs.
    + inversion E; subst. exact Hh.
    + inversion E; subst. eapply H2; [reflexivity|exact Hs].
Qed.

Lemma single_spaced_part (l m r : str) :
  Spec.single_spaced (l ++ m ++ r) -> Spec.single_spaced m.
Proof.
  intros [H1 H2]. split.
  - intros c Hc. apply H1. apply in_or_app. right. apply in_or_app.
    left. exact Hc.
  - intros a c1 c2 b E. apply (H2 (l ++ a) c1 c2 (b ++ r)).
    rewrite E. rewrite <- !app_assoc. reflexivity.
Qed.


(** *** Tags *)








Lemma tag_match_head (c : ascii) (s : str) :
  c <> "<"%char ->
  Re.match_at Re.no_flags Utils.tag_pattern (c :: s) = None.
Proof.
  intros Hc.
  destruct (Re.match_at Re.no_flags Utils.tag_pattern (c :: s))
    as [[[t rest] g]|] eqn:E; [|reflexivity].
  exfalso. apply match_at_sound in E. destruct E as [E Hm].
  unfold Utils.tag_pattern, Re.Seq in Hm. cbn [fold_right] in Hm.
  inversion Hm as [| | r1 r2 s1 s2 H1 H2 | | | |]; subst.
  inversion H1 as [|cs x Hx| | | | |]; subst.
  simpl in E. inversion E; subst.
  change (PyStr.eqb_char "<" x = true) in Hx.
  apply eqb_char_eq in Hx. apply Hc. symmetry. exact Hx.
Qed.




Section SubTagFree.

Variable r : Re.regex.
Hypothesis closing_unmatched :
  forall x : str, Re.match_at Re.no_flags r (">"%char :: x) = None.
Hypothesis match_nonempty :
  forall (s t rest : str) (g : Re.groups),
    Re.match_at Re.no_flags r s = Some (t, rest, g) -> t <> [].



End SubTagFree.




(** ** A header at the head of the text *)

(** X18.  When the text begins with the header name [From:], in any
    case, followed by whitespace and then a line, the [from] value of
    [extract_metadata] is that line, trimmed.  The whitespace may hold
    line feeds: after a header name with nothing else on its line the
    value is taken from the next line that is not blank, which may be the
    next header.  [subject] behaves alike. *)
Theorem header_value_next_line :
  forall head ws line rest : str,
    forallb PyStr.isspace ws = true ->
    line <> [] ->
    Spec.no_space_ahead line ->
    ~ In LF line ->
    Spec.at_line_end rest ->
    let md := Utils.extract_metadata (head ++ ws ++ line ++ rest) in
    (PyStr.lower head = lit "from:" -> md_from md = PyStr.strip line)
    /\ (PyStr.lower head = lit "subject:" ->
        md_subject md = PyStr.strip line).
Proof.
  intros head ws line rest Hws Hne Hline Hlf Hrest md. split; intros Hhead.
  - destruct (@header_match_head "From:"%string head ws line rest Hhead Hws
                Hne Hline Hlf Hrest) as (t & Hm).
    unfold md, Utils.extract_metadata. cbv zeta. cbn [md_from].
    unfold Utils.from_pattern. erewrite search_at_head by exact Hm.
    reflexivity.
  - destruct (@header_match_head "Subject:"%string head ws line rest Hhead
                Hws Hne Hline Hlf Hrest) as (t & Hm).
    unfold md, Utils.extract_metadata. cbv zeta. cbn [md_subject].
    unfold Utils.subject_pattern. erewrite search_at_head by exact Hm.
    reflexivity.
Qed.

Lemma header_value_next_line_witness :
  md_from (Utils.extract_metadata
             (lit "From:" ++ [LF] ++ lit "Subject: Hi"
              ++ (LF :: LF :: lit "body")))
  = lit "Subject: Hi".
Proof.
  refine (proj1 (@header_value_next_line (lit "From:") [LF]
                   (lit "Subject: Hi") (LF :: LF :: lit "body")
                   _ _ _ _ _) _).
  - reflexivity.
  - discriminate.
  - reflexivity.
  - vm_compute. intuition discriminate.
  - reflexivity.
  - reflexivity.
Defined.

(** ** The score of the text-scrape parser *)

Lemma digit_value_range (c : ascii) :
  PyStr.isdigit c = true -> (0 <= PyStr.digit_value c <= 9)%Z.
Proof.
  unfold PyStr.isdigit, PyStr.in_range, PyStr.digit_value. intros H.
  apply andb_true_iff in H. destruct H as [H1 H2].
  apply N.leb_le in H1. apply N.leb_le in H2. lia.
Qed.

Lemma fold_digits_nonneg (s : str) :
  forall acc : Z,
    forallb PyStr.isdigit s = true -> (0 <= acc)%Z ->
    (0 <= fold_left (fun acc c => 10 * acc + PyStr.digit_value c)%Z s acc)%Z.
Proof.
  induction s as [|c s IH]; intros acc H Hacc; [exact Hacc|].
  cbn [forallb] in H. apply andb_true_iff in H. destruct H as [Hc Hs].
  cbn [fold_left]. apply IH; [exact Hs|].
  pose proof (@digit_value_range c Hc). lia.
Qed.

Lemma int_of_digits_nonneg (s : str) :
  forallb PyStr.isdigit s = true -> (0 <= PyStr.int_of_digits s)%Z.
Proof.
  intros H. unfold PyStr.int_of_digits. apply fold_digits_nonneg; [exact H|lia].
Qed.

Lemma fold_digits_zeros (k : nat) :
  forall acc : Z,
    fold_left (fun acc c => 10 * acc + PyStr.digit_value c)%Z
              (repeat "0"%char k) acc
    = (acc * 10 ^ Z.of_nat k)%Z.
Proof.
  induction k as [|k IH]; intros acc.
  - cbn [repeat fold_left]. change (10 ^ Z.of_nat 0)%Z with 1%Z. lia.
  - cbn [repeat fold_left]. rewrite IH.
    change (PyStr.digit_value "0") with 0%Z.
    rewrite Nat2Z.inj_succ, Z.pow_succ_r by lia. ring.
Qed.

Lemma zeros_are_digits (k : nat) :
  forallb PyStr.isdigit (repeat "0"%char k) = true.
Proof. induction k as [|k IH]; [reflexivity|exact IH]. Qed.

(** X19.  The score of the text-scrape parser is never negative, and it
    is not capped at 100: a text that begins with a risk-score phrase
    followed by digits is given the number the digits write.  (The run is
    kept within the 4300 digits that [int] converts.)  So the scores
    reach every power of ten up to the 4299th. *)
Theorem text_scrape_score_range :
  (forall (text : str) (r : AnalysisResult) (score : Z),
      Detector._parse_text_response text = Ok r ->
      Json.get "risk_score" r = Some (JInt score) ->
      (0 <= score)%Z)
  /\ (forall phrase digits rest : str,
         Spec.risk_phrase phrase ->
         digits <> [] ->
         (length digits <= 4300)%nat ->
         forallb PyStr.isdigit digits = true ->
         Spec.no_digit_ahead rest ->
         exists r : AnalysisResult,
           Detector._parse_text_response (phrase ++ digits ++ rest) = Ok r
           /\ Json.get "risk_score" r
              = Some (JInt (PyStr.int_of_digits digits)))
  /\ (forall k : nat,
         (k < 4300)%nat ->
         exists r : AnalysisResult,
           Detector._parse_text_response
             (lit "risk score: " ++ "1"%char :: repeat "0"%char k) = Ok r
           /\ Json.get "risk_score" r = Some (JInt (10 ^ Z.of_nat k))).
Proof.
  assert (Hhead : forall phrase digits rest : str,
             Spec.risk_phrase phrase ->
             digits <> [] ->
             (length digits <= 4300)%nat ->
             forallb PyStr.isdigit digits = true ->
             Spec.no_digit_ahead rest ->
             exists r : AnalysisResult,
               Detector._parse_text_response (phrase ++ digits ++ rest)
               = Ok r
               /\ Json.get "risk_score" r
                  = Some (JInt (PyStr.int_of_digits digits))).
  { intros phrase digits rest Hp Hne Hlen Hd Hrest.
    destruct (@risk_phrase_at_head phrase digits rest Hp Hne Hd Hrest)
      as (t & g & Hm & Hg).
    unfold Detector._parse_text_response. cbv zeta.
    erewrite search_at_head by exact Hm.
    unfold Re.group_of. cbn [Re.m_groups]. rewrite Hg.
    rewrite (proj2 (int_ok digits (PyStr.int_of_digits digits))
               (conj Hlen eq_refl)).
    cbn [bind]. eexists. split; [reflexivity|apply get_risk_score]. }
  split; [|split].
  - intros text r score H Hscore.
    destruct (@parse_text_response_ok text r H) as (score' & Hcase & ->).
    rewrite get_risk_score in Hscore. injection Hscore as <-.
    destruct (Re.search Re.I Detector.risk_pattern text) as [m|] eqn:E.
    + assert (Hs : Spec.states_risk_score text)
        by (apply risk_occurs_iff; eapply search_some_occurs; exact E).
      apply first_risk_score_exists in Hs. destruct Hs as (digits & Hfirst).
      destruct (@first_risk_score_search text digits Hfirst)
        as (m' & Hm' & Hg).
      rewrite E in Hm'. injection Hm' as <-. rewrite Hg in Hcase.
      apply int_ok in Hcase. destruct Hcase as [_ ->].
      apply int_of_digits_nonneg.
      destruct Hfirst as (pre & phrase & post & _ & _ & _ & Hd & _).
      exact Hd.
    + subst score'. lia.
  - exact Hhead.
  - intros k Hk.
    replace (lit "risk score: " ++ "1"%char :: repeat "0"%char k)
      with (lit "risk score: " ++ ("1"%char :: repeat "0"%char k) ++ [])
      by (rewrite app_nil_r; reflexivity).
    replace (10 ^ Z.of_nat k)%Z
      with (PyStr.int_of_digits ("1"%char :: repeat "0"%char k)).
    2:{ unfold PyStr.int_of_digits. cbn [fold_left].
        rewrite fold_digits_zeros.
        change (10 * 0 + PyStr.digit_value "1")%Z with 1%Z.
        rewrite Z.mul_1_l. reflexivity. }
    apply Hhead.
    + exists (lit "risk"), " "%char, (lit "score"), (lit ": ").
      repeat split; try reflexivity. right. reflexivity.
    + discriminate.
    + cbn [length]. rewrite repeat_length. lia.
    + cbn [forallb]. rewrite zeros_are_digits. reflexivity.
    + exact I.
Qed.

(** ** Text without markup *)

Lemma sub_identity (fl : Re.flags) (r : Re.regex) (repl : str) :
  forall s : str,
    (forall (a : str) (c : ascii) (b : str),
        s = a ++ c :: b -> Re.match_at fl r (c :: b) = None) ->
    Re.sub fl r repl s = s.
Proof.
  induction s as [|c s IH]; intros H; [reflexivity|].
  rewrite (@sub_cons_none fl r repl c s (H [] c s eq_refl)). f_equal.
  apply IH. intros a x b E. apply (H (c :: a)). rewrite E. reflexivity.
Qed.

Lemma block_match_head (tag : string) (c : ascii) (s : str) :
  c <> "<"%char ->
  Re.match_at Re.S_ (Utils.block_pattern tag) (c :: s) = None.
Proof.
  intros Hc.
  destruct (Re.match_at Re.S_ (Utils.block_pattern tag) (c :: s))
    as [[[t rest] g]|] eqn:E; [|reflexivity].
  exfalso. apply match_at_sound in E. destruct E as [E Hm].
  unfold Utils.block_pattern, Re.Seq in Hm. cbn [fold_right] in Hm.
  inversion Hm as [| | r1 r2 s1 s2 H1 H2 | | | |]; subst.
  inversion H1 as [|cs x Hx| | | | |]; subst.
  simpl in E. inversion E; subst.
  change (PyStr.eqb_char "<" x = true) in Hx.
  apply eqb_char_eq in Hx. apply Hc. symmetry. exact Hx.
Qed.

Lemma spaces_identity (n : nat) :
  forall s : str,
    (length s <= n)%nat ->
    Spec.single_spaced s ->
    Re.sub Re.no_flags Utils.spaces_pattern (lit " ") s = s.
Proof.
  induction n as [|n IH]; intros s Hn Hs.
  - destruct s; [reflexivity|simpl in Hn; lia].
  - destruct s as [|c s]; [reflexivity|]. simpl in Hn.
    assert (Hs' : Spec.single_spaced s).
    { apply (@single_spaced_part [c] s []). rewrite app_nil_r. exact Hs. }
    destruct (PyStr.isspace c) eqn:Hc.
    + destruct (@spaces_run c s Hc) as (run_ & rest & E & Hrun & _ & ->).
      destruct Hs as [H1 H2].
      rewrite (H1 c (or_introl eq_refl) Hc).
      destruct run_ as [|x run_].
      * simpl in E. subst rest. rewrite (IH s ltac:(lia) Hs'). reflexivity.
      * exfalso. cbn [forallb] in Hrun. apply andb_true_iff in Hrun.
        destruct Hrun as [Hx _].
        rewrite (H2 [] c x (run_ ++ rest)) in Hx; [discriminate| |exact Hc].
        rewrite E. reflexivity.
    + rewrite (@spaces_skip c s Hc), (IH s ltac:(lia) Hs'). reflexivity.
Qed.

(** X20.  Text without markup passes through [html_to_text] unchanged:
    when the text holds no opening angle bracket, [html.unescape] leaves
    it as it is, and its whitespace is single spaces between words, the
    result is the text itself. *)
Theorem html_to_text_plain :
  forall (html_unescape : str -> str) (text : str),
    ~ In "<"%char text ->
    html_unescape text = text ->
    Spec.single_spaced text ->
    Spec.no_space_ahead text ->
    (forall (c : ascii) (init : str),
        text = init ++ [c] -> PyStr.isspace c = false) ->
    Utils.html_to_text html_unescape text = text.
Proof.
  intros html_unescape text Hlt Hun Hs Hhead Hlast.
  assert (Hne : forall (a : str) (c : ascii) (b : str),
             text = a ++ c :: b -> c <> "<"%char).
  { intros a c b E ->. apply Hlt. rewrite E. apply in_or_app. right.
    left. reflexivity. }
  unfold Utils.html_to_text. cbv zeta.
  rewrite (@sub_identity Re.S_ (Utils.block_pattern "script") [] text)
    by (intros a c b E; apply block_match_head; exact (Hne a c b E)).
  rewrite (@sub_identity Re.S_ (Utils.block_pattern "style") [] text)
    by (intros a c b E; apply block_match_head; exact (Hne a c b E)).
  rewrite Hun.
  rewrite (@sub_identity Re.no_flags Utils.tag_pattern (lit " ") text)
    by (intros a c b E; apply tag_match_head; exact (Hne a c b E)).
  rewrite (@spaces_identity (length text) text (le_n _) Hs).
  apply strip_identity; assumption.
Qed.

Lemma html_to_text_plain_witness :
  Utils.html_to_text (fun s => s) (lit "Dear customer") = lit "Dear customer".
Proof.
  apply (@html_to_text_plain (fun s => s) (lit "Dear customer")).
  - vm_compute. intuition discriminate.
  - reflexivity.
  - unfold lit. cbn [list_ascii_of_string].
    repeat first [ apply single_spaced_nil
                 | apply single_spaced_cons; [reflexivity|]
                 | apply single_spaced_space; [reflexivity|] ].
  - reflexivity.
  - intros c init E.
    apply (f_equal (@rev ascii)) in E. rewrite rev_app_distr in E.
    vm_compute in E. injection E as <- _. reflexivity.
Defined.
